(** * bug-finder: counting a multi-line pattern (bug) in a text (landscape)

    A shallow embedding of [main.py] and the properties of its matching
    engine.  Python 2 byte strings are lists of 8-bit characters, Python
    ints are [Z], generators are the lists they produce, the nested
    [defaultdict] of the engine is a [gmap] of [gmap]s whose reads create
    the missing keys as the original does, and exceptions are the [Raise]
    results of an error monad.  The script at the end of [main.py] runs
    on a file system, a map from paths to what they name, and on the two
    arguments the parser hands over; what it writes is the list of its
    outputs. *)

From Stdlib Require Import ZArith Ascii String List Lia DecimalNat Sorted.
From stdpp Require Import base option list sorting gmap.

Open Scope Z_scope.

(** ** Python byte strings *)

Abbreviation str := (list ascii).

Definition py (s : string) : str := list_ascii_of_string s.

Module Py.

Definition NUL : ascii := "000"%char.
Definition TAB : ascii := "009"%char.
Definition LF : ascii := "010"%char.
Definition VT : ascii := "011"%char.
Definition FF : ascii := "012"%char.
Definition CR : ascii := "013"%char.
Definition SP : ascii := " "%char.

(** [c in string] for a one-character [c]. *)
Definition char_in (c : ascii) (s : str) : bool :=
  existsb (Ascii.eqb c) s.

(** The characters [str.rstrip()] strips and [\s] matches (byte strings,
    no flags): space, tab, line feed, vertical tab, form feed, carriage
    return. *)
Definition isspace (c : ascii) : bool :=
  char_in c [SP; TAB; LF; VT; FF; CR].

(** [s.rstrip()] *)
Fixpoint rstrip (s : str) : str :=
  match s with
  | [] => []
  | c :: s' =>
      match rstrip s' with
      | [] => if isspace c then [] else [c]
      | r => c :: r
      end
  end.

(** Iterating over a file opened in mode ['r']: the content is cut after
    every line feed; each line keeps its terminator, and a last line
    without one is produced when it is not empty. *)
Fixpoint file_lines (content : str) : list str :=
  match content with
  | [] => []
  | c :: rest =>
      if Ascii.eqb c LF then [c] :: file_lines rest
      else match file_lines rest with
           | [] => [[c]]
           | l :: ls => (c :: l) :: ls
           end
  end.

(** [enumerate(xs)], counting from [i]. *)
Fixpoint enumerate_from {A} (i : Z) (xs : list A) : list (Z * A) :=
  match xs with
  | [] => []
  | x :: xs' => (i, x) :: enumerate_from (i + 1) xs'
  end.

Definition enumerate {A} (xs : list A) : list (Z * A) := enumerate_from 0 xs.

(** [str(n)] for a non-negative int: its decimal digits. *)
Fixpoint digits_of_uint (d : Decimal.uint) : str :=
  match d with
  | Decimal.Nil => []
  | Decimal.D0 d => "0"%char :: digits_of_uint d
  | Decimal.D1 d => "1"%char :: digits_of_uint d
  | Decimal.D2 d => "2"%char :: digits_of_uint d
  | Decimal.D3 d => "3"%char :: digits_of_uint d
  | Decimal.D4 d => "4"%char :: digits_of_uint d
  | Decimal.D5 d => "5"%char :: digits_of_uint d
  | Decimal.D6 d => "6"%char :: digits_of_uint d
  | Decimal.D7 d => "7"%char :: digits_of_uint d
  | Decimal.D8 d => "8"%char :: digits_of_uint d
  | Decimal.D9 d => "9"%char :: digits_of_uint d
  end.

Definition str_of_nat (n : nat) : str := digits_of_uint (Nat.to_uint n).

End Py.

(** ** Results of code that can raise *)

Inductive exn : Type :=
| TypeError      (* a pattern that is [None] given to [re] *)
| ValueError     (* [list.remove(x)]: x not in list *)
| IndexError     (* [shape[-1]] of an empty shape *)
| ReError.       (* [re.error]: a pattern the engine cannot compile *)

Inductive result (A : Type) : Type :=
| Ok (a : A)
| Raise (e : exn).
Arguments Ok {A} a.
Arguments Raise {A} e.

#[global] Instance result_bind : MBind result := fun A B k r =>
  match r with
  | Ok a => k a
  | Raise e => Raise e
  end.

(** A [for] loop whose body can raise, threading the state. *)
Fixpoint for_each {A S} (xs : list A) (body : A -> S -> result S) (s : S)
  : result S :=
  match xs with
  | [] => Ok s
  | x :: xs' => s' ← body x s; for_each xs' body s'
  end.

(** ** [escape] *)

Definition ALPHANUM : str :=
  py "abcdefghijklmnopqrstuvwxyzABCDEFGHIJKLMNOPQRSTUVWXYZ0123456789".

Definition escape_char (alphanum : str) (c : ascii) : str :=
  if Py.char_in c alphanum then [c]
  else if Ascii.eqb c Py.NUL then py "\000"
  else "\"%char :: [c].

(** [escape(string, except_chars)]: every character outside [ALPHANUM] and
    [except_chars] gets a backslash (the NUL character becomes [\000]);
    the pieces are joined with the empty string [string[:0]]. *)
Definition escape (string except_chars : str) : str :=
  let alphanum := ALPHANUM ++ except_chars in
  concat (map (escape_char alphanum) string).

(** ** The [re] module, for the patterns this program builds

    [_format_pattern] only emits literal characters, backslash escapes of
    non-alphanumeric characters, the octal escape [\000], the dot, counted
    repetitions [{n}] and one lookahead group [(?=...)].  [compile] parses
    that fragment and answers [None] on anything else; [compile_format]
    below shows that it never does so on a pattern of this program.
    Counts of repetition are natural numbers without the bound CPython puts
    on them ([MAXREPEAT]), as strings and ints are without the bounds of
    memory. *)

Module Re.

Inductive atom : Type :=
| Literal (c : ascii)
| AnyChar.                       (* [.]: any character but a line feed *)

Inductive node : Type :=
| Item (a : atom) (n : nat)      (* [a{n}]; a bare atom is [a{1}] *)
| AssertAhead (body : list (atom * nat)).   (* [(?=...)] *)

Definition regex := list node.

Definition SPECIAL : str := py ".^$*+?{}[]\|()".

Definition octal_digit (c : ascii) : option nat :=
  let n := nat_of_ascii c in
  if (48 <=? n)%nat && (n <=? 55)%nat then Some (n - 48)%nat else None.

(** The digits after [\0]: at most two, octal. *)
Definition octal_tail (p : str) : nat * str :=
  match p with
  | c1 :: p1 =>
      match octal_digit c1 with
      | Some d1 =>
          match p1 with
          | c2 :: p2 =>
              match octal_digit c2 with
              | Some d2 => (8 * d1 + d2, p2)%nat
              | None => (d1, p1)
              end
          | [] => (d1, p1)
          end
      | None => (0%nat, p)
      end
  | [] => (0%nat, p)
  end.

Definition parse_atom (p : str) : option (atom * str) :=
  match p with
  | [] => None
  | c :: p1 =>
      if Ascii.eqb c "\"%char then
        match p1 with
        | [] => None
        | e :: p2 =>
            if Ascii.eqb e "0"%char then
              let '(v, p3) := octal_tail p2 in
              Some (Literal (ascii_of_nat v), p3)
            else if Py.char_in e ALPHANUM then None
            else Some (Literal e, p2)
        end
      else if Ascii.eqb c "."%char then Some (AnyChar, p1)
      else if Py.char_in c SPECIAL then None
      else Some (Literal c, p1)
  end.

Definition digit_of (c : ascii) : option (Decimal.uint -> Decimal.uint) :=
  if Ascii.eqb c "0"%char then Some Decimal.D0
  else if Ascii.eqb c "1"%char then Some Decimal.D1
  else if Ascii.eqb c "2"%char then Some Decimal.D2
  else if Ascii.eqb c "3"%char then Some Decimal.D3
  else if Ascii.eqb c "4"%char then Some Decimal.D4
  else if Ascii.eqb c "5"%char then Some Decimal.D5
  else if Ascii.eqb c "6"%char then Some Decimal.D6
  else if Ascii.eqb c "7"%char then Some Decimal.D7
  else if Ascii.eqb c "8"%char then Some Decimal.D8
  else if Ascii.eqb c "9"%char then Some Decimal.D9
  else None.

(** The decimal digits at the head of [p], and what follows them. *)
Fixpoint read_uint (p : str) : Decimal.uint * str :=
  match p with
  | [] => (Decimal.Nil, [])
  | c :: p' =>
      match digit_of c with
      | Some d => let '(u, rest) := read_uint p' in (d u, rest)
      | None => (Decimal.Nil, p)
      end
  end.

(** The repetition after an atom: [{n}], or none (once). *)
Definition parse_repeat (p : str) : option (nat * str) :=
  match p with
  | c :: p1 =>
      if Ascii.eqb c "{"%char then
        match read_uint p1 with
        | (Decimal.Nil, _) => None
        | (u, c' :: p2) =>
            if Ascii.eqb c' "}"%char then Some (Nat.of_uint u, p2) else None
        | (_, []) => None
        end
      else Some (1%nat, p)
  | [] => Some (1%nat, p)
  end.

(** The items up to the end of the pattern or to a closing parenthesis,
    which is left in place. *)
Fixpoint parse_items (fuel : nat) (p : str) : option (list (atom * nat) * str) :=
  match fuel with
  | O => None
  | S fuel' =>
      match p with
      | [] => Some ([], [])
      | c :: _ =>
          if Ascii.eqb c ")"%char then Some ([], p)
          else
            '(a, p1) ← parse_atom p;
            '(n, p2) ← parse_repeat p1;
            '(items, p3) ← parse_items fuel' p2;
            Some ((a, n) :: items, p3)
      end
  end.

Definition starts_with (prefix p : str) : bool :=
  bool_decide (take (length prefix) p = prefix).

Fixpoint parse_nodes (fuel : nat) (p : str) : option regex :=
  match fuel with
  | O => None
  | S fuel' =>
      match p with
      | [] => Some []
      | _ :: _ =>
          if starts_with (py "(?=") p then
            '(body, p1) ← parse_items (S (length p)) (drop 3 p);
            match p1 with
            | _ :: p2 => nodes ← parse_nodes fuel' p2; Some (AssertAhead body :: nodes)
            | [] => None
            end
          else
            '(a, p1) ← parse_atom p;
            '(n, p2) ← parse_repeat p1;
            nodes ← parse_nodes fuel' p2;
            Some (Item a n :: nodes)
      end
  end.

Definition compile (p : str) : option regex := parse_nodes (S (length p)) p.

(** *** Matching: what is left of the input after the match *)

Definition match_atom (a : atom) (c : ascii) : bool :=
  match a with
  | Literal x => Ascii.eqb c x
  | AnyChar => negb (Ascii.eqb c Py.LF)
  end.

Fixpoint match_rep (a : atom) (n : nat) (s : str) : option str :=
  match n with
  | O => Some s
  | S n' =>
      match s with
      | c :: s' => if match_atom a c then match_rep a n' s' else None
      | [] => None
      end
  end.

Fixpoint match_items (items : list (atom * nat)) (s : str) : option str :=
  match items with
  | [] => Some s
  | (a, n) :: items' => s' ← match_rep a n s; match_items items' s'
  end.

Definition match_node (nd : node) (s : str) : option str :=
  match nd with
  | Item a n => match_rep a n s
  | AssertAhead body => _ ← match_items body s; Some s
  end.

Fixpoint match_nodes (r : regex) (s : str) : option str :=
  match r with
  | [] => Some s
  | nd :: r' => s' ← match_node nd s; match_nodes r' s'
  end.

(** [r] matches [s] at column [col]. *)
Definition matches_at (r : regex) (s : str) (col : nat) : bool :=
  bool_decide (col < length s)%nat && bool_decide (is_Some (match_nodes r (drop col s))).

(** *** [finditer]

    The scan goes through the columns from the left; [s] is the input
    from column [col] on and [skip] counts the columns still covered by
    the previous match, where no match may start.  A match that consumed
    no character lets the scan resume one column further. *)
Fixpoint scan (r : regex) (s : str) (col skip : nat) : list nat :=
  match s with
  | [] =>
      match skip, match_nodes r [] with
      | O, Some _ => [col]
      | _, _ => []
      end
  | _ :: s' =>
      match skip with
      | S k => scan r s' (S col) k
      | O =>
          match match_nodes r s with
          | Some rest => col :: scan r s' (S col) (length s - length rest - 1)
          | None => scan r s' (S col) 0
          end
      end
  end.

(** [[m.start() for m in re.finditer(pattern, string)]] *)
Definition finditer (pattern : option str) (string : str) : result (list nat) :=
  match pattern with
  | None => Raise TypeError
  | Some p =>
      match compile p with
      | None => Raise ReError
      | Some r => Ok (scan r string 0 0)
      end
  end.

(** [re.sub(r'\s+', repl, string)]: every maximal run of whitespace is
    replaced by what [repl] makes of it; [run] is the run being read. *)
Fixpoint sub_spaces_from (repl : str -> str) (run : str) (string : str) : str :=
  match string with
  | [] => match run with [] => [] | _ => repl run end
  | c :: rest =>
      if Py.isspace c then sub_spaces_from repl (run ++ [c]) rest
      else match run with
           | [] => c :: sub_spaces_from repl [] rest
           | _ => repl run ++ c :: sub_spaces_from repl [] rest
           end
  end.

Definition sub_spaces (repl : str -> str) (string : str) : str :=
  sub_spaces_from repl [] string.

End Re.

(** ** [File], [File.Line] and [File.reader] *)

Module Line.
Record t : Type := mk { id : Z; pattern : str }.
End Line.

(** [File.reader(file_handler)]: the lines of the file, numbered from 0,
    stripped on the right; the lines left empty are not produced, and they
    keep their number. *)
Definition reader_line (numbered : Z * str) : option Line.t :=
  let '(line_id, pattern) := numbered in
  let pattern := Py.rstrip pattern in
  match pattern with
  | [] => None
  | _ :: _ => Some (Line.mk line_id pattern)
  end.

Definition reader (file_handler : str) : list Line.t :=
  omap reader_line (Py.enumerate (Py.file_lines file_handler)).

(** ** [Bug] and [Bug.Part] *)

(** [Bug.Part._format_bug_replace_match_with_regex]; [group0] is
    [match.group(0)]. *)
Definition _format_bug_replace_match_with_regex (group0 : str) : str :=
  let length_of_space := length group0 in
  py ".{" ++ Py.str_of_nat length_of_space ++ py "}".

(** [Bug.Part._format_pattern]; the result is Python's [None] when the
    pattern is empty (the function falls off its [if]). *)
Definition _format_pattern (pattern : str) : option str :=
  match pattern with
  | [] => None
  | first :: rest =>
      let shape_part_first_char := escape [first] [] in
      let shape_part_rest_chars := escape rest [Py.SP] in
      let shape_part_rest_chars :=
        Re.sub_spaces _format_bug_replace_match_with_regex shape_part_rest_chars in
      Some (shape_part_first_char ++ py "(?=" ++ shape_part_rest_chars ++ py ")")
  end.

Module Part.
(** A [Bug.Part] is a [Line] whose [pattern] setter stores the formatted
    pattern. *)
Record t : Type := mk { id : Z; pattern : option str }.

(** [Bug.Part(line)] *)
Definition of_line (line : Line.t) : t :=
  mk (Line.id line) (_format_pattern (Line.pattern line)).
End Part.

(** [Bug._read_bug]: the shape read from the content of the bug's file. *)
Definition _read_bug (file_handler : str) : list Part.t :=
  Part.of_line <$> reader file_handler.

(** ** [BugFinder] *)

Module BugFinder.

(** [{line_number: {bug_part_id: [bug_part_match_position]}}] *)
Abbreviation table := (gmap Z (gmap Z (list nat))).

Record t : Type := mk { bug_part_matches : table; bug_count : nat }.

(** [BugFinder(bug, landscape)] *)
Definition init : t := mk ∅ 0.

(** [matches[line]] on the [defaultdict]: a missing line gets an empty
    inner dict. *)
Definition get_line (m : table) (line : Z) : gmap Z (list nat) * table :=
  match m !! line with
  | Some d => (d, m)
  | None => (∅, <[line := ∅]> m)
  end.

(** [matches[line][part]]: a missing list is created empty. *)
Definition get_positions (m : table) (line part : Z) : list nat * table :=
  let '(d, m) := get_line m line in
  match d !! part with
  | Some l => (l, m)
  | None => ([], <[line := <[part := []]> d]> m)
  end.

(** What the table holds for a key, without touching it. *)
Definition positions (m : table) (line part : Z) : option (list nat) :=
  m !! line ≫= (.!! part).

(** [l.remove(x)]: the first occurrence; [ValueError] when there is none. *)
Fixpoint list_remove (x : nat) (l : list nat) : result (list nat) :=
  match l with
  | [] => Raise ValueError
  | y :: l' =>
      if decide (x = y) then Ok l'
      else l'' ← list_remove x l'; Ok (y :: l'')
  end.

Definition increment_bug_count (self : t) : t :=
  mk (bug_part_matches self) (S (bug_count self)).

Definition bug_part_match_exists (bug_part : Part.t) (landscape_line : Line.t)
    (self : t) : bool * t :=
  let '(d, m) := get_line (bug_part_matches self) (Line.id landscape_line) in
  (bool_decide (is_Some (d !! Part.id bug_part)), mk m (bug_count self)).

Definition register_bug_part_match (bug_part : Part.t) (landscape_line : Line.t)
    (bug_part_match_position : nat) (self : t) : t :=
  let line := Line.id landscape_line in
  let part := Part.id bug_part in
  let '(l, m) := get_positions (bug_part_matches self) line part in
  let d := default ∅ (m !! line) in
  mk (<[line := <[part := l ++ [bug_part_match_position]]> d]> m) (bug_count self).

Section WithBug.

(** [self.bug.shape] *)
Variable shape : list Part.t.

Fixpoint deregister_loop (parts : list Part.t) (landscape_line_number : Z)
    (bug_part_match_position : nat) (m : table) : result table :=
  match parts with
  | [] => Ok m
  | bug_part :: parts' =>
      let part := Part.id bug_part in
      let '(l, m) := get_positions m landscape_line_number part in
      l' ← list_remove bug_part_match_position l;
      let d := default ∅ (m !! landscape_line_number) in
      deregister_loop parts' (landscape_line_number - 1) bug_part_match_position
        (<[landscape_line_number := <[part := l']> d]> m)
  end.

Definition deregister_bug_match (landscape_line : Line.t)
    (bug_part_match_position : nat) (self : t) : result t :=
  m ← deregister_loop (rev shape) (Line.id landscape_line)
         bug_part_match_position (bug_part_matches self);
  Ok (mk m (bug_count self)).

Definition should_skip_all_bug_parts_in_line (bug_part : Part.t)
    (landscape_line : Line.t) (self : t) : bool * t :=
  if decide (Line.id landscape_line - Part.id bug_part <= 0) then
    let '(b, self) := bug_part_match_exists bug_part landscape_line self in
    (negb b, self)
  else (false, self).

Definition should_skip_bug_part_in_line (bug_part : Part.t)
    (landscape_line : Line.t) (self : t) : bool * t :=
  if decide (Line.id landscape_line - 1 >= 0 ∧ Part.id bug_part - 1 >= 0) then
    let '(d, m) := get_line (bug_part_matches self) (Line.id landscape_line - 1) in
    (negb (bool_decide (is_Some (d !! (Part.id bug_part - 1)))),
     mk m (bug_count self))
  else (false, self).

(** The loop of [bug_part_match_belongs_to_a_bug] over
    [reversed(self.bug.shape[:-1])]; it returns at the first line where
    the position is missing. *)
Fixpoint belongs_loop (parts : list Part.t) (landscape_line_number : Z)
    (bug_part_match_position : nat) (m : table) : bool * table :=
  match parts with
  | [] => (true, m)
  | bug_part :: parts' =>
      let landscape_line_number := landscape_line_number - 1 in
      let '(l, m) := get_positions m landscape_line_number (Part.id bug_part) in
      if bool_decide (bug_part_match_position ∈ l)
      then belongs_loop parts' landscape_line_number bug_part_match_position m
      else (false, m)
  end.

Definition bug_part_match_belongs_to_a_bug (bug_part : Part.t)
    (landscape_line : Line.t) (bug_part_match_position : nat) (self : t)
  : result (bool * t) :=
  match last shape with
  | None => Raise IndexError
  | Some bottom =>
      if decide (Part.id bug_part = Part.id bottom) then
        let '(b, m) := belongs_loop (rev (removelast shape)) (Line.id landscape_line)
                         bug_part_match_position (bug_part_matches self) in
        Ok (b, mk m (bug_count self))
      else Ok (false, self)
  end.

Definition on_bug_part_match (bug_part : Part.t) (landscape_line : Line.t)
    (bug_part_match_position : nat) (self : t) : result t :=
  let self := register_bug_part_match bug_part landscape_line
                bug_part_match_position self in
  r ← bug_part_match_belongs_to_a_bug bug_part landscape_line
         bug_part_match_position self;
  let '(b, self) := r : bool * t in
  if b then
    deregister_bug_match landscape_line bug_part_match_position
      (increment_bug_count self)
  else Ok self.

Definition find_bug_part_and_bugs_in_landscape_line (bug_part : Part.t)
    (landscape_line : Line.t) (self : t) : result t :=
  cols ← Re.finditer (Part.pattern bug_part) (Line.pattern landscape_line);
  for_each cols (on_bug_part_match bug_part landscape_line) self.

(** The two pruning rules are parameters of the loops, so that the
    engine can also be run without them. *)
Section WithRules.

Variable skip_bug_part skip_all_bug_parts : Part.t -> Line.t -> t -> bool * t.

(** The [for bug_part in self.bug.shape] loop, with its [continue]
    and [break]. *)
Fixpoint parts_loop (parts : list Part.t) (landscape_line : Line.t)
    (self : t) : result t :=
  match parts with
  | [] => Ok self
  | bug_part :: parts' =>
      let '(skip, self) := skip_bug_part bug_part landscape_line self in
      if skip then parts_loop parts' landscape_line self
      else
        self ← find_bug_part_and_bugs_in_landscape_line bug_part landscape_line self;
        let '(stop, self) := skip_all_bug_parts bug_part landscape_line self in
        if stop then Ok self
        else parts_loop parts' landscape_line self
  end.

Definition lines_loop (lines : list Line.t) (self : t) : result t :=
  for_each lines (parts_loop shape) self.

End WithRules.

Definition never_skip (_ : Part.t) (_ : Line.t) (self : t) : bool * t :=
  (false, self).

(** [find_bugs_in_landscape], on the content of the landscape's file. *)
Definition find_bugs_in_landscape (file_handler : str) (self : t) : result t :=
  lines_loop should_skip_bug_part_in_line should_skip_all_bug_parts_in_line
    (reader file_handler) self.

(** The same pass with both pruning rules answering [False]. *)
Definition find_bugs_in_landscape_unpruned (file_handler : str) (self : t)
  : result t :=
  lines_loop never_skip never_skip (reader file_handler) self.

End WithBug.

End BugFinder.

(** [Bug(bug_file); BugFinder(bug, landscape).find_bugs_in_landscape();
    bug_count], on the contents of the two files. *)
Definition main (bug_file landscape_file : str) : result nat :=
  self ← BugFinder.find_bugs_in_landscape (_read_bug bug_file) landscape_file
           BugFinder.init;
  Ok (BugFinder.bug_count self).

Definition main_unpruned (bug_file landscape_file : str) : result nat :=
  self ← BugFinder.find_bugs_in_landscape_unpruned (_read_bug bug_file) landscape_file
           BugFinder.init;
  Ok (BugFinder.bug_count self).

Definition nl : string := String Py.LF EmptyString.

(** ** What a row compiles to

    The regular expression behind a formatted row, read off the row itself:
    the first character is the anchor, and the rest of the row becomes the
    body of the lookahead.  A run of spaces is a counted dot.  Any other
    whitespace character reaches [re.sub] behind the backslash [escape]
    gave it, so the run it starts is replaced after that backslash and the
    result is a counted literal dot. *)

Definition flush (pending : option (Re.atom * nat)) : list (Re.atom * nat) :=
  match pending with
  | None => []
  | Some item => [item]
  end.

Definition bump (pending : option (Re.atom * nat)) : Re.atom * nat :=
  match pending with
  | None => (Re.AnyChar, 1%nat)
  | Some (a, n) => (a, S n)
  end.

Fixpoint body_of (pending : option (Re.atom * nat)) (rest : str)
  : list (Re.atom * nat) :=
  match rest with
  | [] => flush pending
  | c :: rest' =>
      if Ascii.eqb c Py.SP then body_of (Some (bump pending)) rest'
      else if Py.isspace c then
        flush pending ++ body_of (Some (Re.Literal "."%char, 1%nat)) rest'
      else flush pending ++ (Re.Literal c, 1%nat) :: body_of None rest'
  end.

Definition regex_of_row (first : ascii) (rest : str) : Re.regex :=
  [Re.Item (Re.Literal first) 1; Re.AssertAhead (body_of None rest)].

(** How the state of the formatting relates to the item that is being
    built: [run] is the run of whitespace [re.sub] is reading, [prefix] the
    backslash already written in front of it. *)
Inductive pending_ok : option (Re.atom * nat) -> str -> str -> Prop :=
| pending_none : pending_ok None [] []
| pending_any run :
    run <> [] -> pending_ok (Some (Re.AnyChar, length run)) [] run
| pending_dot run :
    run <> [] -> pending_ok (Some (Re.Literal "."%char, length run)) ["\"%char] run.

(** What [re.sub] writes for the run it was reading when the run ends. *)
Definition flushed (run : str) : str :=
  match run with
  | [] => []
  | _ :: _ => _format_bug_replace_match_with_regex run
  end.

(** ** Reading the match table

    The positions registered for a key, a missing key standing for none;
    and the table a [defaultdict] read of a key leaves behind. *)

Definition cells (m : BugFinder.table) (line part : Z) : list nat :=
  default [] (BugFinder.positions m line part).

Definition probed (m : BugFinder.table) (line part : Z) : BugFinder.table :=
  (BugFinder.get_positions m line part).2.

(** The table after [matches[line][part] = lst], the key having been read. *)
Definition stored (m : BugFinder.table) (line part : Z) (lst : list nat)
  : BugFinder.table :=
  <[line := <[part := lst]> (default ∅ (probed m line part !! line))]>
    (probed m line part).

(** Every part of the shape holds the formatted pattern of a row that is
    not empty. *)
Definition compiled_shape (shape : list Part.t) : Prop :=
  forall part, part ∈ shape ->
    exists first rest, Part.pattern part = _format_pattern (first :: rest).

(** The state [self'] holds the same table and count as [self]. *)
Definition same_positions (self self' : BugFinder.t) : Prop :=
  BugFinder.bug_count self' = BugFinder.bug_count self
  /\ forall l r,
       BugFinder.positions (BugFinder.bug_part_matches self') l r
       = BugFinder.positions (BugFinder.bug_part_matches self) l r.

(** No occurrence was counted, and positions are registered only for the
    lines in [seen]. *)
Definition quiet (seen : list Z) (self : BugFinder.t) : Prop :=
  BugFinder.bug_count self = 0%nat
  /\ forall l r, cells (BugFinder.bug_part_matches self) l r <> [] -> l ∈ seen.

(** Every key of [self0] is still a key of [self]. *)
Definition keeps_keys (self0 self : BugFinder.t) : Prop :=
  forall l r,
    is_Some (BugFinder.positions (BugFinder.bug_part_matches self0) l r) ->
    is_Some (BugFinder.positions (BugFinder.bug_part_matches self) l r).

(** ** The trace of a pass

    What a pass does to the table and to the count is a sequence of calls
    of [on_bug_part_match], one for every match [re.finditer] reports for a
    part that is tried in a line; between them the pruning rules read the
    table, which creates keys but changes no list.  An event records the
    line, the part and the column of a call, and whether it counted a
    bug. *)

Record event : Type :=
  Event { ev_line : Z; ev_part : Z; ev_col : nat; ev_counted : bool }.

(** The order of the calls: by line, then by part, then by column. *)
Definition ev_lt (e1 e2 : event) : Prop :=
  ev_line e1 < ev_line e2
  \/ (ev_line e1 = ev_line e2
      /\ (ev_part e1 < ev_part e2
          \/ (ev_part e1 = ev_part e2 /\ (ev_col e1 < ev_col e2)%nat))).

Definition counted (self self' : BugFinder.t) : bool :=
  negb (BugFinder.bug_count self' =? BugFinder.bug_count self)%nat.

Inductive runs (shape : list Part.t)
  : BugFinder.t -> list event -> BugFinder.t -> Prop :=
| runs_done s : runs shape s [] s
| runs_probe s s' evs s'' :
    same_positions s s' -> runs shape s' evs s'' -> runs shape s evs s''
| runs_match s part line c s' evs s'' :
    part ∈ shape ->
    BugFinder.on_bug_part_match shape part line c s = Ok s' ->
    runs shape s' evs s'' ->
    runs shape s
      (Event (Line.id line) (Part.id part) c (counted s s') :: evs) s''.

(** The occurrences a trace counted: bottom line and column. *)
Definition occurrence_of (e : event) : option (Z * nat) :=
  if ev_counted e then Some (ev_line e, ev_col e) else None.

Definition occurrences (evs : list event) : list (Z * nat) :=
  omap occurrence_of evs.


(** What holds of the table after the calls [pre]: every position in it was
    registered by one of them; no list holds a position twice; the cells of
    the occurrences counted so far are not in it; and the count is the
    number of these occurrences. *)
Record retired (shape : list Part.t) (pre : list event) (s : BugFinder.t)
  : Prop := Retired {
  ret_registered : forall l r c,
    c ∈ cells (BugFinder.bug_part_matches s) l r -> exists b, Event l r c b ∈ pre;
  ret_nodup : forall l r, NoDup (cells (BugFinder.bug_part_matches s) l r);
  ret_bottom : forall e, e ∈ pre -> ev_counted e = true ->
    exists bottom, last shape = Some bottom /\ ev_part e = Part.id bottom;
  ret_absent : forall e, e ∈ pre -> ev_counted e = true ->
    forall (k : nat) p, rev shape !! k = Some p ->
      ev_col e ∉ cells (BugFinder.bug_part_matches s)
                   (ev_line e - Z.of_nat k) (Part.id p);
  ret_count : BugFinder.bug_count s = length (occurrences pre)
}.

(** One more fact about the table after the calls [pre]: the position of a
    call is still in the table unless an occurrence counted since then
    retired it; and which calls counted an occurrence: those for the bottom
    part whose column was registered, by earlier calls, for each row above
    at its line. *)
Record counted_iff (shape : list Part.t) (pre : list event) (s : BugFinder.t)
  : Prop := CountedIff {
  ci_retired : retired shape pre s;
  ci_present : forall e, e ∈ pre ->
    ev_col e ∈ cells (BugFinder.bug_part_matches s) (ev_line e) (ev_part e)
    \/ exists e' (k : nat) p,
         e' ∈ pre /\ ev_counted e' = true /\ rev shape !! k = Some p
         /\ ev_line e = ev_line e' - Z.of_nat k /\ ev_part e = Part.id p
         /\ ev_col e = ev_col e';
  ci_flag : forall e, e ∈ pre ->
    (ev_counted e = true
     <-> (exists bottom, last shape = Some bottom /\ ev_part e = Part.id bottom)
         /\ forall (k : nat) p, rev (removelast shape) !! k = Some p ->
              exists b, Event (ev_line e - 1 - Z.of_nat k) (Part.id p) (ev_col e) b ∈ pre)
}.

(** ** Occurrences of the bug in the landscape

    The columns where a part matches a line; a row of the shape matching
    at a line number and a column; the rows [0..j] matching in the [j + 1]
    lines that end at line [l], at one column; and an occurrence of the
    whole shape with its bottom row at line [L]. *)

Definition match_cols (part : Part.t) (line : Line.t) : list nat :=
  match Re.finditer (Part.pattern part) (Line.pattern line) with
  | Ok cols => cols
  | Raise _ => []
  end.

Definition row_matches (shape : list Part.t) (lines : list Line.t)
    (l : Z) (j : nat) (c : nat) : Prop :=
  exists line p,
    line ∈ lines /\ Line.id line = l /\ shape !! j = Some p /\ c ∈ match_cols p line.

Definition chain (shape : list Part.t) (lines : list Line.t)
    (l : Z) (j : nat) (c : nat) : Prop :=
  forall i : nat, (i <= j)%nat -> row_matches shape lines (l - Z.of_nat (j - i)) i c.

Definition occurrence_at (shape : list Part.t) (lines : list Line.t)
    (L : Z) (c : nat) : Prop :=
  shape <> [] /\ chain shape lines L (length shape - 1) c.

(** The trace holds a call for row [j] at line [l] and column [c]. *)
Definition tried (pre : list event) (l : Z) (j : nat) (c : nat) : Prop :=
  exists b, Event l (Z.of_nat j) c b ∈ pre.

(** The key of every call of the trace is in the table. *)
Definition keys_of (pre : list event) (s : BugFinder.t) : Prop :=
  forall e, e ∈ pre ->
    is_Some (BugFinder.positions (BugFinder.bug_part_matches s) (ev_line e) (ev_part e)).

(** The body of the lookahead of a row without whitespace. *)
Definition literals (s : str) : list (Re.atom * nat) :=
  map (fun x => (Re.Literal x, 1%nat)) s.

(** The call of an event was made for a match of a row of the shape in a
    line of the landscape. *)
Definition sound_event (shape : list Part.t) (lines : list Line.t) (e : event)
  : Prop :=
  exists j : nat,
    ev_part e = Z.of_nat j /\ row_matches shape lines (ev_line e) j (ev_col e).

(** ** Rows and occurrences, character by character

    A row of the bug lies at a column of a line when the line is long
    enough to hold it there and shows each character of the row at its
    place; a space of the row, unless it is the first character, stands
    for any character.  The bug lies at a line and a column of the
    landscape when each of its rows lies at that column, one line after
    the other. *)

Definition row_at (row target : str) (col : nat) : Prop :=
  (col + length row <= length target)%nat
  /\ forall (i : nat) x, row !! i = Some x -> i = 0%nat \/ x <> Py.SP ->
       target !! (col + i)%nat = Some x.

Definition bug_at (rows lines : list str) (top col : nat) : Prop :=
  forall (i : nat) row, rows !! i = Some row ->
    exists raw, lines !! (top + i)%nat = Some raw /\ row_at row (Py.rstrip raw) col.

(** The regular expression that compares a string character by
    character. *)
Definition literal_regex (s : str) : Re.regex :=
  map (fun c => Re.Item (Re.Literal c) 1) s.

(** ** The files of the data folder and the script *)

Definition DATA_FOLDER_PATH : str := py "data".

(** [s.endswith(suffix)] *)
Definition endswith (s suffix : str) : bool :=
  bool_decide (drop (length s - length suffix) s = suffix).

(** What a path names: a file [open] can read, with its content, or
    something [open] refuses (a directory, a file the process may not
    read). *)
Inductive entry : Type :=
| Regular (content : str)
| Unreadable.

(** The file system as [os.path.exists] and [open] see it. *)
Definition filesystem : Type := str -> option entry.

(** What ends a run of the script before its last line: an exception of
    the classes above, or the [IOError] of [open]. *)
Inductive failure : Type :=
| Exn (e : exn)
| IOError.

Inductive outcome (A : Type) : Type :=
| Returns (a : A)
| Fails (e : failure).
Arguments Returns {A} a.
Arguments Fails {A} e.

#[global] Instance outcome_bind : MBind outcome := fun A B k r =>
  match r with
  | Returns a => k a
  | Fails e => Fails e
  end.

Definition lift {A} (r : result A) : outcome A :=
  match r with
  | Ok a => Returns a
  | Raise e => Fails (Exn e)
  end.

(** [open(path, 'r')], read through to the end. *)
Definition open (fs : filesystem) (path : str) : outcome str :=
  match fs path with
  | Some (Regular content) => Returns content
  | Some Unreadable => Fails IOError
  | None => Fails IOError
  end.

Module File.

Record t : Type := mk { filename : str }.

(** [File(filename)] for a [filename] that is a [str]: the setter checks
    the extension. *)
Definition init (value : str) : result t :=
  if endswith value (py ".txt") then Ok (mk value) else Raise TypeError.

(** The property [file_path]. *)
Definition file_path (fs : filesystem) (self : t) : result str :=
  let file_path := DATA_FOLDER_PATH ++ py "/" ++ filename self in
  match fs file_path with
  | None => Raise ValueError
  | Some _ => Ok file_path
  end.

End File.

Module Bug.

Record t : Type := mk { file : File.t; shape : list Part.t }.

(** [Bug(filename)]: the checks of [File], then [_read_bug] on the file. *)
Definition init (fs : filesystem) (filename : str) : outcome t :=
  file ← lift (File.init filename);
  path ← lift (File.file_path fs file);
  file_handler ← open fs path;
  Returns (mk file (_read_bug file_handler)).

End Bug.

Module Landscape.

(** [Landscape(filename)]: nothing but the checks of [File]. *)
Definition init (filename : str) : result File.t := File.init filename.

End Landscape.

(** The [BugFinder] object: the bug, the landscape, and the table and the
    count of the engine. *)
Module Finder.

Record t : Type := mk { bug : Bug.t; landscape : File.t; state : BugFinder.t }.

(** [BugFinder(bug, landscape)] *)
Definition init (bug : Bug.t) (landscape : File.t) : t :=
  mk bug landscape BugFinder.init.

(** The method [find_bugs_in_landscape]: the landscape's path is asked
    for, the file opened, and the pass run on its lines. *)
Definition find_bugs_in_landscape (fs : filesystem) (self : t) : outcome t :=
  path ← lift (File.file_path fs (landscape self));
  file_handler ← open fs path;
  state ← lift (BugFinder.find_bugs_in_landscape (Bug.shape (bug self))
                  file_handler (state self));
  Returns (mk (bug self) (landscape self) state).

End Finder.

(** What the script writes on its standard output: the usage message of
    the argument parser, or a line of text. *)
Inductive printed : Type :=
| Usage
| Text (line : str).

(** ['Bug count in the landscape: {count}'.format(count=...)] *)
Definition report (count : nat) : str :=
  py "Bug count in the landscape: " ++ Py.str_of_nat count.

(** The script, after the arguments were parsed: [args_bug] and
    [args_landscape] are [args.bug] and [args.landscape], [None] when the
    option was not given. *)
Definition script (fs : filesystem) (args_bug args_landscape : option str)
  : list printed * outcome unit :=
  match args_bug with
  | None | Some [] => ([Usage], Fails (Exn ValueError))
  | Some bug_name =>
      match args_landscape with
      | None | Some [] => ([Usage], Fails (Exn ValueError))
      | Some landscape_name =>
          match (bug_default ← Bug.init fs bug_name;
                 landscape_default ← lift (Landscape.init landscape_name);
                 Finder.find_bugs_in_landscape fs
                   (Finder.init bug_default landscape_default)) with
          | Returns bug_finder =>
              ([Text (report (BugFinder.bug_count (Finder.state bug_finder)))],
               Returns tt)
          | Fails e => ([], Fails e)
          end
      end
  end.

(** * Properties *)

(** ** Characters *)

Ltac ascii_cases c := destruct c as [[|] [|] [|] [|] [|] [|] [|] [|]].

Lemma alnum_facts c :
  Py.char_in c ALPHANUM = true ->
  Py.isspace c = false /\ Ascii.eqb c "\"%char = false /\
  Ascii.eqb c "."%char = false /\ Py.char_in c Re.SPECIAL = false /\
  Ascii.eqb c ")"%char = false /\ Ascii.eqb c "{"%char = false /\
  Ascii.eqb c Py.NUL = false.
Proof. ascii_cases c; vm_compute; intros; try discriminate; repeat split. Qed.

Lemma char_in_app c s1 s2 :
  Py.char_in c (s1 ++ s2) = Py.char_in c s1 || Py.char_in c s2.
Proof. apply existsb_app. Qed.

Lemma escape_cons c rest except_chars :
  escape (c :: rest) except_chars
  = escape_char (ALPHANUM ++ except_chars) c ++ escape rest except_chars.
Proof. reflexivity. Qed.

(** ** Decimal numbers: what [format] prints, the parser reads back *)

Lemma digit_of_close_brace : Re.digit_of "}"%char = None.
Proof. reflexivity. Qed.

Lemma read_uint_digits u rest :
  Re.read_uint (Py.digits_of_uint u ++ "}"%char :: rest) = (u, "}"%char :: rest).
Proof.
  induction u; simpl; [reflexivity | ..]; rewrite IHu; reflexivity.
Qed.

Lemma to_uint_not_nil n : Nat.to_uint n <> Decimal.Nil.
Proof.
  pose proof (Unsigned.to_of (Nat.to_uint n)) as H.
  rewrite Unsigned.of_to in H. rewrite H.
  unfold Decimal.unorm. destruct (Decimal.nzhead (Nat.to_uint n)); discriminate.
Qed.

Lemma parse_repeat_count n rest :
  Re.parse_repeat (py "{" ++ Py.str_of_nat n ++ py "}" ++ rest) = Some (n, rest).
Proof.
  unfold Py.str_of_nat. cbn [py list_ascii_of_string app Re.parse_repeat].
  rewrite Ascii.eqb_refl, read_uint_digits.
  rewrite <- (Unsigned.of_to n) at 2.
  pose proof (to_uint_not_nil n) as Hn.
  destruct (Nat.to_uint n); [congruence | reflexivity ..].
Qed.

Lemma parse_repeat_none c rest :
  Ascii.eqb c "{"%char = false -> Re.parse_repeat (c :: rest) = Some (1%nat, c :: rest).
Proof. intros H. simpl. rewrite H. reflexivity. Qed.

(** ** Parsing a formatted row *)

Section Parsing.

Let repl := _format_bug_replace_match_with_regex.

Lemma sub_nonspace x run E :
  Py.isspace x = false ->
  Re.sub_spaces_from repl run (x :: E)
  = flushed run ++ x :: Re.sub_spaces_from repl [] E.
Proof. intros Hx. simpl. rewrite Hx. destruct run; reflexivity. Qed.

Lemma sub_space x run E :
  Py.isspace x = true ->
  Re.sub_spaces_from repl run (x :: E) = Re.sub_spaces_from repl (run ++ [x]) E.
Proof. intros Hx. simpl. rewrite Hx. reflexivity. Qed.

Lemma flushed_head run T :
  exists x T', flushed run ++ ")"%char :: T = x :: T' /\ Ascii.eqb x "{"%char = false.
Proof. destruct run; simpl; eauto. Qed.

(** What follows an item in the body is never an opening brace. *)
Lemma sub_head rest : forall run,
  exists x T,
    Re.sub_spaces_from repl run (escape rest [Py.SP]) ++ [")"%char] = x :: T
    /\ Ascii.eqb x "{"%char = false.
Proof.
  induction rest as [|c rest IH]; intros run.
  - destruct run; simpl; eauto.
  - rewrite escape_cons. unfold escape_char. rewrite char_in_app.
    destruct (Py.char_in c ALPHANUM) eqn:Hal.
    + destruct (alnum_facts c Hal) as (Hsp & _ & _ & _ & _ & Hbr & _).
      cbn [orb app]. rewrite sub_nonspace by exact Hsp.
      destruct run; simpl; eauto.
    + cbn [orb Py.char_in existsb]. rewrite orb_false_r.
      destruct (Ascii.eqb_spec c Py.SP) as [->|Hne].
      * cbn [app]. rewrite sub_space by reflexivity. apply IH.
      * destruct (Ascii.eqb c Py.NUL); cbn [py list_ascii_of_string app];
          rewrite sub_nonspace by reflexivity; destruct run; simpl; eauto.
Qed.

Lemma parse_items_step fuel c p :
  Ascii.eqb c ")"%char = false ->
  Re.parse_items (S fuel) (c :: p)
  = '(a, p1) ← Re.parse_atom (c :: p);
    '(n, p2) ← Re.parse_repeat p1;
    '(items, p3) ← Re.parse_items fuel p2;
    Some ((a, n) :: items, p3).
Proof. intros H. cbn [Re.parse_items]. rewrite H. reflexivity. Qed.

Lemma repl_app run T :
  repl run ++ T
  = "."%char :: (py "{" ++ Py.str_of_nat (length run) ++ py "}" ++ T).
Proof.
  unfold repl, _format_bug_replace_match_with_regex.
  cbn [py list_ascii_of_string app]. rewrite <- app_assoc. reflexivity.
Qed.

Lemma parse_atom_dot p : Re.parse_atom ("."%char :: p) = Some (Re.AnyChar, p).
Proof. reflexivity. Qed.

Lemma parse_atom_escaped_dot p :
  Re.parse_atom ("\"%char :: "."%char :: p) = Some (Re.Literal "."%char, p).
Proof. reflexivity. Qed.

Lemma parse_flush a n prefix run fuel T :
  pending_ok (Some (a, n)) prefix run ->
  Re.parse_items (S fuel) (prefix ++ flushed run ++ T)
  = '(items, r) ← Re.parse_items fuel T; Some ((a, n) :: items, r).
Proof.
  intros H. inversion H as [|run' Hrun|run' Hrun]; subst;
    (destruct run as [|x run']; [congruence|]);
    change (flushed (x :: run')) with (repl (x :: run'));
    rewrite repl_app; cbn [app];
    rewrite parse_items_step by reflexivity.
  - rewrite parse_atom_dot. cbn [mbind option_bind].
    rewrite parse_repeat_count. reflexivity.
  - rewrite parse_atom_escaped_dot. cbn [mbind option_bind].
    rewrite parse_repeat_count. reflexivity.
Qed.

Lemma parse_atom_alnum c p :
  Py.char_in c ALPHANUM = true -> Re.parse_atom (c :: p) = Some (Re.Literal c, p).
Proof.
  intros H. destruct (alnum_facts c H) as (_ & Hbs & Hdot & Hsp & _).
  cbn [Re.parse_atom]. rewrite Hbs, Hdot, Hsp. reflexivity.
Qed.

Lemma not_alnum_facts c :
  Py.char_in c ALPHANUM = false -> Ascii.eqb c "0"%char = false.
Proof. ascii_cases c; vm_compute; intros; try discriminate; reflexivity. Qed.

Lemma parse_atom_escaped c p :
  Py.char_in c ALPHANUM = false ->
  Re.parse_atom ("\"%char :: c :: p) = Some (Re.Literal c, p).
Proof.
  intros H. cbn [Re.parse_atom]. rewrite Ascii.eqb_refl.
  rewrite (not_alnum_facts c H), H. reflexivity.
Qed.

Lemma parse_atom_nul p :
  Re.parse_atom (py "\000" ++ p) = Some (Re.Literal Py.NUL, p).
Proof. reflexivity. Qed.

Lemma parse_items_mono f : forall p x,
  Re.parse_items f p = Some x -> Re.parse_items (S f) p = Some x.
Proof.
  induction f as [|f IH]; intros p x H; [discriminate|].
  destruct p as [|c p]; [exact H|].
  destruct (Ascii.eqb c ")"%char) eqn:Hc.
  - cbn [Re.parse_items] in *. rewrite Hc in *. exact H.
  - rewrite parse_items_step in H by exact Hc.
    rewrite parse_items_step by exact Hc.
    destruct (Re.parse_atom (c :: p)) as [[a p1]|]; [|discriminate].
    cbn [mbind option_bind] in *.
    destruct (Re.parse_repeat p1) as [[n p2]|]; [|discriminate].
    cbn [mbind option_bind] in *.
    destruct (Re.parse_items f p2) as [[items p3]|] eqn:E; [|discriminate].
    rewrite (IH _ _ E). exact H.
Qed.

Lemma parse_cons_item f c p a p1 items r :
  Ascii.eqb c ")"%char = false ->
  Re.parse_atom (c :: p) = Some (a, p1) ->
  Re.parse_repeat p1 = Some (1%nat, p1) ->
  Re.parse_items f p1 = Some (items, r) ->
  Re.parse_items (S f) (c :: p) = Some ((a, 1%nat) :: items, r).
Proof.
  intros Hc Ha Hr Hi. rewrite parse_items_step by exact Hc.
  rewrite Ha. cbn [mbind option_bind]. rewrite Hr. cbn [mbind option_bind].
  rewrite Hi. reflexivity.
Qed.

Lemma parse_pending pending prefix run f T items r :
  pending_ok pending prefix run ->
  Re.parse_items f T = Some (items, r) ->
  Re.parse_items (S f) (prefix ++ flushed run ++ T) = Some (flush pending ++ items, r).
Proof.
  intros Hok Hi. destruct pending as [[a n]|].
  - rewrite (parse_flush a n) by exact Hok. rewrite Hi. reflexivity.
  - inversion Hok; subst. apply parse_items_mono. exact Hi.
Qed.

Lemma parse_repeat_after rest :
  Re.parse_repeat (Re.sub_spaces_from repl [] (escape rest [Py.SP]) ++ [")"%char])
  = Some (1%nat, Re.sub_spaces_from repl [] (escape rest [Py.SP]) ++ [")"%char]).
Proof.
  destruct (sub_head rest []) as (x & T & -> & Hx).
  apply parse_repeat_none. exact Hx.
Qed.

Lemma pending_ok_bump pending prefix run :
  pending_ok pending prefix run ->
  pending_ok (Some (bump pending)) prefix (run ++ [Py.SP]).
Proof.
  intros H.
  assert (Hlen : length (run ++ [Py.SP]) = S (length run))
    by (rewrite length_app; simpl; lia).
  assert (Hne : run ++ [Py.SP] <> []) by (destruct run; discriminate).
  inversion H; subst; cbn [bump].
  - exact (pending_any [Py.SP] ltac:(discriminate)).
  - rewrite <- Hlen. constructor. exact Hne.
  - rewrite <- Hlen. constructor. exact Hne.
Qed.

(** The body of the lookahead of a formatted row parses, with enough
    fuel, to the items [body_of] describes. *)
Lemma parse_body rest : forall pending prefix run,
  pending_ok pending prefix run ->
  exists fuel,
    Re.parse_items fuel
      (prefix ++ Re.sub_spaces_from repl run (escape rest [Py.SP]) ++ [")"%char])
    = Some (body_of pending rest, [")"%char]).
Proof.
  induction rest as [|c rest IH]; intros pending prefix run Hok.
  - exists 2%nat. change (escape [] [Py.SP]) with (@nil ascii).
    replace (Re.sub_spaces_from repl run []) with (flushed run)
      by (destruct run; reflexivity).
    replace (body_of pending []) with (flush pending ++ [])
      by apply app_nil_r.
    apply parse_pending; [exact Hok | reflexivity].
  - rewrite escape_cons. unfold escape_char. rewrite char_in_app.
    destruct (Py.char_in c ALPHANUM) eqn:Hal.
    + destruct (alnum_facts c Hal) as (Hsp & _ & _ & _ & Hcl & _ & _).
      destruct (IH None [] [] pending_none) as [f Hf].
      exists (S (S f)). cbn [orb app]. rewrite sub_nonspace by exact Hsp.
      cbn [body_of]. replace (Ascii.eqb c Py.SP) with false
        by (ascii_cases c; vm_compute in Hsp |- *; congruence).
      rewrite Hsp. rewrite <- !app_assoc. cbn [app].
      apply parse_pending; [exact Hok|].
      eapply parse_cons_item; [exact Hcl | apply parse_atom_alnum, Hal
                              | apply parse_repeat_after | exact Hf].
    + cbn [orb Py.char_in existsb]. rewrite orb_false_r.
      cbn [body_of].
      destruct (Ascii.eqb_spec c Py.SP) as [->|Hne].
      * cbn [app]. rewrite sub_space by reflexivity.
        apply IH, pending_ok_bump, Hok.
      * destruct (Ascii.eqb_spec c Py.NUL) as [->|Hnul].
        -- destruct (IH None [] [] pending_none) as [f Hf].
           exists (S (S f)). cbn [py list_ascii_of_string app].
           rewrite sub_nonspace by reflexivity.
           do 3 (rewrite (sub_nonspace "0"%char []) by reflexivity; cbn [flushed app]).
           change (Py.isspace Py.NUL) with false. cbv iota.
           rewrite <- !app_assoc. cbn [app].
           apply parse_pending; [exact Hok|].
           eapply parse_cons_item; [reflexivity | apply parse_atom_nul
                                   | apply parse_repeat_after | exact Hf].
        -- cbn [app]. rewrite sub_nonspace by reflexivity.
           destruct (Py.isspace c) eqn:Hsp.
           ++ rewrite sub_space by exact Hsp.
              destruct (IH (Some (Re.Literal "."%char, 1%nat)) ["\"%char] [c]
                          (pending_dot [c] ltac:(discriminate))) as [f Hf].
              exists (S f). rewrite <- !app_assoc. cbn [app].
              apply parse_pending; [exact Hok | exact Hf].
           ++ rewrite sub_nonspace by exact Hsp. cbn [flushed app].
              destruct (IH None [] [] pending_none) as [f Hf].
              exists (S (S f)). rewrite <- !app_assoc. cbn [app].
              apply parse_pending; [exact Hok|].
              eapply parse_cons_item; [reflexivity | apply parse_atom_escaped, Hal
                                      | apply parse_repeat_after | exact Hf].
Qed.

End Parsing.

(** *** Fuel: the length of the pattern is enough *)

Lemma octal_tail_shorter p v p' :
  Re.octal_tail p = (v, p') -> (length p' <= length p)%nat.
Proof.
  unfold Re.octal_tail. intros H.
  destruct p as [|c1 p1]; [injection H as _ <-; lia|].
  destruct (Re.octal_digit c1); [|injection H as _ <-; lia].
  destruct p1 as [|c2 p2]; [injection H as _ <-; simpl; lia|].
  destruct (Re.octal_digit c2); injection H as _ <-; simpl; lia.
Qed.

Lemma parse_atom_shorter p a p1 :
  Re.parse_atom p = Some (a, p1) -> (length p1 < length p)%nat.
Proof.
  unfold Re.parse_atom. intros H.
  destruct p as [|c p]; [discriminate|].
  destruct (Ascii.eqb c "\"%char).
  - destruct p as [|e p2]; [discriminate|].
    destruct (Ascii.eqb e "0"%char).
    + destruct (Re.octal_tail p2) as [v p3] eqn:E.
      apply octal_tail_shorter in E. injection H as _ <-. simpl. lia.
    + destruct (Py.char_in e ALPHANUM); [discriminate|].
      injection H as _ <-. simpl. lia.
  - destruct (Ascii.eqb c "."%char); [injection H as _ <-; simpl; lia|].
    destruct (Py.char_in c Re.SPECIAL); [discriminate|].
    injection H as _ <-. simpl. lia.
Qed.

Lemma read_uint_shorter p : forall u rest,
  Re.read_uint p = (u, rest) -> (length rest <= length p)%nat.
Proof.
  induction p as [|c p IH]; intros u rest H; simpl in H.
  - injection H as _ <-. lia.
  - destruct (Re.digit_of c).
    + destruct (Re.read_uint p) as [u' rest'] eqn:E.
      injection H as _ <-. specialize (IH _ _ eq_refl). simpl. lia.
    + injection H as _ <-. lia.
Qed.

Lemma parse_repeat_shorter p n p2 :
  Re.parse_repeat p = Some (n, p2) -> (length p2 <= length p)%nat.
Proof.
  unfold Re.parse_repeat. intros H.
  destruct p as [|c p1]; [injection H as _ <-; lia|].
  destruct (Ascii.eqb c "{"%char); [|injection H as _ <-; lia].
  destruct (Re.read_uint p1) as [u rest] eqn:E.
  apply read_uint_shorter in E.
  destruct u; [discriminate|..];
    (destruct rest as [|c' p2']; [discriminate|]);
    (destruct (Ascii.eqb c' "}"%char); [|discriminate]);
    injection H as _ <-; simpl in *; lia.
Qed.

Lemma parse_items_fuel f : forall p x,
  Re.parse_items f p = Some x ->
  forall f', (length p < f')%nat -> Re.parse_items f' p = Some x.
Proof.
  induction f as [|f IH]; intros p x H f' Hf'; [discriminate|].
  destruct f' as [|f']; [lia|].
  destruct p as [|c p]; [exact H|].
  destruct (Ascii.eqb c ")"%char) eqn:Hc.
  - cbn [Re.parse_items] in *. rewrite Hc in *. exact H.
  - rewrite parse_items_step in H by exact Hc.
    rewrite parse_items_step by exact Hc.
    destruct (Re.parse_atom (c :: p)) as [[a p1]|] eqn:Ea; [|discriminate].
    cbn [mbind option_bind] in *.
    destruct (Re.parse_repeat p1) as [[n p2]|] eqn:Er; [|discriminate].
    cbn [mbind option_bind] in *.
    destruct (Re.parse_items f p2) as [[items p3]|] eqn:E; [|discriminate].
    apply parse_atom_shorter in Ea. apply parse_repeat_shorter in Er.
    rewrite (IH _ _ E f') by lia. exact H.
Qed.

(** ** Every row compiles *)

Lemma parse_first first T :
  exists x X,
    escape [first] [] ++ py "(?=" ++ T = x :: X
    /\ Ascii.eqb x ")"%char = false
    /\ Re.starts_with (py "(?=") (x :: X) = false
    /\ Re.parse_atom (x :: X) = Some (Re.Literal first, py "(?=" ++ T).
Proof.
  unfold escape. cbn [map concat]. unfold escape_char.
  rewrite char_in_app, orb_false_r, app_nil_r.
  destruct (Py.char_in first ALPHANUM) eqn:Hal.
  - destruct (alnum_facts first Hal) as (_ & _ & _ & Hsp & Hcl & _).
    eexists _, _. split; [reflexivity|]. split; [exact Hcl|]. split.
    + unfold Re.starts_with. apply bool_decide_eq_false. cbn. congruence.
    + apply parse_atom_alnum, Hal.
  - destruct (Ascii.eqb_spec first Py.NUL) as [->|Hnul].
    + eexists _, _. repeat split; reflexivity.
    + eexists _, _. split; [reflexivity|]. split; [reflexivity|]. split.
      * reflexivity.
      * apply parse_atom_escaped, Hal.
Qed.

Lemma starts_with_lookahead X :
  Re.starts_with (py "(?=") ("("%char :: "?"%char :: "="%char :: X) = true.
Proof. unfold Re.starts_with. apply bool_decide_eq_true. reflexivity. Qed.

(** Formatting a row and compiling the result gives the regular
    expression [regex_of_row] reads off the row. *)
Theorem compile_format first rest :
  exists p, _format_pattern (first :: rest) = Some p
            /\ Re.compile p = Some (regex_of_row first rest).
Proof.
  eexists. split; [reflexivity|].
  unfold Re.compile, Re.sub_spaces.
  set (S := Re.sub_spaces_from _format_bug_replace_match_with_regex []
              (escape rest [Py.SP])).
  destruct (parse_first first (S ++ py ")")) as (x & X & E & Hcl & Hst & Hat).
  rewrite E. cbn [length Re.parse_nodes]. rewrite Hst, Hat.
  cbn [mbind option_bind]. change (py "(?=" ++ S ++ py ")")
    with ("("%char :: "?"%char :: "="%char :: S ++ [")"%char]).
  rewrite parse_repeat_none by reflexivity. cbn [mbind option_bind].
  assert (HX : exists f, length X = Datatypes.S (Datatypes.S f)).
  { assert (Hlen : (3 <= length X)%nat).
    { apply (f_equal (@length ascii)) in E. rewrite !length_app in E.
      simpl in E. unfold escape, escape_char in E. simpl in E.
      destruct (Py.char_in first (ALPHANUM ++ [])); [simpl in E; lia|].
      destruct (Ascii.eqb first Py.NUL); simpl in E; lia. }
    destruct (length X) as [|[|f]]; [lia | lia | eauto]. }
  destruct HX as [f ->]. cbn [Re.parse_nodes].
  rewrite starts_with_lookahead. cbn [drop].
  destruct (parse_body rest None [] [] pending_none) as [f0 Hf0].
  cbn [app] in Hf0. fold S in Hf0.
  rewrite (parse_items_fuel _ _ _ Hf0) by (simpl; lia).
  reflexivity.
Qed.

(** The expectations of [test_main.py] on [escape] and [_format_pattern]. *)
Example test_escape :
  escape (py "north korea") [] = py "north\ korea"
  /\ escape (py "north korea") [Py.SP] = py "north korea".
Proof. split; reflexivity. Qed.

Example test__format_bug :
  _format_pattern (py "data") = Some (py "d(?=ata)")
  /\ _format_pattern (py "da ta") = Some (py "d(?=a.{1}ta)")
  /\ _format_pattern (py "da  ta") = Some (py "d(?=a.{2}ta)")
  /\ _format_pattern (py "da t a") = Some (py "d(?=a.{1}t.{1}a)")
  /\ _format_pattern (py "da.t.a") = Some (py "d(?=a\.t\.a)")
  /\ _format_pattern (py "| |") = Some (py "\|(?=.{1}\|)")
  /\ _format_pattern (py "###O") = Some (py "\#(?=\#\#O)").
Proof. repeat split; reflexivity. Qed.

(** ** Matching a compiled row *)

Lemma match_nodes_row first rest c s :
  Re.match_nodes (regex_of_row first rest) (c :: s)
  = if Ascii.eqb c first
    then match Re.match_items (body_of None rest) s with
         | Some _ => Some s
         | None => None
         end
    else None.
Proof.
  unfold regex_of_row. cbn. destruct (Ascii.eqb c first); [|reflexivity].
  cbn. destruct (Re.match_items (body_of None rest) s); reflexivity.
Qed.

Lemma match_nodes_row_nil first rest :
  Re.match_nodes (regex_of_row first rest) [] = None.
Proof. reflexivity. Qed.

(** A match of a compiled row consumes its anchor and nothing else. *)
Lemma match_nodes_row_one first rest s s' :
  Re.match_nodes (regex_of_row first rest) s = Some s' ->
  length s = S (length s').
Proof.
  destruct s as [|c s]; [discriminate|].
  rewrite match_nodes_row.
  destruct (Ascii.eqb c first); [|discriminate].
  destruct (Re.match_items (body_of None rest) s); [|discriminate].
  intros [= <-]. reflexivity.
Qed.

(** ** [finditer] on a compiled row: every column is tried *)

Section Scan.

Variable r : Re.regex.
Hypothesis one : forall s s', Re.match_nodes r s = Some s' -> length s = S (length s').

Lemma scan_spec s : forall col,
  StronglySorted lt (Re.scan r s col 0)
  /\ forall c, c ∈ Re.scan r s col 0
               <-> (col <= c)%nat /\ Re.matches_at r s (c - col) = true.
Proof.
  unfold Re.matches_at.
  induction s as [|x s IH]; intros col.
  - cbn [Re.scan]. destruct (Re.match_nodes r []) as [s'|] eqn:E.
    { apply one in E. discriminate. }
    split; [constructor|]. intros c. split; [intros H; inversion H|].
    intros [_ H]. apply andb_true_iff in H as [H _].
    apply bool_decide_eq_true in H. simpl in H. lia.
  - destruct (IH (S col)) as [IHs IHm].
    assert (Hlow : Forall (lt col) (Re.scan r s (S col) 0)).
    { apply Forall_forall. intros c Hc. apply IHm in Hc. lia. }
    assert (Hshift : forall c, (S col <= c)%nat ->
              (bool_decide (c - S col < length s)%nat
               && bool_decide (is_Some (Re.match_nodes r (drop (c - S col) s))) = true)
              <-> (bool_decide (c - col < length (x :: s))%nat
                   && bool_decide (is_Some (Re.match_nodes r (drop (c - col) (x :: s)))) = true)).
    { intros c Hc. replace (c - col)%nat with (S (c - S col)) by lia.
      cbn [drop length]. rewrite !andb_true_iff, !bool_decide_eq_true. intuition lia. }
    cbn [Re.scan]. destruct (Re.match_nodes r (x :: s)) as [s'|] eqn:E.
    + pose proof (one _ _ E) as Hlen.
      replace (length (x :: s) - length s' - 1)%nat with 0%nat by (simpl in *; lia).
      split; [constructor; assumption|].
      intros c. rewrite elem_of_cons, IHm. split.
      * intros [->|[Hc Hm]].
        -- split; [lia|]. rewrite Nat.sub_diag. cbn [drop]. rewrite E.
           apply andb_true_iff. split; apply bool_decide_eq_true; [simpl; lia | eauto].
        -- split; [lia|]. apply Hshift; [lia | exact Hm].
      * intros [Hc Hm]. destruct (decide (c = col)) as [->|Hne]; [left; reflexivity|].
        right. split; [lia|]. apply Hshift; [lia | exact Hm].
    + split; [exact IHs|].
      intros c. rewrite IHm. split.
      * intros [Hc Hm]. split; [lia|]. apply Hshift; [lia | exact Hm].
      * intros [Hc Hm]. destruct (decide (c = col)) as [->|Hne].
        -- rewrite Nat.sub_diag in Hm. cbn [drop] in Hm. rewrite E in Hm.
           apply andb_true_iff in Hm as [_ Hm].
           apply bool_decide_eq_true in Hm. destruct Hm; discriminate.
        -- split; [lia|]. apply Hshift; [lia | exact Hm].
Qed.

End Scan.

(** What [finditer] gives for a row of the shape, on any string. *)
Lemma finditer_row first rest target :
  exists cols,
    Re.finditer (_format_pattern (first :: rest)) target = Ok cols
    /\ StronglySorted lt cols
    /\ forall c, c ∈ cols <-> Re.matches_at (regex_of_row first rest) target c = true.
Proof.
  destruct (compile_format first rest) as (p & -> & Hc).
  unfold Re.finditer. rewrite Hc. eexists. split; [reflexivity|].
  destruct (scan_spec _ (match_nodes_row_one first rest) target 0%nat) as [Hs Hm].
  split; [exact Hs|]. intros c. rewrite Hm, Nat.sub_0_r. intuition lia.
Qed.

Lemma matches_at_row first rest target c :
  Re.matches_at (regex_of_row first rest) target c = true
  <-> exists s, drop c target = first :: s
                /\ is_Some (Re.match_items (body_of None rest) s).
Proof.
  unfold Re.matches_at. rewrite andb_true_iff, !bool_decide_eq_true. split.
  - intros [Hc [s' Hm]]. destruct (drop c target) as [|x s] eqn:E; [discriminate|].
    rewrite match_nodes_row in Hm.
    destruct (Ascii.eqb_spec x first) as [->|]; [|discriminate].
    exists s. split; [reflexivity|].
    destruct (Re.match_items (body_of None rest) s); [eauto | discriminate].
  - intros (s & E & [s' Hm]). split.
    + destruct (decide (c < length target)%nat) as [|Hge]; [assumption|].
      rewrite drop_ge in E by lia. discriminate.
    + rewrite E, match_nodes_row, Ascii.eqb_refl, Hm. eauto.
Qed.

(** *** Rows without whitespace *)

Lemma body_of_literal rest : forall pending,
  Forall (fun x => Py.isspace x = false) rest ->
  body_of pending rest = flush pending ++ literals rest.
Proof.
  induction rest as [|x rest IH]; intros pending H.
  - symmetry. apply app_nil_r.
  - inversion H as [|? ? Hx Hrest]; subst. cbn [body_of].
    replace (Ascii.eqb x Py.SP) with false
      by (ascii_cases x; vm_compute in Hx |- *; congruence).
    rewrite Hx, (IH None Hrest). reflexivity.
Qed.

Lemma match_items_literals rest : forall s,
  is_Some (Re.match_items (literals rest) s) <-> take (length rest) s = rest.
Proof.
  induction rest as [|x rest IH]; intros s.
  - cbn. split; [reflexivity | eauto].
  - cbn [literals map Re.match_items Re.match_rep length].
    destruct s as [|c s]; cbn [take mbind option_bind Re.match_atom].
    + split; [intros [? [=]] | discriminate].
    + destruct (Ascii.eqb_spec c x) as [->|Hne]; cbn [mbind option_bind].
      * fold (literals rest). rewrite IH. split; [intros ->; reflexivity | intros [= H]; exact H].
      * split; [intros [? [=]] | intros [= ? _]; contradiction].
Qed.

(** *** Runs of spaces *)

Lemma body_of_spaces n : forall a k tail,
  Forall (fun x => Py.isspace x = false) tail ->
  body_of (Some (a, k)) (repeat Py.SP n ++ tail) = (a, (k + n)%nat) :: literals tail.
Proof.
  induction n as [|n IH]; intros a k tail H.
  - rewrite Nat.add_0_r. apply (body_of_literal tail (Some (a, k)) H).
  - cbn [repeat app body_of]. change (Ascii.eqb Py.SP Py.SP) with true. cbv iota.
    cbn [bump]. rewrite IH by exact H. f_equal. f_equal. lia.
Qed.

Lemma match_rep_any n : forall s,
  Py.LF ∉ s ->
  Re.match_rep Re.AnyChar n s
  = if decide (n <= length s)%nat then Some (drop n s) else None.
Proof.
  induction n as [|n IH]; intros s H.
  - cbn. destruct (decide _); [reflexivity | lia].
  - destruct s as [|c s]; cbn [Re.match_rep Re.match_atom length drop].
    + destruct (decide _); [lia | reflexivity].
    + apply not_elem_of_cons in H as [Hc Hs].
      destruct (Ascii.eqb_spec c Py.LF) as [->|_]; [contradiction|].
      cbn [negb]. rewrite IH by exact Hs.
      repeat destruct (decide _); try reflexivity; lia.
Qed.

Lemma match_items_skip n tail s :
  Py.LF ∉ s -> Forall (fun x => Py.isspace x = false) tail ->
  is_Some (Re.match_items (body_of None (repeat Py.SP n ++ tail)) s)
  <-> (n <= length s)%nat /\ take (length tail) (drop n s) = tail.
Proof.
  intros Hs Ht. destruct n as [|n].
  - cbn [repeat app]. rewrite (body_of_literal tail None Ht). cbn [flush app drop].
    rewrite match_items_literals. intuition lia.
  - cbn [repeat app body_of]. change (Ascii.eqb Py.SP Py.SP) with true. cbv iota.
    cbn [bump]. rewrite body_of_spaces by exact Ht.
    cbn [Re.match_items]. rewrite match_rep_any by exact Hs.
    replace (1 + n)%nat with (S n) by lia.
    destruct (decide (S n <= length s)%nat); cbn [mbind option_bind].
    + rewrite match_items_literals. intuition lia.
    + split; [intros [? [=]] | intros [? _]; lia].
Qed.

(** ** Lines of a file *)

Lemma elem_of_drop {A} (x : A) n : forall l, x ∈ drop n l -> x ∈ l.
Proof.
  induction n as [|n IH]; intros [|y l]; cbn [drop]; auto.
  intros H. right. apply IH, H.
Qed.

Lemma rstrip_subseteq s : forall c, c ∈ Py.rstrip s -> c ∈ s.
Proof.
  induction s as [|x s IH]; intros c; cbn [Py.rstrip]; [trivial|].
  destruct (Py.rstrip s) as [|y r] eqn:E.
  - destruct (Py.isspace x); [intros H; inversion H|].
    intros H%list_elem_of_singleton. subst. left.
  - intros [->|H]%elem_of_cons; [left | right; apply IH, H].
Qed.


Lemma rstrip_app_space s x :
  Py.isspace x = true -> Py.rstrip (s ++ [x]) = Py.rstrip s.
Proof.
  intros Hx. induction s as [|y s IH]; cbn [app Py.rstrip].
  - rewrite Hx. reflexivity.
  - rewrite IH. reflexivity.
Qed.

(** A line of a file has no line feed but, possibly, its last character. *)
Lemma file_lines_shape content : forall l,
  l ∈ Py.file_lines content ->
  exists body, (Py.LF ∉ body) /\ (l = body \/ l = body ++ [Py.LF]).
Proof.
  induction content as [|c rest IH]; intros l; cbn [Py.file_lines].
  - intros H. inversion H.
  - destruct (Ascii.eqb_spec c Py.LF) as [->|Hne].
    + intros [->|H]%elem_of_cons; [|apply IH, H].
      exists []. split; [apply not_elem_of_nil | right; reflexivity].
    + destruct (Py.file_lines rest) as [|l0 ls] eqn:E.
      * intros ->%list_elem_of_singleton. exists [c]. split; [|left; reflexivity].
        intros H%list_elem_of_singleton. congruence.
      * intros [->|H]%elem_of_cons.
        -- destruct (IH l0) as (body & Hb & Hl); [left|].
           exists (c :: body). split.
           ++ apply not_elem_of_cons. split; [congruence | exact Hb].
           ++ destruct Hl as [->| ->]; [left | right]; reflexivity.
        -- apply IH. right. exact H.
Qed.

Lemma reader_line_spec numbered line :
  reader_line numbered = Some line ->
  Line.id line = numbered.1 /\ Line.pattern line = Py.rstrip numbered.2
  /\ Line.pattern line <> [].
Proof.
  destruct numbered as [i l]. unfold reader_line.
  destruct (Py.rstrip l) eqn:E; [discriminate|].
  intros [= <-]. cbn. rewrite E. repeat split. discriminate.
Qed.

Lemma enumerate_from_snd {A} (xs : list A) : forall i x,
  x ∈ Py.enumerate_from i xs -> x.2 ∈ xs.
Proof.
  induction xs as [|y xs IH]; intros i x; cbn [Py.enumerate_from].
  - intros H. inversion H.
  - intros [->|H]%elem_of_cons; [left | right; eapply IH, H].
Qed.

(** The patterns the reader produces are not empty and hold no line feed. *)
Lemma reader_pattern file_handler line :
  line ∈ reader file_handler ->
  Line.pattern line <> [] /\ Py.LF ∉ Line.pattern line.
Proof.
  unfold reader. intros (x & Hx & Hl)%list_elem_of_omap.
  apply reader_line_spec in Hl as (_ & Hp & Hne). split; [exact Hne|].
  apply enumerate_from_snd, file_lines_shape in Hx as (body & Hb & Hl).
  rewrite Hp. intros H. apply Hb.
  destruct Hl as [Hl|Hl]; rewrite Hl in H.
  - apply rstrip_subseteq, H.
  - rewrite rstrip_app_space in H by reflexivity. apply rstrip_subseteq, H.
Qed.

(** ** The row matcher *)



Example finditer_overlapping :
  Re.finditer (_format_pattern (py "aa")) (py "aaaa") = Ok [0; 1; 2]%nat.
Proof. reflexivity. Qed.

(** X21.  For every row of a shape that holds no whitespace character
    (none of those [\s] stands for), every target string and every column
    [c], the formatted row matches the target at column [c] exactly when
    the row is the substring [target[c : c + len(row)]]: every character
    of the row, alphanumeric or not, is compared as it is. *)
Theorem literal_row_matches_substring (row target : str) (c : nat) :
  row <> [] ->
  Forall (fun x => Py.isspace x = false) row ->
  exists cols,
    Re.finditer (_format_pattern row) target = Ok cols
    /\ (c ∈ cols <-> take (length row) (drop c target) = row).
Proof.
  intros Hrow Hsp. destruct row as [|first rest]; [congruence|].
  inversion Hsp as [|? ? _ Hrest]; subst.
  destruct (finditer_row first rest target) as (cols & Hf & _ & Hm).
  exists cols. split; [exact Hf|].
  rewrite Hm, matches_at_row. cbn [length]. split.
  - intros (s & E & Hs). rewrite E. cbn [take]. f_equal.
    rewrite (body_of_literal rest None Hrest) in Hs.
    apply match_items_literals, Hs.
  - intros E. destruct (drop c target) as [|x s]; [discriminate|].
    cbn [take] in E. injection E as -> E. exists s. split; [reflexivity|].
    rewrite (body_of_literal rest None Hrest). apply match_items_literals, E.
Qed.

Lemma literal_row_matches_substring_witness :
  py "#.O" <> []
  /\ Forall (fun x => Py.isspace x = false) (py "#.O")
  /\ exists cols,
       Re.finditer (_format_pattern (py "#.O")) (py "x#.O#xO") = Ok cols
       /\ (1%nat ∈ cols
           <-> take (length (py "#.O")) (drop 1 (py "x#.O#xO")) = py "#.O").
Proof.
  assert (H : Forall (fun x => Py.isspace x = false) (py "#.O"))
    by (repeat constructor).
  split; [discriminate|]. split; [exact H|].
  apply (literal_row_matches_substring (py "#.O") (py "x#.O#xO") 1);
    [discriminate | exact H].
Defined.

(** C5, on a row with a tab.  The row ["a<TAB>b"] holds no blank: the
    tab is a character like any other and is to be compared as it is.
    But a whitespace character other than the space is neither compared
    as it is nor a wildcard: [escape] puts a backslash before it, [re.sub]
    replaces the character and leaves the backslash, and the row asks for
    a dot.  The formatted row does not match its own text and matches
    ["a.b"]; a landscape that holds the bug as it is written counts 0. *)
Theorem tab_row_rejects_its_own_text :
  let row := py "a" ++ [Py.TAB] ++ py "b" in
  Forall (fun x => x <> Py.SP) row
  /\ _format_pattern row = Some (py "a(?=\.{1}b)")
  /\ Re.finditer (_format_pattern row) row = Ok []
  /\ Re.finditer (_format_pattern row) (py "a.b") = Ok [0%nat]
  /\ main (row ++ py nl) (row ++ py nl) = Ok 0%nat
  /\ main (row ++ py nl) (py ("a.b" ++ nl)) = Ok 1%nat.
Proof.
  intros row. split; [repeat constructor; discriminate|].
  repeat split; reflexivity.
Qed.

(** X22.  The row ["d ta"] matches ["data"] at column 0 and nowhere else,
    and does not match ["dta"].  In general, for a row made of an anchor,
    [N] spaces and a tail without whitespace, and for every line [reader]
    gives of a landscape file: the row matches at column [col] exactly
    when the anchor is there, the [N] characters after it exist, whatever
    they are, and the tail follows them; a run reaching past the end of
    the line gives no match, and no error. *)
Theorem skip_run_semantics :
  Re.finditer (_format_pattern (py "d ta")) (py "data") = Ok [0%nat]
  /\ Re.finditer (_format_pattern (py "d ta")) (py "dta") = Ok []
  /\ forall (anchor : ascii) (N : nat) (tail landscape_file : str)
            (line : Line.t) (col : nat),
      line ∈ reader landscape_file ->
      Forall (fun x => Py.isspace x = false) tail ->
      let target := Line.pattern line in
      exists cols,
        Re.finditer (_format_pattern (anchor :: repeat Py.SP N ++ tail)) target
        = Ok cols
        /\ (col ∈ cols
            <-> target !! col = Some anchor
                /\ (col + 1 + N + length tail <= length target)%nat
                /\ take (length tail) (drop (col + 1 + N) target) = tail).
Proof.
  split; [reflexivity|]. split; [reflexivity|].
  intros anchor N tail landscape_file line col Hline Htail target.
  destruct (reader_pattern _ _ Hline) as [_ HLF]. fold target in HLF.
  destruct (finditer_row anchor (repeat Py.SP N ++ tail) target) as (cols & Hf & _ & Hm).
  exists cols. split; [exact Hf|].
  rewrite Hm, matches_at_row. split.
  - intros (s & E & Hs).
    assert (HLFs : Py.LF ∉ s).
    { intros H. apply HLF, (elem_of_drop Py.LF col). rewrite E. right. exact H. }
    apply (match_items_skip N tail s HLFs Htail) in Hs as [HN Ht].
    assert (Hlen : (length target - col)%nat = S (length s))
      by (rewrite <- length_drop, E; reflexivity).
    assert (Hd : drop (col + 1 + N) target = drop N s).
    { replace (col + 1 + N)%nat with (col + (1 + N))%nat by lia.
      rewrite <- drop_drop, E. reflexivity. }
    split; [|split].
    + rewrite <- (Nat.add_0_r col), <- lookup_drop, E. reflexivity.
    + assert (length tail <= length (drop N s))%nat
        by (rewrite <- Ht at 1; rewrite length_take; lia).
      rewrite length_drop in *. lia.
    + rewrite Hd. exact Ht.
  - intros (Ha & Hlen & Ht). pose proof (drop_S _ _ _ Ha) as E.
    exists (drop (S col) target). split; [exact E|].
    apply match_items_skip; [|exact Htail|split].
    + intros H. apply HLF, (elem_of_drop Py.LF (S col)), H.
    + rewrite length_drop. lia.
    + rewrite drop_drop. replace (S col + N)%nat with (col + 1 + N)%nat by lia.
      exact Ht.
Qed.

Lemma skip_run_semantics_witness :
  exists cols,
    Re.finditer (_format_pattern (py "|" ++ repeat Py.SP 2 ++ py "|"))
      (py "x|ab|") = Ok cols
    /\ (1%nat ∈ cols
        <-> py "x|ab|" !! 1%nat = Some "|"%char
            /\ (1 + 1 + 2 + length (py "|") <= length (py "x|ab|"))%nat
            /\ take (length (py "|")) (drop (1 + 1 + 2) (py "x|ab|")) = py "|").
Proof.
  destruct skip_run_semantics as (_ & _ & H).
  apply (H "|"%char 2%nat (py "|") (py "x|ab|") (Line.mk 0 (py "x|ab|")) 1%nat).
  - vm_compute. left.
  - repeat constructor.
Defined.

(** C7, on a row with a tab before a space.  In the row ["a<TAB> b"] the
    space is a run of one blank, a skip of one character, after the tab.
    [re.sub] takes the tab and the space for one run of whitespace and
    writes its replacement after the backslash [escape] put before the
    tab: the row asks for two dots.  It does not match ["a<TAB>xb"],
    where a character stands at the place of the space, nor its own text,
    and it matches ["a..b"]; the row ["a  b"], two spaces and no tab,
    matches ["a<TAB>xb"]. *)
Theorem skip_after_tab_is_no_wildcard :
  let row := py "a" ++ [Py.TAB; Py.SP] ++ py "b" in
  let target := py "a" ++ [Py.TAB] ++ py "xb" in
  _format_pattern row = Some (py "a(?=\.{2}b)")
  /\ Re.finditer (_format_pattern row) target = Ok []
  /\ Re.finditer (_format_pattern row) row = Ok []
  /\ Re.finditer (_format_pattern row) (py "a..b") = Ok [0%nat]
  /\ main (row ++ py nl) (target ++ py nl) = Ok 0%nat
  /\ main (row ++ py nl) (py ("a..b" ++ nl)) = Ok 1%nat
  /\ main (py ("a  b" ++ nl)) (target ++ py nl) = Ok 1%nat.
Proof. intros row target. repeat split; reflexivity. Qed.

(** ** The operations on the match table *)

Lemma positions_insert (m : BugFinder.table) l d l' r' :
  BugFinder.positions (<[l := d]> m) l' r'
  = if decide (l' = l) then d !! r' else BugFinder.positions m l' r'.
Proof.
  unfold BugFinder.positions. destruct (decide (l' = l)) as [->|Hne].
  - rewrite lookup_insert_eq. reflexivity.
  - rewrite lookup_insert_ne by congruence. reflexivity.
Qed.

Lemma get_line_fst (m : BugFinder.table) l :
  (BugFinder.get_line m l).1 = default ∅ (m !! l).
Proof. unfold BugFinder.get_line. destruct (m !! l); reflexivity. Qed.

Lemma get_line_snd_lookup (m : BugFinder.table) l :
  (BugFinder.get_line m l).2 !! l = Some (default ∅ (m !! l)).
Proof.
  unfold BugFinder.get_line. destruct (m !! l) eqn:E; cbn [snd default].
  - exact E.
  - apply lookup_insert_eq.
Qed.

Lemma positions_get_line (m : BugFinder.table) l l' r' :
  BugFinder.positions (BugFinder.get_line m l).2 l' r' = BugFinder.positions m l' r'.
Proof.
  unfold BugFinder.get_line. destruct (m !! l) eqn:E; cbn [snd]; [reflexivity|].
  rewrite positions_insert. destruct (decide (l' = l)) as [->|]; [|reflexivity].
  unfold BugFinder.positions. rewrite E. reflexivity.
Qed.

Lemma get_positions_eq (m : BugFinder.table) l r :
  BugFinder.get_positions m l r = (cells m l r, probed m l r).
Proof.
  unfold probed. destruct (BugFinder.get_positions m l r) as [lst m'] eqn:E.
  cbn [snd]. f_equal. unfold BugFinder.get_positions in E.
  destruct (BugFinder.get_line m l) as [d m1] eqn:El.
  pose proof (get_line_fst m l) as Hd. rewrite El in Hd. cbn [fst] in Hd.
  unfold cells, BugFinder.positions.
  destruct (m !! l) as [d0|] eqn:Em; cbn [default mbind option_bind] in *; subst d;
    unfold id in *.
  - destruct (d0 !! r); injection E as <- _; reflexivity.
  - rewrite lookup_empty in E. injection E as <- _. reflexivity.
Qed.

Lemma positions_probed (m : BugFinder.table) l r l' r' :
  BugFinder.positions (probed m l r) l' r'
  = if decide (l' = l /\ r' = r) then Some (cells m l r)
    else BugFinder.positions m l' r'.
Proof.
  unfold probed, BugFinder.get_positions.
  destruct (BugFinder.get_line m l) as [d m1] eqn:El.
  pose proof (get_line_fst m l) as Hd. rewrite El in Hd. cbn [fst] in Hd.
  pose proof (positions_get_line m l l' r') as Hp. rewrite El in Hp. cbn [snd] in Hp.
  pose proof (get_line_snd_lookup m l) as Hl. rewrite El in Hl. cbn [snd] in Hl.
  assert (Hc : d !! r = BugFinder.positions m l r).
  { rewrite <- (positions_get_line m l l r), El. cbn [snd].
    unfold BugFinder.positions. rewrite Hl, <- Hd. reflexivity. }
  unfold cells. rewrite <- Hc.
  destruct (d !! r) as [lst|] eqn:Er; cbn [snd default].
  - rewrite Hp. destruct (decide _) as [[-> ->]|]; [|reflexivity].
    rewrite <- Hc. reflexivity.
  - rewrite positions_insert. destruct (decide (l' = l)) as [->|Hne].
    + destruct (decide (r' = r)) as [->|Hr].
      * rewrite lookup_insert_eq. destruct (decide _) as [|[]]; [reflexivity | split; reflexivity].
      * rewrite lookup_insert_ne by congruence.
        destruct (decide _) as [[_ ?]|]; [contradiction|].
        rewrite <- Hp. unfold BugFinder.positions. rewrite Hl, <- Hd. reflexivity.
    + destruct (decide _) as [[? _]|]; [contradiction | exact Hp].
Qed.

Lemma cells_probed (m : BugFinder.table) l r l' r' :
  cells (probed m l r) l' r' = cells m l' r'.
Proof.
  unfold cells at 1. rewrite positions_probed.
  destruct (decide _) as [[-> ->]|]; reflexivity.
Qed.

Lemma probed_lookup (m : BugFinder.table) l r :
  is_Some (probed m l r !! l).
Proof.
  pose proof (positions_probed m l r l r) as H.
  destruct (decide _) as [_|[]]; [|split; reflexivity].
  unfold BugFinder.positions in H.
  destruct (probed m l r !! l); [eauto | discriminate].
Qed.

(** Writing a list back under a key that was just read. *)
Lemma positions_store (m : BugFinder.table) l r lst l' r' :
  BugFinder.positions
    (<[l := <[r := lst]> (default ∅ (probed m l r !! l))]> (probed m l r)) l' r'
  = if decide (l' = l /\ r' = r) then Some lst else BugFinder.positions m l' r'.
Proof.
  rewrite positions_insert. destruct (decide (l' = l)) as [->|Hne].
  - destruct (decide (r' = r)) as [->|Hr].
    + rewrite lookup_insert_eq. destruct (decide _) as [|[]]; [reflexivity | split; reflexivity].
    + rewrite lookup_insert_ne by congruence.
      destruct (decide _) as [[_ ?]|]; [contradiction|].
      pose proof (positions_probed m l r l r') as H.
      destruct (decide _) as [[_ ?]|] in H; [contradiction|].
      rewrite <- H. unfold BugFinder.positions.
      destruct (probed_lookup m l r) as [d ->]. reflexivity.
  - destruct (decide _) as [[? _]|]; [contradiction|].
    rewrite positions_probed. destruct (decide _) as [[? _]|]; [contradiction | reflexivity].
Qed.

Lemma positions_register part line c self l' r' :
  BugFinder.positions
    (BugFinder.bug_part_matches (BugFinder.register_bug_part_match part line c self))
    l' r'
  = if decide (l' = Line.id line /\ r' = Part.id part)
    then Some (cells (BugFinder.bug_part_matches self) (Line.id line) (Part.id part) ++ [c])
    else BugFinder.positions (BugFinder.bug_part_matches self) l' r'.
Proof.
  unfold BugFinder.register_bug_part_match. rewrite get_positions_eq.
  cbn [BugFinder.bug_part_matches]. apply positions_store.
Qed.

Lemma bug_count_register part line c self :
  BugFinder.bug_count (BugFinder.register_bug_part_match part line c self)
  = BugFinder.bug_count self.
Proof.
  unfold BugFinder.register_bug_part_match. rewrite get_positions_eq. reflexivity.
Qed.

Lemma cells_register part line c self l' r' :
  cells (BugFinder.bug_part_matches (BugFinder.register_bug_part_match part line c self))
    l' r'
  = if decide (l' = Line.id line /\ r' = Part.id part)
    then cells (BugFinder.bug_part_matches self) (Line.id line) (Part.id part) ++ [c]
    else cells (BugFinder.bug_part_matches self) l' r'.
Proof.
  unfold cells at 1. rewrite positions_register. destruct (decide _); reflexivity.
Qed.

Lemma cells_store (m : BugFinder.table) l r lst l' r' :
  cells (<[l := <[r := lst]> (default ∅ (probed m l r !! l))]> (probed m l r)) l' r'
  = if decide (l' = l /\ r' = r) then lst else cells m l' r'.
Proof.
  unfold cells at 1. rewrite positions_store. destruct (decide _); reflexivity.
Qed.

(** *** [list.remove] *)

Lemma list_remove_ok x l : x ∈ l -> exists l', BugFinder.list_remove x l = Ok l'.
Proof.
  induction l as [|y l IH]; [intros H; inversion H|].
  intros H. cbn [BugFinder.list_remove]. destruct (decide (x = y)); [eauto|].
  apply elem_of_cons in H as [?|H]; [contradiction|].
  destruct (IH H) as [l' ->]. cbn. eauto.
Qed.

Lemma list_remove_inv x l : forall l',
  BugFinder.list_remove x l = Ok l' ->
  exists l1 l2, l = l1 ++ x :: l2 /\ l' = l1 ++ l2 /\ x ∉ l1.
Proof.
  induction l as [|y l IH]; intros l' H; [discriminate|].
  cbn [BugFinder.list_remove] in H. destruct (decide (x = y)) as [->|Hne].
  - injection H as <-. exists [], l. repeat split. apply not_elem_of_nil.
  - destruct (BugFinder.list_remove x l) as [l''|] eqn:E; [|discriminate].
    injection H as <-. destruct (IH _ eq_refl) as (l1 & l2 & -> & -> & Hx).
    exists (y :: l1), l2. repeat split. apply not_elem_of_cons. split; assumption.
Qed.

Lemma list_remove_elem x l l' :
  BugFinder.list_remove x l = Ok l' -> x ∈ l.
Proof.
  intros (l1 & l2 & -> & _)%list_remove_inv.
  apply elem_of_app. right. left.
Qed.

Lemma list_remove_other x l l' y :
  BugFinder.list_remove x l = Ok l' -> y <> x -> (y ∈ l' <-> y ∈ l).
Proof.
  intros (l1 & l2 & -> & -> & _)%list_remove_inv Hy.
  rewrite !elem_of_app, elem_of_cons. intuition congruence.
Qed.

Lemma list_remove_subseteq x l l' y :
  BugFinder.list_remove x l = Ok l' -> y ∈ l' -> y ∈ l.
Proof.
  intros (l1 & l2 & -> & -> & _)%list_remove_inv.
  rewrite !elem_of_app, elem_of_cons. intuition.
Qed.

Lemma list_remove_NoDup x l l' :
  BugFinder.list_remove x l = Ok l' -> NoDup l -> NoDup l' /\ x ∉ l'.
Proof.
  intros (l1 & l2 & -> & -> & _)%list_remove_inv Hnd.
  apply NoDup_app in Hnd as (H1 & H12 & H2).
  apply NoDup_cons in H2 as [Hx H2]. split.
  - apply NoDup_app. repeat split; [assumption | | assumption].
    intros y Hy1 Hy2. apply (H12 y Hy1). right. exact Hy2.
  - rewrite elem_of_app. intros [H|H]; [|contradiction].
    apply (H12 x H). left.
Qed.

(** *** [deregister_bug_match] and [bug_part_match_belongs_to_a_bug] *)

Lemma positions_stored (m : BugFinder.table) l r lst l' r' :
  BugFinder.positions (stored m l r lst) l' r'
  = if decide (l' = l /\ r' = r) then Some lst else BugFinder.positions m l' r'.
Proof. apply positions_store. Qed.

Lemma cells_stored (m : BugFinder.table) l r lst l' r' :
  cells (stored m l r lst) l' r'
  = if decide (l' = l /\ r' = r) then lst else cells m l' r'.
Proof. apply cells_store. Qed.

Lemma cells_stored_other_line (m : BugFinder.table) l r lst l' r' :
  l' <> l -> cells (stored m l r lst) l' r' = cells m l' r'.
Proof.
  intros H. rewrite cells_stored. destruct (decide _) as [[? _]|]; [contradiction | reflexivity].
Qed.

Lemma deregister_loop_cons part parts ln c m :
  BugFinder.deregister_loop (part :: parts) ln c m
  = l' ← BugFinder.list_remove c (cells m ln (Part.id part));
    BugFinder.deregister_loop parts (ln - 1) c (stored m ln (Part.id part) l').
Proof. cbn [BugFinder.deregister_loop]. rewrite get_positions_eq. reflexivity. Qed.

Lemma belongs_loop_cons part parts ln c m :
  BugFinder.belongs_loop (part :: parts) ln c m
  = if bool_decide (c ∈ cells m (ln - 1) (Part.id part))
    then BugFinder.belongs_loop parts (ln - 1) c (probed m (ln - 1) (Part.id part))
    else (false, probed m (ln - 1) (Part.id part)).
Proof. cbn [BugFinder.belongs_loop]. rewrite get_positions_eq. reflexivity. Qed.

Lemma deregister_loop_ok parts : forall ln c m,
  (forall (k : nat) part, parts !! k = Some part ->
     c ∈ cells m (ln - Z.of_nat k) (Part.id part)) ->
  exists m', BugFinder.deregister_loop parts ln c m = Ok m'.
Proof.
  induction parts as [|p parts IH]; intros ln c m H; [cbn; eauto|].
  rewrite deregister_loop_cons.
  destruct (list_remove_ok c (cells m ln (Part.id p))) as [l' ->].
  { specialize (H 0%nat p eq_refl). rewrite Z.sub_0_r in H. exact H. }
  cbn [mbind result_bind]. apply IH. intros k part Hk.
  rewrite cells_stored_other_line by lia.
  specialize (H (S k) part Hk).
  replace (ln - 1 - Z.of_nat k) with (ln - Z.of_nat (S k)) by lia. exact H.
Qed.

Lemma deregister_loop_spec parts : forall ln c m m',
  BugFinder.deregister_loop parts ln c m = Ok m' ->
  (forall (k : nat) part, parts !! k = Some part ->
     BugFinder.list_remove c (cells m (ln - Z.of_nat k) (Part.id part))
     = Ok (cells m' (ln - Z.of_nat k) (Part.id part)))
  /\ (forall l r,
        (forall (k : nat) part, parts !! k = Some part ->
           ~ (l = ln - Z.of_nat k /\ r = Part.id part)) ->
        cells m' l r = cells m l r)
  /\ (forall l r, is_Some (BugFinder.positions m l r) ->
                  is_Some (BugFinder.positions m' l r)).
Proof.
  induction parts as [|p parts IH]; intros ln c m m' H.
  - injection H as <-. split; [intros k part Hk; discriminate|]. split; auto.
  - rewrite deregister_loop_cons in H.
    destruct (BugFinder.list_remove c (cells m ln (Part.id p))) as [l'|] eqn:El;
      [|discriminate].
    cbn [mbind result_bind] in H.
    destruct (IH _ _ _ _ H) as (IH1 & IH2 & IH3).
    assert (Hhead : cells m' ln (Part.id p) = l').
    { rewrite IH2; [|intros k part _ [? _]; lia].
      rewrite cells_stored. destruct (decide _) as [|[]]; [reflexivity | split; reflexivity]. }
    split; [|split].
    + intros [|k] part Hk.
      * injection Hk as <-. rewrite Z.sub_0_r, Hhead. exact El.
      * specialize (IH1 k part Hk).
        rewrite cells_stored_other_line in IH1 by lia.
        replace (ln - Z.of_nat (S k)) with (ln - 1 - Z.of_nat k) by lia. exact IH1.
    + intros l r Hnot. rewrite IH2.
      * rewrite cells_stored. destruct (decide _) as [[-> ->]|]; [|reflexivity].
        exfalso. apply (Hnot 0%nat p eq_refl). split; [lia | reflexivity].
      * intros k part Hk [-> ->]. apply (Hnot (S k) part Hk). split; [lia | reflexivity].
    + intros l r Hs. apply IH3. rewrite positions_stored.
      destruct (decide _); [eauto | exact Hs].
Qed.

Lemma belongs_loop_spec parts : forall ln c m b m',
  BugFinder.belongs_loop parts ln c m = (b, m') ->
  (forall l r, cells m' l r = cells m l r)
  /\ (forall l r, is_Some (BugFinder.positions m l r) ->
                  is_Some (BugFinder.positions m' l r))
  /\ (b = true <->
        forall (k : nat) part, parts !! k = Some part ->
          c ∈ cells m (ln - 1 - Z.of_nat k) (Part.id part)).
Proof.
  induction parts as [|p parts IH]; intros ln c m b m' H.
  - injection H as <- <-. split; [reflexivity|]. split; [auto|].
    split; [intros _ k part Hk; discriminate | reflexivity].
  - rewrite belongs_loop_cons in H.
    assert (Hkeys : forall l r, is_Some (BugFinder.positions m l r) ->
              is_Some (BugFinder.positions (probed m (ln - 1) (Part.id p)) l r)).
    { intros l r Hs. rewrite positions_probed. destruct (decide _); [eauto | exact Hs]. }
    destruct (bool_decide (c ∈ cells m (ln - 1) (Part.id p))) eqn:Hc.
    + apply bool_decide_eq_true in Hc.
      destruct (IH _ _ _ _ _ H) as (IH1 & IH2 & IH3).
      split; [|split].
      * intros l r. rewrite IH1. apply cells_probed.
      * intros l r Hs. apply IH2, Hkeys, Hs.
      * rewrite IH3. split.
        -- intros Hall [|k] part Hk.
           ++ injection Hk as <-. rewrite Z.sub_0_r. exact Hc.
           ++ specialize (Hall k part Hk). rewrite cells_probed in Hall.
              replace (ln - 1 - Z.of_nat (S k)) with (ln - 1 - 1 - Z.of_nat k) by lia.
              exact Hall.
        -- intros Hall k part Hk. rewrite cells_probed.
           specialize (Hall (S k) part Hk).
           replace (ln - 1 - 1 - Z.of_nat k) with (ln - 1 - Z.of_nat (S k)) by lia.
           exact Hall.
    + apply bool_decide_eq_false in Hc. injection H as <- <-.
      split; [intros l r; apply cells_probed|]. split; [exact Hkeys|].
      split; [discriminate|]. intros Hall. exfalso. apply Hc.
      specialize (Hall 0%nat p eq_refl). rewrite Z.sub_0_r in Hall. exact Hall.
Qed.

(** ** One match of one part in one line *)

Lemma rev_bottom (shape : list Part.t) (bottom : Part.t) :
  last shape = Some bottom -> rev shape = bottom :: rev (removelast shape).
Proof.
  intros [l' ->]%last_Some. rewrite removelast_last, rev_unit. reflexivity.
Qed.

Lemma elem_of_last_is_Some {A} (x : A) l : x ∈ l -> is_Some (last l).
Proof. intros H. apply last_is_Some. intros ->. inversion H. Qed.

Section OneMatch.

Variable shape : list Part.t.
Variables (part : Part.t) (line : Line.t) (c : nat) (self : BugFinder.t).
Hypothesis part_in_shape : part ∈ shape.

Let self1 := BugFinder.register_bug_part_match part line c self.
Let m1 := BugFinder.bug_part_matches self1.

(** What [bug_part_match_belongs_to_a_bug] answers, and what it leaves. *)
Lemma belongs_spec :
  exists bottom b self2,
    last shape = Some bottom
    /\ BugFinder.bug_part_match_belongs_to_a_bug shape part line c self1 = Ok (b, self2)
    /\ (forall l r, cells (BugFinder.bug_part_matches self2) l r = cells m1 l r)
    /\ (forall l r, is_Some (BugFinder.positions m1 l r) ->
                    is_Some (BugFinder.positions (BugFinder.bug_part_matches self2) l r))
    /\ BugFinder.bug_count self2 = BugFinder.bug_count self
    /\ (b = true <->
          Part.id part = Part.id bottom
          /\ forall (k : nat) p, rev (removelast shape) !! k = Some p ->
               c ∈ cells m1 (Line.id line - 1 - Z.of_nat k) (Part.id p)).
Proof.
  destruct (elem_of_last_is_Some _ _ part_in_shape) as [bottom Hb].
  exists bottom. unfold BugFinder.bug_part_match_belongs_to_a_bug. rewrite Hb.
  destruct (decide (Part.id part = Part.id bottom)) as [Hid|Hid].
  - destruct (BugFinder.belongs_loop (rev (removelast shape)) (Line.id line) c
                (BugFinder.bug_part_matches self1)) as [b m'] eqn:E.
    destruct (belongs_loop_spec _ _ _ _ _ _ E) as (H1 & H2 & H3).
    eexists b, _. split; [reflexivity|]. split; [reflexivity|].
    cbn [BugFinder.bug_part_matches BugFinder.bug_count].
    split; [exact H1|]. split; [exact H2|].
    split; [apply bug_count_register|]. rewrite H3. intuition.
  - exists false, self1. split; [reflexivity|]. split; [reflexivity|].
    split; [reflexivity|]. split; [auto|]. split; [apply bug_count_register|].
    split; [discriminate | intros [? _]; contradiction].
Qed.

(** After a confirmed match every position [deregister_bug_match] removes
    is in its list. *)
Lemma confirmed_positions self2 :
  BugFinder.bug_part_match_belongs_to_a_bug shape part line c self1 = Ok (true, self2) ->
  forall (k : nat) p, rev shape !! k = Some p ->
    c ∈ cells (BugFinder.bug_part_matches self2) (Line.id line - Z.of_nat k) (Part.id p).
Proof.
  intros H. destruct belongs_spec as (bottom & b & self2' & Hb & E & Hc & _ & _ & Hiff).
  rewrite H in E. injection E as <- <-.
  destruct (proj1 Hiff eq_refl) as [Hid Hall].
  rewrite (rev_bottom _ _ Hb). intros [|k] p Hk; rewrite Hc.
  - injection Hk as <-. rewrite Z.sub_0_r. unfold m1, self1.
    rewrite cells_register, <- Hid.
    destruct (decide _) as [|[]]; [|split; reflexivity].
    apply elem_of_app. right. left.
  - specialize (Hall k p Hk).
    replace (Line.id line - Z.of_nat (S k)) with (Line.id line - 1 - Z.of_nat k) by lia.
    exact Hall.
Qed.

Lemma deregister_confirmed self2 :
  BugFinder.bug_part_match_belongs_to_a_bug shape part line c self1 = Ok (true, self2) ->
  exists self3,
    BugFinder.deregister_bug_match shape line c (BugFinder.increment_bug_count self2)
    = Ok self3.
Proof.
  intros H. unfold BugFinder.deregister_bug_match.
  destruct (deregister_loop_ok (rev shape) (Line.id line) c
              (BugFinder.bug_part_matches (BugFinder.increment_bug_count self2)))
    as [m' ->]; [|cbn; eauto].
  apply (confirmed_positions self2 H).
Qed.

Lemma on_bug_part_match_eq :
  BugFinder.on_bug_part_match shape part line c self
  = BugFinder.bug_part_match_belongs_to_a_bug shape part line c self1
    ≫= fun r : bool * BugFinder.t =>
        if r.1
        then BugFinder.deregister_bug_match shape line c
               (BugFinder.increment_bug_count r.2)
        else Ok r.2.
Proof.
  unfold BugFinder.on_bug_part_match. fold self1.
  destruct (BugFinder.bug_part_match_belongs_to_a_bug shape part line c self1)
    as [[b s]|]; reflexivity.
Qed.

(** The step never raises. *)
Lemma on_bug_part_match_ok :
  exists self', BugFinder.on_bug_part_match shape part line c self = Ok self'.
Proof.
  rewrite on_bug_part_match_eq.
  destruct belongs_spec as (bottom & b & self2 & _ & E & _).
  rewrite E. cbn [mbind result_bind fst snd]. destruct b; [|eauto].
  apply (deregister_confirmed self2 E).
Qed.

End OneMatch.

(** ** The loops *)

Lemma for_each_prefix_inv {A S} (P : list A -> S -> Prop) (xs : list A)
    (body : A -> S -> result S) :
  (forall done x rest s, xs = done ++ x :: rest -> P done s ->
     exists s', body x s = Ok s' /\ P (done ++ [x]) s') ->
  forall s, P [] s -> exists s', for_each xs body s = Ok s' /\ P xs s'.
Proof.
  intros Hstep.
  assert (H : forall rest done s, xs = done ++ rest -> P done s ->
            exists s', for_each rest body s = Ok s' /\ P xs s').
  { induction rest as [|x rest IH]; intros done s Hxs HP.
    - rewrite app_nil_r in Hxs. subst. cbn. eauto.
    - destruct (Hstep done x rest s Hxs HP) as (s1 & Hb & HP1).
      cbn [for_each]. rewrite Hb. cbn [mbind result_bind].
      apply (IH (done ++ [x])); [|exact HP1].
      rewrite <- app_assoc. exact Hxs. }
  intros s HP. apply (H xs [] s); [reflexivity | exact HP].
Qed.

Lemma for_each_inv {A S} (P : S -> Prop) (xs : list A) (body : A -> S -> result S) :
  (forall x s, x ∈ xs -> P s -> exists s', body x s = Ok s' /\ P s') ->
  forall s, P s -> exists s', for_each xs body s = Ok s' /\ P s'.
Proof.
  intros Hstep. apply (for_each_prefix_inv (fun _ => P)).
  intros done x rest s -> HP. apply Hstep; [|exact HP].
  apply elem_of_app. right. left.
Qed.

Lemma same_positions_cells self self' l r :
  same_positions self self' ->
  cells (BugFinder.bug_part_matches self') l r
  = cells (BugFinder.bug_part_matches self) l r.
Proof. intros [_ H]. unfold cells. rewrite H. reflexivity. Qed.

Lemma should_skip_bug_part_same part line self :
  same_positions self (BugFinder.should_skip_bug_part_in_line part line self).2.
Proof.
  unfold BugFinder.should_skip_bug_part_in_line.
  destruct (decide _); [|split; reflexivity].
  destruct (BugFinder.get_line _ _) as [d m] eqn:E. cbn [snd].
  split; [reflexivity|]. intros l r. cbn [BugFinder.bug_part_matches].
  rewrite <- (positions_get_line (BugFinder.bug_part_matches self) (Line.id line - 1) l r), E.
  reflexivity.
Qed.

Lemma bug_part_match_exists_same part line self :
  same_positions self (BugFinder.bug_part_match_exists part line self).2.
Proof.
  unfold BugFinder.bug_part_match_exists.
  destruct (BugFinder.get_line _ _) as [d m] eqn:E. cbn [snd].
  split; [reflexivity|]. intros l r. cbn [BugFinder.bug_part_matches].
  rewrite <- (positions_get_line (BugFinder.bug_part_matches self) (Line.id line) l r), E.
  reflexivity.
Qed.

Lemma should_skip_all_same part line self :
  same_positions self (BugFinder.should_skip_all_bug_parts_in_line part line self).2.
Proof.
  unfold BugFinder.should_skip_all_bug_parts_in_line.
  destruct (decide _); [|split; reflexivity].
  pose proof (bug_part_match_exists_same part line self) as H.
  destruct (BugFinder.bug_part_match_exists part line self) as [b s]. exact H.
Qed.

Section Loops.

Variable shape : list Part.t.
Hypothesis shape_compiled : compiled_shape shape.
Variables skip_bug_part skip_all_bug_parts : Part.t -> Line.t -> BugFinder.t -> bool * BugFinder.t.
Variable line : Line.t.
Variable P : BugFinder.t -> Prop.
Hypothesis skip_bug_part_inv : forall part self, P self -> P (skip_bug_part part line self).2.
Hypothesis skip_all_inv : forall part self, P self -> P (skip_all_bug_parts part line self).2.

Lemma find_inv part :
  part ∈ shape ->
  (forall c self, P self ->
     exists self', BugFinder.on_bug_part_match shape part line c self = Ok self' /\ P self') ->
  forall self, P self ->
    exists self',
      BugFinder.find_bug_part_and_bugs_in_landscape_line shape part line self = Ok self'
      /\ P self'.
Proof.
  intros Hin Hstep self HP. unfold BugFinder.find_bug_part_and_bugs_in_landscape_line.
  destruct (shape_compiled part Hin) as (first & rest & ->).
  destruct (finditer_row first rest (Line.pattern line)) as (cols & -> & _).
  cbn [mbind result_bind]. apply (for_each_inv P); [|exact HP].
  intros c s _. apply Hstep.
Qed.

Hypothesis match_inv : forall part c self, part ∈ shape -> P self ->
  exists self', BugFinder.on_bug_part_match shape part line c self = Ok self' /\ P self'.

Lemma parts_loop_inv parts :
  (forall p, p ∈ parts -> p ∈ shape) ->
  forall self, P self ->
    exists self',
      BugFinder.parts_loop shape skip_bug_part skip_all_bug_parts parts line self = Ok self'
      /\ P self'.
Proof.
  induction parts as [|p parts IH]; intros Hsub self HP; [cbn; eauto|].
  assert (Hp : p ∈ shape) by (apply Hsub; left).
  assert (Hsub' : forall q, q ∈ parts -> q ∈ shape) by (intros q Hq; apply Hsub; right; exact Hq).
  cbn [BugFinder.parts_loop].
  pose proof (skip_bug_part_inv p self HP) as H1.
  destruct (skip_bug_part p line self) as [skip self1]. cbn [snd] in H1.
  destruct skip; [apply IH; assumption|].
  destruct (find_inv p Hp (fun c s => match_inv p c s Hp) self1 H1) as (self2 & -> & H2).
  cbn [mbind result_bind].
  pose proof (skip_all_inv p self2 H2) as H3.
  destruct (skip_all_bug_parts p line self2) as [stop self3]. cbn [snd] in H3.
  destruct stop; [eauto | apply IH; assumption].
Qed.

End Loops.

(** ** The shapes [Bug] builds *)

Lemma read_bug_compiled bug_file : compiled_shape (_read_bug bug_file).
Proof.
  intros part (line & -> & Hline)%list_elem_of_fmap.
  destruct (reader_pattern _ _ Hline) as [Hne _]. unfold Part.of_line. cbn.
  destruct (Line.pattern line) as [|first rest]; [congruence | eauto].
Qed.

(** ** The pass never raises *)

Lemma lines_loop_ok shape rule1 rule2 lines self :
  compiled_shape shape ->
  exists self', BugFinder.lines_loop shape rule1 rule2 lines self = Ok self'.
Proof.
  intros Hshape. unfold BugFinder.lines_loop.
  destruct (for_each_inv (fun _ => True) lines
              (BugFinder.parts_loop shape rule1 rule2 shape)) with (s := self)
    as (self' & H & _); [|exact I|eauto].
  intros line s _ _.
  apply (parts_loop_inv shape Hshape rule1 rule2 line (fun _ => True)); auto.
  intros part c s' Hin _.
  destruct (on_bug_part_match_ok shape part line c s' Hin) as [s'' ->]. eauto.
Qed.

Theorem find_bugs_in_landscape_ok bug_file landscape_file :
  exists self,
    BugFinder.find_bugs_in_landscape (_read_bug bug_file) landscape_file BugFinder.init
    = Ok self.
Proof. apply lines_loop_ok, read_bug_compiled. Qed.

(** C10.  In every pass of [find_bugs_in_landscape] (which, for every bug
    file and landscape file, ends without raising), [deregister_bug_match]
    is called right after [bug_part_match_belongs_to_a_bug] answered true
    on the position just registered; at that point, in whatever state the
    engine is, the position is in the list of each of the keys the loop of
    [deregister_bug_match] visits, so that no [list.remove] raises and the
    call returns. *)
Theorem deregister_never_raises (bug_file landscape_file : str) :
  (exists self,
     BugFinder.find_bugs_in_landscape (_read_bug bug_file) landscape_file
       BugFinder.init = Ok self)
  /\ forall shape part line c self self2,
       part ∈ shape ->
       BugFinder.bug_part_match_belongs_to_a_bug shape part line c
         (BugFinder.register_bug_part_match part line c self) = Ok (true, self2) ->
       (forall (k : nat) p, rev shape !! k = Some p ->
          c ∈ cells (BugFinder.bug_part_matches (BugFinder.increment_bug_count self2))
                (Line.id line - Z.of_nat k) (Part.id p))
       /\ exists self3,
            BugFinder.deregister_bug_match shape line c
              (BugFinder.increment_bug_count self2) = Ok self3.
Proof.
  split; [apply find_bugs_in_landscape_ok|].
  intros shape part line c self self2 Hin H. split.
  - apply (confirmed_positions shape part line c self Hin self2 H).
  - apply (deregister_confirmed shape part line c self Hin self2 H).
Qed.

Lemma deregister_never_raises_witness :
  let part := Part.of_line (Line.mk 0 (py "ab")) in
  let line := Line.mk 3 (py "xxab") in
  let self := BugFinder.init in
  let self2 := BugFinder.register_bug_part_match part line 2 self in
  exists self3,
    BugFinder.deregister_bug_match [part] line 2 (BugFinder.increment_bug_count self2)
    = Ok self3.
Proof.
  intros part line self self2.
  apply (proj2 (deregister_never_raises (py "ab") (py "xxab"))
           [part] part line 2%nat self self2).
  - apply list_elem_of_singleton. reflexivity.
  - vm_compute. reflexivity.
Defined.

(** ** A landscape shorter than the bug *)

Lemma quiet_mono seen seen' self :
  (forall l, l ∈ seen -> l ∈ seen') -> quiet seen self -> quiet seen' self.
Proof. intros Hsub [Hc Hl]. split; [exact Hc|]. intros l r H. apply Hsub, (Hl l r H). Qed.

Lemma quiet_same seen self self' :
  same_positions self self' -> quiet seen self -> quiet seen self'.
Proof.
  intros Hs [Hc Hl]. split; [rewrite (proj1 Hs); exact Hc|].
  intros l r. rewrite (same_positions_cells _ _ l r Hs). apply Hl.
Qed.

Lemma length_rev_removelast (shape : list Part.t) :
  length (rev (removelast shape)) = (length shape - 1)%nat.
Proof.
  rewrite length_rev. destruct (decide (shape = [])) as [->|Hne]; [reflexivity|].
  apply last_is_Some in Hne as [x [l' ->]%last_Some].
  rewrite removelast_last, length_app. simpl. lia.
Qed.

Lemma on_bug_part_match_quiet shape part line c self seen :
  part ∈ shape -> Line.id line ∈ seen -> (length seen < length shape)%nat ->
  quiet seen self ->
  exists self',
    BugFinder.on_bug_part_match shape part line c self = Ok self' /\ quiet seen self'.
Proof.
  intros Hin Hline Hlen [Hcount Hcells].
  rewrite (on_bug_part_match_eq shape part line c self).
  destruct (belongs_spec shape part line c self Hin)
    as (bottom & b & self2 & Hb & E & Hc & _ & Hcnt & Hiff).
  rewrite E. cbn [mbind result_bind fst snd].
  assert (Hreg : forall l r,
            cells (BugFinder.bug_part_matches
                     (BugFinder.register_bug_part_match part line c self)) l r <> [] ->
            l ∈ seen).
  { intros l r. rewrite cells_register.
    destruct (decide _) as [[-> _]|]; [intros _; exact Hline | apply Hcells]. }
  destruct b.
  - exfalso. destruct (proj1 Hiff eq_refl) as [_ Hall].
    set (vals := (fun j : nat => Line.id line - Z.of_nat j) <$> seq 0 (length shape)).
    assert (Hnd : NoDup vals).
    { apply NoDup_fmap_2_strong; [|apply NoDup_seq]. intros; lia. }
    assert (Hsub : forall v, v ∈ vals -> v ∈ seen).
    { intros v (j & -> & Hj)%list_elem_of_fmap. apply elem_of_seq in Hj.
      destruct j as [|k]; [rewrite Z.sub_0_r; exact Hline|].
      destruct (lookup_lt_is_Some_2 (rev (removelast shape)) k) as [p Hp].
      { rewrite length_rev_removelast. lia. }
      apply (Hreg _ (Part.id p)). specialize (Hall k p Hp).
      replace (Line.id line - Z.of_nat (S k)) with (Line.id line - 1 - Z.of_nat k) by lia.
      intros Hnil. rewrite Hnil in Hall. inversion Hall. }
    pose proof (submseteq_length _ _ (NoDup_submseteq _ _ Hnd Hsub)) as Hle.
    unfold vals in Hle. rewrite length_fmap, length_seq in Hle. lia.
  - eexists. split; [reflexivity|]. split; [rewrite Hcnt; exact Hcount|].
    intros l r. rewrite Hc. apply Hreg.
Qed.

Lemma lines_loop_quiet shape rule1 rule2 lines :
  compiled_shape shape ->
  (forall part line self, same_positions self (rule1 part line self).2) ->
  (forall part line self, same_positions self (rule2 part line self).2) ->
  (length lines < length shape)%nat ->
  exists self,
    BugFinder.lines_loop shape rule1 rule2 lines BugFinder.init = Ok self
    /\ BugFinder.bug_count self = 0%nat.
Proof.
  intros Hshape H1 H2 Hlen. unfold BugFinder.lines_loop.
  destruct (for_each_prefix_inv (fun done => quiet (Line.id <$> done)) lines
              (BugFinder.parts_loop shape rule1 rule2 shape)) with (s := BugFinder.init)
    as (self & Hrun & Hq & _).
  - intros done line rest s Hlines Hs.
    apply (parts_loop_inv shape Hshape rule1 rule2 line); auto.
    + intros part s' Hs'. apply (quiet_same _ s' _ (H1 part line s') Hs').
    + intros part s' Hs'. apply (quiet_same _ s' _ (H2 part line s') Hs').
    + intros part c s' Hin Hs'. apply on_bug_part_match_quiet; [exact Hin | | | exact Hs'].
      * rewrite fmap_app. apply elem_of_app. right. left.
      * rewrite length_fmap. apply (f_equal (@length Line.t)) in Hlines.
        rewrite !length_app in *. simpl in *. lia.
    + apply (quiet_mono (Line.id <$> done)); [|exact Hs].
      intros l Hl. rewrite fmap_app. apply elem_of_app. left. exact Hl.
  - split; [reflexivity|]. intros l r H. exfalso. apply H. reflexivity.
  - eauto.
Qed.

(** C8.  For every bug file and every landscape file with fewer lines
    that are not blank than the shape has rows, the pass ends without
    raising and the count of bugs is 0. *)
Theorem fewer_lines_no_bug (bug_file landscape_file : str) :
  (length (reader landscape_file) < length (_read_bug bug_file))%nat ->
  main bug_file landscape_file = Ok 0%nat.
Proof.
  intros Hlen. unfold main, BugFinder.find_bugs_in_landscape.
  destruct (lines_loop_quiet (_read_bug bug_file)
              BugFinder.should_skip_bug_part_in_line
              BugFinder.should_skip_all_bug_parts_in_line
              (reader landscape_file)) as (self & -> & Hc).
  - apply read_bug_compiled.
  - intros. apply should_skip_bug_part_same.
  - intros. apply should_skip_all_same.
  - exact Hlen.
  - cbn. rewrite Hc. reflexivity.
Qed.

Lemma fewer_lines_no_bug_witness :
  main (py ("| |" ++ nl ++ "###O" ++ nl ++ "| |" ++ nl))
       (py ("| |" ++ nl ++ nl ++ "###O" ++ nl)) = Ok 0%nat.
Proof.
  apply fewer_lines_no_bug. vm_compute. lia.
Defined.

(** ** Keys of the match table *)

Lemma bug_part_match_exists_fst part line self :
  (BugFinder.bug_part_match_exists part line self).1 = true
  <-> is_Some (BugFinder.positions (BugFinder.bug_part_matches self)
                 (Line.id line) (Part.id part)).
Proof.
  unfold BugFinder.bug_part_match_exists.
  pose proof (get_line_fst (BugFinder.bug_part_matches self) (Line.id line)) as Hd.
  destruct (BugFinder.get_line _ _) as [d m]. cbn [fst] in *. subst d.
  rewrite bool_decide_eq_true. unfold BugFinder.positions.
  destruct (BugFinder.bug_part_matches self !! Line.id line); cbn; [reflexivity|].
  rewrite lookup_empty. reflexivity.
Qed.

Lemma belongs_keys shape part line c s b s2 :
  BugFinder.bug_part_match_belongs_to_a_bug shape part line c s = Ok (b, s2) ->
  keeps_keys s s2.
Proof.
  unfold BugFinder.bug_part_match_belongs_to_a_bug.
  destruct (last shape); [|discriminate].
  destruct (decide _); [|intros [= _ <-]; intros l r H; exact H].
  destruct (BugFinder.belongs_loop _ _ _ _) as [b' m'] eqn:E.
  intros [= _ <-]. destruct (belongs_loop_spec _ _ _ _ _ _ E) as (_ & H & _).
  exact H.
Qed.

Lemma deregister_keys shape line c s s' :
  BugFinder.deregister_bug_match shape line c s = Ok s' -> keeps_keys s s'.
Proof.
  unfold BugFinder.deregister_bug_match.
  destruct (BugFinder.deregister_loop _ _ _ _) as [m'|] eqn:E; [|discriminate].
  intros [= <-]. destruct (deregister_loop_spec _ _ _ _ _ E) as (_ & _ & H). exact H.
Qed.

Lemma register_keys part line c s :
  keeps_keys s (BugFinder.register_bug_part_match part line c s).
Proof.
  intros l r H. rewrite positions_register. destruct (decide _); [eauto | exact H].
Qed.

Lemma on_bug_part_match_keys shape part line c s s' :
  BugFinder.on_bug_part_match shape part line c s = Ok s' -> keeps_keys s s'.
Proof.
  rewrite on_bug_part_match_eq.
  destruct (BugFinder.bug_part_match_belongs_to_a_bug _ _ _ _ _) as [[b s2]|] eqn:E;
    [|discriminate].
  apply belongs_keys in E. cbn [mbind result_bind fst snd].
  intros H l r Hs. apply register_keys with (part := part) (line := line) (c := c) in Hs.
  apply E in Hs. destruct b; [|injection H as <-; exact Hs].
  apply deregister_keys in H. apply H. exact Hs.
Qed.

Lemma lines_loop_keeps_keys shape rule1 rule2 lines self0 :
  compiled_shape shape ->
  (forall part line self, same_positions self (rule1 part line self).2) ->
  (forall part line self, same_positions self (rule2 part line self).2) ->
  exists self,
    BugFinder.lines_loop shape rule1 rule2 lines self0 = Ok self
    /\ keeps_keys self0 self.
Proof.
  intros Hshape H1 H2. unfold BugFinder.lines_loop.
  apply (for_each_inv (keeps_keys self0)); [|intros l r H; exact H].
  intros line s _ Hs.
  apply (parts_loop_inv shape Hshape rule1 rule2 line (keeps_keys self0)); auto.
  - intros part s' Hs' l r H. rewrite (proj2 (H1 part line s')). apply Hs', H.
  - intros part s' Hs' l r H. rewrite (proj2 (H2 part line s')). apply Hs', H.
  - intros part c s' Hin Hs'.
    destruct (on_bug_part_match_ok shape part line c s' Hin) as [s'' E].
    exists s''. split; [exact E|]. intros l r H.
    apply (on_bug_part_match_keys _ _ _ _ _ _ E), Hs', H.
Qed.

(** C2, as the code has it.  The table can hold empty lists: no operation
    of the engine deletes a key.  [bug_part_match_exists] answers true
    exactly when the key exists; so it answers true when a column is
    registered for the key, and it goes on answering true after
    [deregister_bug_match] retired columns of the key, and until the end
    of the pass, whatever is left in the list. *)
Theorem match_table_keeps_keys (part : Part.t) (line : Line.t) (self : BugFinder.t) :
  ((BugFinder.bug_part_match_exists part line self).1 = true
   <-> is_Some (BugFinder.positions (BugFinder.bug_part_matches self)
                  (Line.id line) (Part.id part)))
  /\ (cells (BugFinder.bug_part_matches self) (Line.id line) (Part.id part) <> [] ->
      (BugFinder.bug_part_match_exists part line self).1 = true)
  /\ (forall shape bottom_line c self',
        BugFinder.deregister_bug_match shape bottom_line c self = Ok self' ->
        (BugFinder.bug_part_match_exists part line self).1 = true ->
        (BugFinder.bug_part_match_exists part line self').1 = true)
  /\ (forall bug_file landscape_file,
        exists self',
          BugFinder.find_bugs_in_landscape (_read_bug bug_file) landscape_file self
          = Ok self'
          /\ ((BugFinder.bug_part_match_exists part line self).1 = true ->
              (BugFinder.bug_part_match_exists part line self').1 = true)).
Proof.
  split; [apply bug_part_match_exists_fst|]. split; [|split].
  - intros H. apply bug_part_match_exists_fst. unfold cells in H.
    destruct (BugFinder.positions _ _ _); [eauto | contradiction].
  - intros shape bottom_line c self' E. rewrite !bug_part_match_exists_fst.
    apply (deregister_keys _ _ _ _ _ E).
  - intros bug_file landscape_file.
    destruct (lines_loop_keeps_keys (_read_bug bug_file)
                BugFinder.should_skip_bug_part_in_line
                BugFinder.should_skip_all_bug_parts_in_line
                (reader landscape_file) self) as (self' & E & Hk).
    + apply read_bug_compiled.
    + intros. apply should_skip_bug_part_same.
    + intros. apply should_skip_all_same.
    + exists self'. split; [exact E|]. rewrite !bug_part_match_exists_fst. apply Hk.
Qed.

(** The pass of the bug ["a"] over the landscape ["a"] ends with the key
    (0, 0) holding the empty list, and [bug_part_match_exists] answers
    true for it. *)
Lemma empty_list_in_table :
  exists self,
    BugFinder.find_bugs_in_landscape (_read_bug (py "a")) (py "a") BugFinder.init
    = Ok self
    /\ BugFinder.positions (BugFinder.bug_part_matches self) 0 0 = Some []
    /\ (BugFinder.bug_part_match_exists (Part.of_line (Line.mk 0 (py "a")))
          (Line.mk 0 (py "a")) self).1 = true.
Proof. eexists. split; [vm_compute; reflexivity|]. split; vm_compute; reflexivity. Qed.

Lemma match_table_keeps_keys_witness :
  let part := Part.of_line (Line.mk 0 (py "a")) in
  let line := Line.mk 0 (py "a") in
  let self := BugFinder.register_bug_part_match part line 0 BugFinder.init in
  (BugFinder.bug_part_match_exists part line self).1 = true.
Proof.
  intros part line self.
  apply (proj1 (proj2 (match_table_keeps_keys part line self))).
  vm_compute. discriminate.
Defined.

(** ** Shapes without rows, rows without characters *)

Lemma lines_loop_no_part rule1 rule2 lines self :
  BugFinder.lines_loop [] rule1 rule2 lines self = Ok self.
Proof.
  unfold BugFinder.lines_loop. induction lines as [|line lines IH]; [reflexivity|].
  cbn [for_each BugFinder.parts_loop mbind result_bind]. exact IH.
Qed.

(** C3, as the code has it.  No error is raised when a shape is built: a
    bug file without a row that is not blank gives the empty shape, and
    the pass over any landscape then returns the count 0;
    [_format_pattern] on the empty string returns [None]; and since the
    reader yields no empty row, every part of a shape read from a bug
    file holds a pattern that compiles. *)
Theorem no_invalid_shape_error :
  (forall bug_file landscape_file,
     _read_bug bug_file = [] -> main bug_file landscape_file = Ok 0%nat)
  /\ _format_pattern [] = None
  /\ (forall bug_file part,
        part ∈ _read_bug bug_file ->
        exists p r, Part.pattern part = Some p /\ Re.compile p = Some r).
Proof.
  split; [|split].
  - intros bug_file landscape_file E. unfold main, BugFinder.find_bugs_in_landscape.
    rewrite E, lines_loop_no_part. reflexivity.
  - reflexivity.
  - intros bug_file part Hin.
    destruct (read_bug_compiled bug_file part Hin) as (first & rest & ->).
    destruct (compile_format first rest) as (p & -> & Hc). eauto.
Qed.

Lemma no_invalid_shape_error_witness :
  main (py (nl ++ "  " ++ nl)) (py ("abc" ++ nl)) = Ok 0%nat.
Proof.
  apply (proj1 no_invalid_shape_error). reflexivity.
Defined.

(** A bug file without rows and a part made of the empty row: nothing is
    raised when they are built, and a count comes out of both; the part
    without pattern makes [re.finditer] raise [TypeError] at the first
    line it meets. *)
Lemma empty_shape_counts :
  _read_bug (py "") = []
  /\ main (py "") (py ("abc" ++ nl)) = Ok 0%nat
  /\ Part.of_line (Line.mk 0 []) = Part.mk 0 None
  /\ BugFinder.find_bugs_in_landscape [Part.of_line (Line.mk 0 [])] (py "")
       BugFinder.init = Ok BugFinder.init
  /\ BugFinder.find_bugs_in_landscape [Part.of_line (Line.mk 0 [])] (py "abc")
       BugFinder.init = Raise TypeError.
Proof. repeat split; reflexivity. Qed.

(** ** The identifiers of the parts *)

Lemma enumerate_from_ids {A} (xs : list A) : forall i,
  (Py.enumerate_from i xs).*1 = (fun k : nat => i + Z.of_nat k) <$> seq 0 (length xs).
Proof.
  induction xs as [|x xs IH]; intros i; [reflexivity|].
  cbn [Py.enumerate_from fmap list_fmap length seq fst]. f_equal; [lia|].
  change (list_fmap _ _ fst (Py.enumerate_from (i + 1) xs))
    with ((Py.enumerate_from (i + 1) xs).*1).
  rewrite IH, <- seq_shift, <- list_fmap_compose.
  apply list_fmap_ext. intros _ k _. cbn. lia.
Qed.

(** When no line of the file is blank, the lines the reader yields are
    numbered 0, 1, 2, ... *)
Lemma reader_ids_contiguous file_handler :
  Forall (fun l => Py.rstrip l <> []) (Py.file_lines file_handler) ->
  Line.id <$> reader file_handler
  = Z.of_nat <$> seq 0 (length (Py.file_lines file_handler)).
Proof.
  unfold reader, Py.enumerate. generalize (Py.file_lines file_handler) as ls.
  assert (H : forall ls i, Forall (fun l => Py.rstrip l <> []) ls ->
            Line.id <$> omap reader_line (Py.enumerate_from i ls)
            = (Py.enumerate_from i ls).*1).
  { induction ls as [|l ls IH]; intros i Hall; [reflexivity|].
    inversion Hall as [|? ? Hl Hls]; subst.
    cbn [Py.enumerate_from omap list_omap reader_line].
    destruct (Py.rstrip l) eqn:E; [congruence|].
    cbn [fmap list_fmap Line.id fst]. f_equal. apply IH, Hls. }
  intros ls Hall. rewrite H by exact Hall. rewrite enumerate_from_ids.
  apply list_fmap_ext. intros _ k _. lia.
Qed.

Lemma read_bug_ids bug_file : Part.id <$> _read_bug bug_file = Line.id <$> reader bug_file.
Proof. unfold _read_bug. rewrite <- list_fmap_compose. reflexivity. Qed.

(** Without a blank line in the bug file, part [k] has the identifier [k]. *)
Lemma read_bug_ids_contiguous bug_file :
  Forall (fun l => Py.rstrip l <> []) (Py.file_lines bug_file) ->
  Part.id <$> _read_bug bug_file
  = Z.of_nat <$> seq 0 (length (_read_bug bug_file)).
Proof.
  intros H. rewrite read_bug_ids.
  assert (Hlen : length (_read_bug bug_file) = length (Py.file_lines bug_file)).
  { rewrite <- (length_fmap Part.id), read_bug_ids, (reader_ids_contiguous _ H).
    rewrite length_fmap, length_seq. reflexivity. }
  rewrite Hlen. apply reader_ids_contiguous, H.
Qed.

(** C9, on a bug file with a blank row between two rows.  The reader
    numbers the lines before it drops the blank ones, so the two parts get
    the identifiers 0 and 2: the bottom row of this shape of 2 rows is
    numbered 2.  The engine takes [id - 1] for the row above: it never
    tries the bottom row after line 0, and the bug is not found where the
    same two rows, written without the blank line, are found. *)
Theorem part_ids_with_blank_row :
  Part.id <$> _read_bug (py ("ab" ++ nl ++ nl ++ "cd" ++ nl)) = [0; 2]
  /\ length (_read_bug (py ("ab" ++ nl ++ nl ++ "cd" ++ nl))) = 2%nat
  /\ main (py ("ab" ++ nl ++ nl ++ "cd" ++ nl)) (py ("ab" ++ nl ++ "cd" ++ nl)) = Ok 0%nat
  /\ main (py ("ab" ++ nl ++ "cd" ++ nl)) (py ("ab" ++ nl ++ "cd" ++ nl)) = Ok 1%nat.
Proof. repeat split; reflexivity. Qed.

(** ** The pruning rules *)

(** C1, on a bug file that starts with a blank line.  Its one part gets
    the identifier 1; on line 1 [should_skip_bug_part_in_line] looks for
    the part 0 in line 0, finds nothing and skips the part: the pass
    counts the match of line 0 and misses the one of line 1, which the
    pass without the pruning rules counts. *)
Theorem pruning_changes_count :
  Part.id <$> _read_bug (py (nl ++ "a" ++ nl)) = [1]
  /\ main (py (nl ++ "a" ++ nl)) (py ("a" ++ nl ++ "a" ++ nl)) = Ok 1%nat
  /\ main_unpruned (py (nl ++ "a" ++ nl)) (py ("a" ++ nl ++ "a" ++ nl)) = Ok 2%nat.
Proof. repeat split; reflexivity. Qed.

(** ** The pass as a trace *)

Lemma same_positions_refl s : same_positions s s.
Proof. split; reflexivity. Qed.

Lemma runs_app shape s1 evs1 s2 evs2 s3 :
  runs shape s1 evs1 s2 -> runs shape s2 evs2 s3 -> runs shape s1 (evs1 ++ evs2) s3.
Proof.
  induction 1 as [s|s s' evs s'' Hs _ IH|s part line c s' evs s'' Hin Hm _ IH];
    intros H2; cbn [app].
  - exact H2.
  - apply (runs_probe _ _ _ _ _ Hs), IH, H2.
  - apply (runs_match _ _ _ _ _ _ _ _ Hin Hm), IH, H2.
Qed.

Lemma runs_probe_last shape s evs s' s'' :
  runs shape s evs s' -> same_positions s' s'' -> runs shape s evs s''.
Proof.
  intros H Hs. rewrite <- (app_nil_r evs). apply (runs_app _ _ _ _ _ _ H).
  apply (runs_probe _ _ _ _ _ Hs), runs_done.
Qed.

Section Trace.

Variable shape : list Part.t.
Hypothesis shape_compiled : compiled_shape shape.
Hypothesis shape_sorted : StronglySorted Z.lt (Part.id <$> shape).
Variables rule1 rule2 : Part.t -> Line.t -> BugFinder.t -> bool * BugFinder.t.
Hypothesis rule1_same : forall part line self, same_positions self (rule1 part line self).2.
Hypothesis rule2_same : forall part line self, same_positions self (rule2 part line self).2.

Lemma matches_runs part line : part ∈ shape -> forall cols s,
  StronglySorted lt cols ->
  exists s' evs,
    for_each cols (BugFinder.on_bug_part_match shape part line) s = Ok s'
    /\ runs shape s evs s'
    /\ StronglySorted ev_lt evs
    /\ Forall (fun e => ev_line e = Line.id line /\ ev_part e = Part.id part) evs
    /\ ev_col <$> evs = cols.
Proof.
  intros Hin. induction cols as [|c cols IH]; intros s Hcols.
  - exists s, []. repeat split; constructor.
  - apply StronglySorted_cons in Hcols as [Hc Hcols].
    destruct (on_bug_part_match_ok shape part line c s Hin) as [s1 E1].
    destruct (IH s1 Hcols) as (s' & evs & E & Hr & Hs & Hf & Hcs).
    exists s', (Event (Line.id line) (Part.id part) c (counted s s1) :: evs).
    cbn [for_each]. rewrite E1. cbn [mbind result_bind].
    split; [exact E|]. split; [apply (runs_match _ _ _ _ _ _ _ _ Hin E1 Hr)|].
    split; [|split; [constructor; [split; reflexivity | exact Hf]
                    | rewrite fmap_cons, Hcs; reflexivity]].
    constructor; [exact Hs|]. rewrite Forall_forall in Hf. rewrite Forall_forall in Hc.
    apply Forall_forall. intros e He. destruct (Hf e He) as (Hl & Hp).
    right. split; [symmetry; exact Hl|]. right. split; [symmetry; exact Hp|].
    cbn. apply Hc. rewrite <- Hcs. apply list_elem_of_fmap_2, He.
Qed.

Lemma find_runs part line s :
  part ∈ shape ->
  exists s' evs,
    BugFinder.find_bug_part_and_bugs_in_landscape_line shape part line s = Ok s'
    /\ runs shape s evs s'
    /\ StronglySorted ev_lt evs
    /\ Forall (fun e => ev_line e = Line.id line /\ ev_part e = Part.id part) evs
    /\ ev_col <$> evs = match_cols part line.
Proof.
  intros Hin. unfold BugFinder.find_bug_part_and_bugs_in_landscape_line, match_cols.
  destruct (shape_compiled part Hin) as (first & rest & ->).
  destruct (finditer_row first rest (Line.pattern line)) as (cols & -> & Hs & _).
  cbn [mbind result_bind]. apply (matches_runs part line Hin cols s Hs).
Qed.



End Trace.

(** ** The numbering of the lines *)

Lemma reader_ids_from ls : forall i,
  StronglySorted Z.lt (Line.id <$> omap reader_line (Py.enumerate_from i ls))
  /\ Forall (Z.le i) (Line.id <$> omap reader_line (Py.enumerate_from i ls)).
Proof.
  induction ls as [|l ls IH]; intros i; [split; constructor|].
  destruct (IH (i + 1)) as [Hs Hf].
  assert (Hf' : Forall (Z.le i) (Line.id <$> omap reader_line (Py.enumerate_from (i + 1) ls))).
  { eapply Forall_impl; [exact Hf|]. intros; lia. }
  cbn [Py.enumerate_from omap list_omap].
  destruct (reader_line (i, l)) as [line|] eqn:E; [|split; assumption].
  apply reader_line_spec in E as (Hid & _). cbn in Hid.
  rewrite fmap_cons, Hid. split.
  - constructor; [exact Hs|]. eapply Forall_impl; [exact Hf|]. intros; lia.
  - constructor; [lia | exact Hf'].
Qed.

Lemma reader_ids_sorted file_handler :
  StronglySorted Z.lt (Line.id <$> reader file_handler).
Proof. apply reader_ids_from. Qed.

Lemma reader_ids_nonneg file_handler :
  Forall (Z.le 0) (Line.id <$> reader file_handler).
Proof. apply reader_ids_from. Qed.


Lemma sorted_NoDup (ids : list Z) : StronglySorted Z.lt ids -> NoDup ids.
Proof.
  induction 1 as [|x ids _ IH Hx]; constructor; [|exact IH].
  intros Hin. rewrite Forall_forall in Hx. specialize (Hx x Hin). lia.
Qed.

(** ** Retirement *)

Lemma cells_init l r : cells (BugFinder.bug_part_matches BugFinder.init) l r = [].
Proof. reflexivity. Qed.

Lemma retired_init shape : retired shape [] BugFinder.init.
Proof.
  split.
  - intros l r c H. rewrite cells_init in H. inversion H.
  - intros l r. rewrite cells_init. constructor.
  - intros e H. inversion H.
  - intros e H. inversion H.
  - reflexivity.
Qed.

Lemma retired_probe shape pre s s' :
  same_positions s s' -> retired shape pre s -> retired shape pre s'.
Proof.
  intros Hs [H1 H2 H3 H4 H5]. split.
  - intros l r c. rewrite (same_positions_cells _ _ l r Hs). apply H1.
  - intros l r. rewrite (same_positions_cells _ _ l r Hs). apply H2.
  - exact H3.
  - intros e He Hc k p Hp. rewrite (same_positions_cells _ _ _ _ Hs). apply (H4 e He Hc k p Hp).
  - rewrite (proj1 Hs). exact H5.
Qed.

Lemma deregister_loop_cases parts ln c m m' l r :
  BugFinder.deregister_loop parts ln c m = Ok m' ->
  (exists (k : nat) p, parts !! k = Some p /\ l = ln - Z.of_nat k /\ r = Part.id p
     /\ BugFinder.list_remove c (cells m l r) = Ok (cells m' l r))
  \/ cells m' l r = cells m l r.
Proof.
  intros H. destruct (deregister_loop_spec _ _ _ _ _ H) as (H1 & H2 & _).
  destruct (decide (0 <= ln - l)) as [Hle|Hgt].
  - destruct (parts !! Z.to_nat (ln - l)) as [p|] eqn:Ep.
    + destruct (decide (r = Part.id p)) as [->|Hr].
      * left. exists (Z.to_nat (ln - l)), p. split; [exact Ep|].
        assert (Hl : l = ln - Z.of_nat (Z.to_nat (ln - l))) by lia.
        split; [exact Hl|]. split; [reflexivity|].
        pose proof (H1 _ _ Ep) as Hrm.
        replace (ln - Z.of_nat (Z.to_nat (ln - l))) with l in Hrm by lia. exact Hrm.
      * right. apply H2. intros k p' Hk [-> ->].
        replace (Z.to_nat (ln - (ln - Z.of_nat k))) with k in Ep by lia.
        congruence.
    + right. apply H2. intros k p' Hk [-> _].
      replace (Z.to_nat (ln - (ln - Z.of_nat k))) with k in Ep by lia.
      congruence.
  - right. apply H2. intros k p' _ [-> _]. lia.
Qed.

Lemma occurrences_snoc pre e :
  occurrences (pre ++ [e])
  = occurrences pre ++ (if ev_counted e then [(ev_line e, ev_col e)] else []).
Proof.
  unfold occurrences. rewrite omap_app. f_equal. cbn. unfold occurrence_of.
  destruct (ev_counted e); reflexivity.
Qed.

Lemma registered_fresh shape pre s line part c b :
  retired shape pre s ->
  Forall (fun e => ev_lt e (Event (Line.id line) (Part.id part) c b)) pre ->
  c ∉ cells (BugFinder.bug_part_matches s) (Line.id line) (Part.id part).
Proof.
  intros before later H. destruct (ret_registered _ _ _ before _ _ _ H) as [b' Hb].
  rewrite Forall_forall in later. specialize (later _ Hb).
  unfold ev_lt in later. cbn in later. lia.
Qed.

Lemma register_registered shape pre s line part c b l r y :
  retired shape pre s ->
  y ∈ cells (BugFinder.bug_part_matches
               (BugFinder.register_bug_part_match part line c s)) l r ->
  exists b', Event l r y b' ∈ pre ++ [Event (Line.id line) (Part.id part) c b].
Proof.
  intros before. rewrite cells_register. destruct (decide _) as [[-> ->]|_].
  - intros [H|H]%elem_of_app.
    + destruct (ret_registered _ _ _ before _ _ _ H) as [b' Hb].
      exists b'. apply elem_of_app. left. exact Hb.
    + apply list_elem_of_singleton in H as ->. exists b.
      apply elem_of_app. right. left.
  - intros H. destruct (ret_registered _ _ _ before _ _ _ H) as [b' Hb].
    exists b'. apply elem_of_app. left. exact Hb.
Qed.

Lemma register_nodup shape pre s line part c b l r :
  retired shape pre s ->
  Forall (fun e => ev_lt e (Event (Line.id line) (Part.id part) c b)) pre ->
  NoDup (cells (BugFinder.bug_part_matches
                  (BugFinder.register_bug_part_match part line c s)) l r).
Proof.
  intros before later. rewrite cells_register. destruct (decide _) as [[-> ->]|_];
    [|apply (ret_nodup _ _ _ before)].
  apply NoDup_app. split; [apply (ret_nodup _ _ _ before)|]. split.
  - intros x Hx ->%list_elem_of_singleton.
    exact (registered_fresh _ _ _ _ _ _ _ before later Hx).
  - apply NoDup_singleton.
Qed.

Lemma register_absent shape pre s line part c b e :
  retired shape pre s ->
  Forall (fun e => ev_lt e (Event (Line.id line) (Part.id part) c b)) pre ->
  e ∈ pre -> ev_counted e = true ->
  forall (k : nat) p, rev shape !! k = Some p ->
    ev_col e ∉ cells (BugFinder.bug_part_matches
                        (BugFinder.register_bug_part_match part line c s))
                 (ev_line e - Z.of_nat k) (Part.id p).
Proof.
  intros before later He Hc k p Hp. rewrite cells_register.
  pose proof (ret_absent _ _ _ before e He Hc k p Hp) as Habs.
  destruct (decide _) as [[Hl Hr]|_]; [|exact Habs].
  rewrite Hl, Hr in Habs. intros [H|H]%elem_of_app; [exact (Habs H)|].
  apply list_elem_of_singleton in H.
  destruct (ret_bottom _ _ _ before e He Hc) as (bottom & Hb & Hpart).
  rewrite Forall_forall in later. specialize (later _ He).
  unfold ev_lt in later. cbn in later.
  destruct k as [|k]; [|lia].
  rewrite (rev_bottom _ _ Hb) in Hp. injection Hp as <-. lia.
Qed.

(** One call of [on_bug_part_match], later in the order than the calls
    before it, keeps the table as [retired] describes it. *)
Lemma retired_step shape pre s part line c s' :
  part ∈ shape ->
  retired shape pre s ->
  BugFinder.on_bug_part_match shape part line c s = Ok s' ->
  Forall (fun e => ev_lt e (Event (Line.id line) (Part.id part) c (counted s s'))) pre ->
  retired shape (pre ++ [Event (Line.id line) (Part.id part) c (counted s s')]) s'.
Proof.
  intros part_in_shape before Hstep later.
  rewrite on_bug_part_match_eq in Hstep.
  destruct (belongs_spec shape part line c s part_in_shape)
    as (bottom & b & self2 & Hb & E & Hc & _ & Hcnt & Hiff).
  rewrite E in Hstep. cbn [mbind result_bind fst snd] in Hstep.
  set (new := Event (Line.id line) (Part.id part) c (counted s s')) in *.
  assert (Hreg : forall l r y,
            y ∈ cells (BugFinder.bug_part_matches self2) l r ->
            exists b', Event l r y b' ∈ pre ++ [new]).
  { intros l r y. rewrite Hc. apply (register_registered shape), before. }
  assert (Hnd : forall l r, NoDup (cells (BugFinder.bug_part_matches self2) l r)).
  { intros l r. rewrite Hc. apply (register_nodup _ _ _ _ _ _ _ _ _ before later). }
  assert (Habs : forall e, e ∈ pre -> ev_counted e = true ->
            forall (k : nat) p, rev shape !! k = Some p ->
              ev_col e ∉ cells (BugFinder.bug_part_matches self2)
                           (ev_line e - Z.of_nat k) (Part.id p)).
  { intros e He Hce k p Hp. rewrite Hc.
    apply (register_absent _ _ _ _ _ _ _ _ before later He Hce k p Hp). }
  clear Hc. destruct b.
  - unfold BugFinder.deregister_bug_match in Hstep.
    destruct (BugFinder.deregister_loop _ _ _ _) as [m'|] eqn:Ed; [|discriminate].
    cbn [mbind result_bind] in Hstep. injection Hstep as Hs'.
    cbn [BugFinder.increment_bug_count BugFinder.bug_part_matches BugFinder.bug_count]
      in Hs', Ed.
    assert (Hcounted : counted s s' = true).
    { unfold counted. rewrite <- Hs'. cbn [BugFinder.bug_count]. rewrite Hcnt.
      apply negb_true_iff, Nat.eqb_neq. lia. }
    assert (Hm' : BugFinder.bug_part_matches s' = m') by (rewrite <- Hs'; reflexivity).
    assert (Hsub : forall l r y, y ∈ cells m' l r ->
              y ∈ cells (BugFinder.bug_part_matches self2) l r).
    { intros l r y Hy.
      destruct (deregister_loop_cases _ _ _ _ _ l r Ed) as [(k & p & _ & _ & _ & Hrm)|Heq].
      - apply (list_remove_subseteq _ _ _ _ Hrm Hy).
      - rewrite <- Heq. exact Hy. }
    split; rewrite ?Hm'.
    + intros l r y Hy. apply Hreg, Hsub, Hy.
    + intros l r.
      destruct (deregister_loop_cases _ _ _ _ _ l r Ed) as [(k & p & _ & _ & _ & Hrm)|Heq].
      * apply (list_remove_NoDup _ _ _ Hrm), Hnd.
      * rewrite Heq. apply Hnd.
    + intros e [He|He]%elem_of_app Hce; [apply (ret_bottom _ _ _ before e He Hce)|].
      apply list_elem_of_singleton in He as ->. exists bottom. split; [exact Hb|].
      apply (proj1 Hiff eq_refl).
    + intros e [He|He]%elem_of_app Hce k p Hp.
      * intros Hy. apply (Habs e He Hce k p Hp), Hsub, Hy.
      * apply list_elem_of_singleton in He as ->. cbn [ev_col ev_line new].
        destruct (deregister_loop_spec _ _ _ _ _ Ed) as (H1 & _).
        apply (list_remove_NoDup _ _ _ (H1 k p Hp)), Hnd.
    + rewrite occurrences_snoc. cbn [ev_counted new]. rewrite Hcounted.
      rewrite length_app. cbn [length]. rewrite <- Hs'. cbn [BugFinder.bug_count].
      rewrite Hcnt, (ret_count _ _ _ before). lia.
  - injection Hstep as Hs'.
    assert (Hcounted : counted s s' = false).
    { unfold counted. rewrite <- Hs', Hcnt. apply negb_false_iff, Nat.eqb_refl. }
    split; rewrite <- ?Hs'.
    + exact Hreg.
    + exact Hnd.
    + intros e [He|He]%elem_of_app Hce; [apply (ret_bottom _ _ _ before e He Hce)|].
      apply list_elem_of_singleton in He as ->. cbn in Hce. congruence.
    + intros e [He|He]%elem_of_app Hce k p Hp.
      * apply (Habs e He Hce k p Hp).
      * apply list_elem_of_singleton in He as ->. cbn in Hce. congruence.
    + rewrite occurrences_snoc. cbn [ev_counted new]. rewrite Hcounted, app_nil_r.
      rewrite Hcnt. apply (ret_count _ _ _ before).
Qed.

Lemma retired_runs shape s evs s' :
  runs shape s evs s' ->
  forall pre, retired shape pre s -> StronglySorted ev_lt (pre ++ evs) ->
    retired shape (pre ++ evs) s'.
Proof.
  induction 1 as [s|s s1 evs s2 Hs _ IH|s part line c s1 evs s2 Hin Hm _ IH];
    intros pre Hpre Hsorted.
  - rewrite app_nil_r. exact Hpre.
  - apply IH; [apply (retired_probe _ _ _ _ Hs Hpre) | exact Hsorted].
  - rewrite cons_middle, app_assoc in Hsorted |- *. apply IH; [|exact Hsorted].
    apply retired_step; try assumption.
    apply StronglySorted_app_1_l, StronglySorted_app in Hsorted as (Hlt & _ & _).
    apply Forall_forall. intros e He. apply (Hlt e _ He). left.
Qed.

Lemma elem_of_occurrences evs L c :
  (L, c) ∈ occurrences evs
  <-> exists e, e ∈ evs /\ ev_counted e = true /\ ev_line e = L /\ ev_col e = c.
Proof.
  unfold occurrences. rewrite list_elem_of_omap. unfold occurrence_of. split.
  - intros (e & He & Ho). exists e. destruct (ev_counted e); [|discriminate].
    injection Ho as <- <-. repeat split. exact He.
  - intros (e & He & Hc & <- & <-). exists e. rewrite Hc. split; [exact He | reflexivity].
Qed.

Lemma occurrences_NoDup shape evs :
  StronglySorted ev_lt evs ->
  (forall e, e ∈ evs -> ev_counted e = true ->
     exists bottom, last shape = Some bottom /\ ev_part e = Part.id bottom) ->
  NoDup (occurrences evs).
Proof.
  induction 1 as [|e evs Hs IH He]; intros Hb; [constructor|].
  assert (IH' : NoDup (occurrences evs)).
  { apply IH. intros e' He'. apply Hb. right. exact He'. }
  unfold occurrences. cbn [omap list_omap]. fold (occurrences evs).
  unfold occurrence_of at 1. destruct (ev_counted e) eqn:Hc; [|exact IH'].
  constructor; [|exact IH'].
  intros (e' & He' & Hc' & Hl & Hcol)%elem_of_occurrences.
  destruct (Hb e (list_elem_of_here _ _) Hc) as (b1 & Hb1 & Hp1).
  destruct (Hb e' (list_elem_of_further _ _ _ He') Hc') as (b2 & Hb2 & Hp2).
  rewrite Forall_forall in He. specialize (He e' He'). unfold ev_lt in He.
  rewrite Hb1 in Hb2. injection Hb2 as <-. lia.
Qed.


Lemma rev_lookup_Some {A} (l : list A) i x :
  rev l !! i = Some x <-> l !! (length l - S i)%nat = Some x /\ (i < length l)%nat.
Proof. rewrite rev_alt. apply reverse_lookup_Some. Qed.






(** ** Which calls count an occurrence *)

Lemma on_bug_part_match_inv shape part line c s s' :
  part ∈ shape ->
  BugFinder.on_bug_part_match shape part line c s = Ok s' ->
  exists bottom self2,
    last shape = Some bottom
    /\ (forall l r,
          cells (BugFinder.bug_part_matches self2) l r
          = cells (BugFinder.bug_part_matches
                     (BugFinder.register_bug_part_match part line c s)) l r)
    /\ (counted s s' = true <->
          Part.id part = Part.id bottom
          /\ forall (k : nat) p, rev (removelast shape) !! k = Some p ->
               c ∈ cells (BugFinder.bug_part_matches
                            (BugFinder.register_bug_part_match part line c s))
                     (Line.id line - 1 - Z.of_nat k) (Part.id p))
    /\ (if counted s s'
        then BugFinder.deregister_bug_match shape line c
               (BugFinder.increment_bug_count self2) = Ok s'
        else s' = self2).
Proof.
  intros Hin Hstep. rewrite on_bug_part_match_eq in Hstep.
  destruct (belongs_spec shape part line c s Hin)
    as (bottom & b & self2 & Hb & E & Hc & _ & Hcnt & Hiff).
  rewrite E in Hstep. cbn [mbind result_bind fst snd] in Hstep.
  exists bottom, self2. split; [exact Hb|]. split; [exact Hc|].
  assert (Hcounted : counted s s' = b).
  { unfold counted. destruct b.
    - unfold BugFinder.deregister_bug_match in Hstep.
      destruct (BugFinder.deregister_loop _ _ _ _); [|discriminate].
      injection Hstep as <-. cbn [BugFinder.bug_count BugFinder.increment_bug_count].
      rewrite Hcnt. apply negb_true_iff, Nat.eqb_neq. lia.
    - injection Hstep as <-. rewrite Hcnt. apply negb_false_iff, Nat.eqb_refl. }
  rewrite Hcounted. split; [exact Hiff|].
  destruct b; [exact Hstep | injection Hstep as <-; reflexivity].
Qed.

Lemma counted_iff_init shape : counted_iff shape [] BugFinder.init.
Proof.
  split; [apply retired_init | intros e H; inversion H | intros e H; inversion H].
Qed.

Lemma counted_iff_probe shape pre s s' :
  same_positions s s' -> counted_iff shape pre s -> counted_iff shape pre s'.
Proof.
  intros Hs [H1 H2 H3]. split; [apply (retired_probe _ _ _ _ Hs H1) | | exact H3].
  intros e He. rewrite (same_positions_cells _ _ _ _ Hs). apply H2, He.
Qed.

Lemma counted_iff_step shape pre s part line c s' :
  NoDup (Part.id <$> shape) ->
  part ∈ shape ->
  counted_iff shape pre s ->
  BugFinder.on_bug_part_match shape part line c s = Ok s' ->
  Forall (fun e => ev_lt e (Event (Line.id line) (Part.id part) c (counted s s'))) pre ->
  counted_iff shape (pre ++ [Event (Line.id line) (Part.id part) c (counted s s')]) s'.
Proof.
  intros Hnd Hin [Hret Hpres Hflag] Hstep later.
  pose proof (retired_step _ _ _ _ _ _ _ Hin Hret Hstep later) as Hret'.
  destruct (on_bug_part_match_inv _ _ _ _ _ _ Hin Hstep)
    as (bottom & self2 & Hb & Hc & Hiff & Hs').
  set (new := Event (Line.id line) (Part.id part) c (counted s s')) in *.
  assert (Hlater : forall e, e ∈ pre -> ev_lt e new)
    by (apply Forall_forall, later).
  assert (Hkeep : forall l r y,
            y ∈ cells (BugFinder.bug_part_matches s) l r ->
            y ∈ cells (BugFinder.bug_part_matches self2) l r).
  { intros l r y Hy. rewrite Hc, cells_register.
    destruct (decide _) as [[-> ->]|]; [apply elem_of_app; left|]; exact Hy. }
  assert (Hnew : c ∈ cells (BugFinder.bug_part_matches self2) (Line.id line) (Part.id part)).
  { rewrite Hc, cells_register. destruct (decide _) as [|[]]; [|split; reflexivity].
    apply elem_of_app. right. left. }
  (* the position of a call, after this call *)
  assert (Hafter : forall l r y,
            y ∈ cells (BugFinder.bug_part_matches self2) l r ->
            y ∈ cells (BugFinder.bug_part_matches s') l r
            \/ (counted s s' = true /\ y = c
                /\ exists (k : nat) p, rev shape !! k = Some p
                     /\ l = Line.id line - Z.of_nat k /\ r = Part.id p)).
  { intros l r y Hy. destruct (counted s s') eqn:Hcnt; [|subst s'; left; exact Hy].
    unfold BugFinder.deregister_bug_match in Hs'.
    destruct (BugFinder.deregister_loop _ _ _ _) as [m'|] eqn:Ed; [|discriminate].
    injection Hs' as <-. cbn [BugFinder.bug_part_matches BugFinder.increment_bug_count] in *.
    destruct (deregister_loop_cases _ _ _ _ _ l r Ed) as [(k & p & Hp & -> & -> & Hrm)|Heq].
    - destruct (decide (y = c)) as [->|Hy'].
      + right. repeat split. eauto.
      + left. apply (list_remove_other _ _ _ _ Hrm Hy'), Hy.
    - left. rewrite Heq. exact Hy. }
  split; [exact Hret'| |].
  - intros e [He|He]%elem_of_app.
    + destruct (Hpres e He) as [Hy|(e' & k & p & He' & Hrest)].
      * destruct (Hafter _ _ _ (Hkeep _ _ _ Hy)) as [?|(Hcnt & Hcol & k & p & Hp & Hl & Hr)];
          [left; assumption|].
        right. exists new, k, p. split; [apply elem_of_app; right; left|].
        split; [exact Hcnt|]. repeat split; assumption.
      * right. exists e', k, p. split; [apply elem_of_app; left; exact He' | exact Hrest].
    + apply list_elem_of_singleton in He as ->.
      destruct (Hafter _ _ _ Hnew) as [?|(Hcnt & _ & k & p & Hp & Hl & Hr)];
        [left; assumption|].
      right. exists new, k, p. split; [apply elem_of_app; right; left|].
      split; [exact Hcnt|]. repeat split; assumption.
  - intros e [He|He]%elem_of_app.
    + rewrite (Hflag e He). split; intros [Hbot Hall]; (split; [exact Hbot|]);
        intros k p Hp; destruct (Hall k p Hp) as [b Hev].
      * exists b. apply elem_of_app. left. exact Hev.
      * exists b. apply elem_of_app in Hev as [Hev|Hev]; [exact Hev|].
        apply list_elem_of_singleton, (f_equal ev_line) in Hev. cbn in Hev.
        specialize (Hlater e He). unfold ev_lt in Hlater. cbn in Hlater. lia.
    + apply list_elem_of_singleton in He as ->. cbn [ev_counted ev_part ev_line ev_col new].
      rewrite Hiff. split; intros [Hid Hall].
      * split; [eauto|]. intros k p Hp. specialize (Hall k p Hp).
        rewrite cells_register in Hall.
        destruct (decide _) as [[? _]|_] in Hall; [lia|].
        destruct (ret_registered _ _ _ Hret _ _ _ Hall) as [b Hev].
        exists b. apply elem_of_app. left. exact Hev.
      * destruct Hid as (bottom' & Hb' & Hid). rewrite Hb in Hb'. injection Hb' as <-.
        split; [exact Hid|]. intros k p Hp. destruct (Hall k p Hp) as [b Hev].
        apply elem_of_app in Hev as [Hev|Hev];
          [|apply list_elem_of_singleton, (f_equal ev_line) in Hev; cbn in Hev; lia].
        rewrite cells_register. destruct (decide _) as [[? _]|_]; [lia|].
        destruct (Hpres _ Hev) as [Hy|(e' & k' & p' & He' & Hcnt' & Hp' & Hl & Hr & Hcol)];
          [exact Hy|]. exfalso. cbn in Hl, Hr, Hcol.
        assert (Hk : k' = S k).
        { apply (NoDup_lookup (Part.id <$> rev shape) k' (S k) (Part.id p)).
          - rewrite <- Permutation_rev. exact Hnd.
          - rewrite list_lookup_fmap, Hp'. cbn. congruence.
          - rewrite list_lookup_fmap, (rev_bottom _ _ Hb).
            change ((bottom :: rev (removelast shape)) !! S k)
              with (rev (removelast shape) !! k).
            rewrite Hp. reflexivity. }
        destruct (ret_bottom _ _ _ Hret e' He' Hcnt') as (bottom' & Hb' & Hpart').
        rewrite Hb in Hb'. injection Hb' as <-.
        specialize (Hlater e' He'). unfold ev_lt in Hlater. cbn in Hlater. lia.
Qed.

Lemma counted_iff_runs shape s evs s' :
  NoDup (Part.id <$> shape) ->
  runs shape s evs s' ->
  forall pre, counted_iff shape pre s -> StronglySorted ev_lt (pre ++ evs) ->
    counted_iff shape (pre ++ evs) s'.
Proof.
  intros Hnd.
  induction 1 as [s|s s1 evs s2 Hs _ IH|s part line c s1 evs s2 Hin Hm _ IH];
    intros pre Hpre Hsorted.
  - rewrite app_nil_r. exact Hpre.
  - apply IH; [apply (counted_iff_probe _ _ _ _ Hs Hpre) | exact Hsorted].
  - rewrite cons_middle, app_assoc in Hsorted |- *. apply IH; [|exact Hsorted].
    apply counted_iff_step; try assumption.
    apply StronglySorted_app_1_l, StronglySorted_app in Hsorted as (Hlt & _ & _).
    apply Forall_forall. intros e He. apply (Hlt e _ He). left.
Qed.

(** ** What the pruning rules skip *)

Lemma should_skip_bug_part_true part line s :
  (BugFinder.should_skip_bug_part_in_line part line s).1 = true ->
  Line.id line - 1 >= 0 /\ Part.id part - 1 >= 0
  /\ BugFinder.positions (BugFinder.bug_part_matches s)
       (Line.id line - 1) (Part.id part - 1) = None.
Proof.
  unfold BugFinder.should_skip_bug_part_in_line.
  destruct (decide _) as [[H1 H2]|]; [|discriminate].
  pose proof (get_line_fst (BugFinder.bug_part_matches s) (Line.id line - 1)) as Hd.
  destruct (BugFinder.get_line _ _) as [d m]. cbn [fst] in *. subst d.
  intros Hn%negb_true_iff%bool_decide_eq_false.
  split; [exact H1|]. split; [exact H2|]. unfold BugFinder.positions.
  destruct (BugFinder.bug_part_matches s !! (Line.id line - 1)) as [d|];
    cbn in *; [|reflexivity].
  destruct (d !! (Part.id part - 1)); [|reflexivity]. exfalso. apply Hn. eauto.
Qed.

Lemma should_skip_all_true part line s :
  (BugFinder.should_skip_all_bug_parts_in_line part line s).1 = true ->
  Line.id line - Part.id part <= 0.
Proof.
  unfold BugFinder.should_skip_all_bug_parts_in_line.
  destruct (decide _) as [H|]; [intros _; exact H | discriminate].
Qed.

Lemma on_bug_part_match_key shape part line c s s' :
  BugFinder.on_bug_part_match shape part line c s = Ok s' ->
  is_Some (BugFinder.positions (BugFinder.bug_part_matches s')
             (Line.id line) (Part.id part)).
Proof.
  rewrite on_bug_part_match_eq.
  destruct (BugFinder.bug_part_match_belongs_to_a_bug _ _ _ _ _) as [[b s2]|] eqn:E;
    [|discriminate].
  apply belongs_keys in E. cbn [mbind result_bind fst snd].
  assert (H2 : is_Some (BugFinder.positions (BugFinder.bug_part_matches s2)
                          (Line.id line) (Part.id part))).
  { apply E. rewrite positions_register.
    destruct (decide _) as [|[]]; [eauto | split; reflexivity]. }
  destruct b; [|intros [= <-]; exact H2].
  intros H%deregister_keys. apply H. exact H2.
Qed.

Lemma keys_of_same pre s s' : same_positions s s' -> keys_of pre s -> keys_of pre s'.
Proof. intros Hs H e He. rewrite (proj2 Hs). apply H, He. Qed.

Lemma runs_keys shape s evs s' :
  runs shape s evs s' -> forall pre, keys_of pre s -> keys_of (pre ++ evs) s'.
Proof.
  induction 1 as [s|s s1 evs s2 Hs _ IH|s part line c s1 evs s2 Hin Hm _ IH];
    intros pre Hpre.
  - rewrite app_nil_r. exact Hpre.
  - apply IH, (keys_of_same _ _ _ Hs Hpre).
  - rewrite cons_middle, app_assoc. apply IH.
    intros e [He|He]%elem_of_app.
    + apply (on_bug_part_match_keys _ _ _ _ _ _ Hm), Hpre, He.
    + apply list_elem_of_singleton in He as ->. apply (on_bug_part_match_key _ _ _ _ _ _ Hm).
Qed.

Lemma tried_app_l pre evs l j c : tried pre l j c -> tried (pre ++ evs) l j c.
Proof. intros [b H]. exists b. apply elem_of_app. left. exact H. Qed.

Lemma tried_app_r pre evs l j c : tried evs l j c -> tried (pre ++ evs) l j c.
Proof. intros [b H]. exists b. apply elem_of_app. right. exact H. Qed.

(** ** A pass over a shape whose parts are numbered from 0

    With rules that skip a part only when the part above was never
    registered in the line before, and leave a line only when the line
    number does not exceed the part's identifier, the trace holds every
    match that can take part in an occurrence, and the pass counts the
    occurrences of the shape, each one once. *)

Section Complete.

Variables (shape : list Part.t) (lines : list Line.t).
Hypothesis shape_compiled : compiled_shape shape.
Hypothesis shape_ids : Part.id <$> shape = Z.of_nat <$> seq 0 (length shape).
Hypothesis lines_sorted : StronglySorted Z.lt (Line.id <$> lines).
Hypothesis lines_nonneg : Forall (Z.le 0) (Line.id <$> lines).
Variables rule1 rule2 : Part.t -> Line.t -> BugFinder.t -> bool * BugFinder.t.
Hypothesis rule1_same : forall part line self, same_positions self (rule1 part line self).2.
Hypothesis rule2_same : forall part line self, same_positions self (rule2 part line self).2.
Hypothesis rule1_sound : forall part line self,
  (rule1 part line self).1 = true ->
  Line.id line - 1 >= 0 /\ Part.id part - 1 >= 0
  /\ BugFinder.positions (BugFinder.bug_part_matches self)
       (Line.id line - 1) (Part.id part - 1) = None.
Hypothesis rule2_sound : forall part line self,
  (rule2 part line self).1 = true -> Line.id line - Part.id part <= 0.

Lemma shape_id (j : nat) p : shape !! j = Some p -> Part.id p = Z.of_nat j.
Proof.
  intros Hp. pose proof (f_equal (fun l => l !! j) shape_ids) as H. cbn in H.
  rewrite !list_lookup_fmap, Hp in H. apply lookup_lt_Some in Hp.
  rewrite lookup_seq_lt in H by exact Hp. cbn in H. congruence.
Qed.

Lemma shape_sorted : StronglySorted Z.lt (Part.id <$> shape).
Proof.
  rewrite shape_ids. generalize 0%nat as i. generalize (length shape) as n.
  induction n as [|n IH]; intros i; [constructor|].
  cbn [seq]. rewrite fmap_cons. constructor; [apply IH|].
  apply Forall_forall. intros x (y & -> & Hy)%list_elem_of_fmap.
  apply elem_of_seq in Hy. lia.
Qed.

Lemma line_of_id line line' :
  line ∈ lines -> line' ∈ lines -> Line.id line = Line.id line' -> line = line'.
Proof.
  intros (i & Hi)%list_elem_of_lookup (i' & Hi')%list_elem_of_lookup Hid.
  assert (i = i'); [|congruence].
  apply (NoDup_lookup (Line.id <$> lines) i i' (Line.id line)).
  - apply sorted_NoDup, lines_sorted.
  - rewrite list_lookup_fmap, Hi. reflexivity.
  - rewrite list_lookup_fmap, Hi', Hid. reflexivity.
Qed.

Lemma row_matches_line l j c : row_matches shape lines l j c -> 0 <= l.
Proof.
  intros (line & p & Hline & <- & _). rewrite Forall_forall in lines_nonneg.
  apply lines_nonneg, list_elem_of_fmap_2, Hline.
Qed.

Lemma row_matches_row l j c : row_matches shape lines l j c -> (j < length shape)%nat.
Proof. intros (line & p & _ & _ & Hp & _). apply lookup_lt_Some in Hp. exact Hp. Qed.

Lemma chain_row l j c : chain shape lines l j c -> row_matches shape lines l j c.
Proof.
  intros H. specialize (H j (Nat.le_refl j)).
  rewrite Nat.sub_diag, Z.sub_0_r in H. exact H.
Qed.

Lemma chain_above l j c (d : nat) :
  chain shape lines l j c -> (d <= j)%nat ->
  chain shape lines (l - Z.of_nat d) (j - d) c.
Proof.
  intros H Hd i Hi. specialize (H i ltac:(lia)).
  replace (l - Z.of_nat d - Z.of_nat (j - d - i)) with (l - Z.of_nat (j - i)) by lia.
  exact H.
Qed.

Lemma chain_top l j c : chain shape lines l j c -> Z.of_nat j <= l.
Proof.
  intros H. specialize (H 0%nat ltac:(lia)). apply row_matches_line in H. lia.
Qed.

Lemma parts_loop_complete line : line ∈ lines -> forall parts (j0 : nat) s pre,
  drop j0 shape = parts ->
  keys_of pre s ->
  (forall l j c, chain shape lines l j c ->
     l < Line.id line \/ (l = Line.id line /\ (j < j0)%nat) -> tried pre l j c) ->
  exists s' evs,
    BugFinder.parts_loop shape rule1 rule2 parts line s = Ok s'
    /\ runs shape s evs s'
    /\ StronglySorted ev_lt evs
    /\ Forall (fun e => ev_line e = Line.id line /\ Z.of_nat j0 <= ev_part e
                        /\ sound_event shape lines e) evs
    /\ keys_of (pre ++ evs) s'
    /\ (forall j c, chain shape lines (Line.id line) j c ->
          tried (pre ++ evs) (Line.id line) j c).
Proof.
  intros Hline. induction parts as [|p parts IH]; intros j0 s pre Hdrop Hkeys Hprev.
  - exists s, []. rewrite app_nil_r.
    split; [reflexivity|]. split; [constructor|]. split; [constructor|].
    split; [constructor|]. split; [exact Hkeys|].
    intros j c Hch. apply (Hprev _ _ _ Hch). right. split; [reflexivity|].
    apply chain_row, row_matches_row in Hch. apply drop_nil_inv in Hdrop. lia.
  - assert (Hp : shape !! j0 = Some p).
    { rewrite <- (Nat.add_0_r j0), <- lookup_drop, Hdrop. reflexivity. }
    assert (Hdrop' : drop (S j0) shape = parts).
    { rewrite (drop_S _ _ _ Hp) in Hdrop. injection Hdrop as <-. reflexivity. }
    pose proof (shape_id _ _ Hp) as Hid.
    assert (Hin : p ∈ shape) by (apply list_elem_of_lookup; eauto).
    cbn [BugFinder.parts_loop].
    pose proof (rule1_same p line s) as H1. pose proof (rule1_sound p line s) as R1.
    destruct (rule1 p line s) as [skip s1]. cbn [fst snd] in H1, R1.
    destruct skip.
    + destruct (R1 eq_refl) as (Hl1 & Hp1 & Hnone).
      destruct (IH (S j0) s1 pre Hdrop' (keys_of_same _ _ _ H1 Hkeys))
        as (s' & evs & E & Hr & Hs & Hf & Hk & Hc).
      { intros l j c Hch [Hlt|[-> Hj]]; [apply (Hprev _ _ _ Hch); left; exact Hlt|].
        destruct (decide (j = j0)) as [->|Hne];
          [|apply (Hprev _ _ _ Hch); right; split; [reflexivity | lia]].
        exfalso. pose proof (chain_above _ _ _ 1 Hch ltac:(lia)) as Hch'.
        destruct (Hprev _ _ _ Hch' ltac:(left; lia)) as [b Hev].
        specialize (Hkeys _ Hev). cbn in Hkeys.
        replace (Z.of_nat (j0 - 1)) with (Part.id p - 1) in Hkeys by lia.
        change (Z.of_nat 1) with 1 in Hkeys. rewrite Hnone in Hkeys. destruct Hkeys; discriminate. }
      exists s', evs. split; [exact E|]. split; [apply (runs_probe _ _ _ _ _ H1 Hr)|].
      split; [exact Hs|]. split; [|split; assumption].
      eapply Forall_impl; [exact Hf|]. intros e (? & ? & ?). repeat split; auto. lia.
    + destruct (find_runs shape shape_compiled p line s1 Hin)
        as (s2 & evs1 & -> & Hr1 & Hs1 & Hf1 & Hcols).
      cbn [mbind result_bind].
      pose proof (rule2_same p line s2) as H2. pose proof (rule2_sound p line s2) as R2.
      destruct (rule2 p line s2) as [stop s3]. cbn [fst snd] in H2, R2.
      pose proof (runs_keys _ _ _ _ Hr1 pre (keys_of_same _ _ _ H1 Hkeys)) as Hk2.
      assert (Hsound1 : Forall (fun e => ev_line e = Line.id line
                                 /\ Z.of_nat j0 <= ev_part e /\ sound_event shape lines e) evs1).
      { rewrite Forall_forall in Hf1. apply Forall_forall. intros e He.
        destruct (Hf1 e He) as [Hl Hpart]. split; [exact Hl|]. split; [lia|].
        exists j0. split; [congruence|]. exists line, p. rewrite Hl.
        repeat split; try assumption. rewrite <- Hcols. apply list_elem_of_fmap_2, He. }
      assert (Hhere : forall c, chain shape lines (Line.id line) j0 c ->
                tried (pre ++ evs1) (Line.id line) j0 c).
      { intros c (line' & p' & Hline' & Hid' & Hp' & Hc)%chain_row.
        apply (line_of_id _ _ Hline' Hline) in Hid' as ->.
        rewrite Hp in Hp'. injection Hp' as <-.
        rewrite <- Hcols in Hc. apply list_elem_of_fmap in Hc as (e & -> & He).
        rewrite Forall_forall in Hf1. destruct (Hf1 e He) as [Hl Hpart].
        apply tried_app_r. exists (ev_counted e).
        rewrite <- Hid, <- Hl, <- Hpart. destruct e. exact He. }
      destruct stop.
      * exists s3, evs1. split; [reflexivity|].
        split; [apply (runs_probe _ _ _ _ _ H1), (runs_probe_last _ _ _ _ _ Hr1 H2)|].
        split; [exact Hs1|]. split; [exact Hsound1|].
        split; [apply (keys_of_same _ _ _ H2 Hk2)|].
        intros j c Hch. destruct (Nat.lt_trichotomy j j0) as [Hlt|[->|Hgt]].
        -- apply tried_app_l, (Hprev _ _ _ Hch). right. split; [reflexivity | exact Hlt].
        -- apply Hhere, Hch.
        -- exfalso. apply chain_top in Hch. specialize (R2 eq_refl). lia.
      * destruct (IH (S j0) s3 (pre ++ evs1) Hdrop' (keys_of_same _ _ _ H2 Hk2))
          as (s' & evs2 & E & Hr2 & Hs2 & Hf2 & Hk & Hc).
        { intros l j c Hch [Hlt|[-> Hj]];
            [apply tried_app_l, (Hprev _ _ _ Hch); left; exact Hlt|].
          destruct (decide (j = j0)) as [->|Hne]; [apply Hhere, Hch|].
          apply tried_app_l, (Hprev _ _ _ Hch). right. split; [reflexivity | lia]. }
        exists s', (evs1 ++ evs2). split; [exact E|]. split.
        { apply (runs_probe _ _ _ _ _ H1), (runs_app _ _ _ _ _ _ Hr1).
          apply (runs_probe _ _ _ _ _ H2 Hr2). }
        rewrite app_assoc. split; [|split; [|split; assumption]].
        -- apply StronglySorted_app_2; [|exact Hs1|exact Hs2].
           intros e1 e2 He1 He2. rewrite Forall_forall in Hf1. rewrite Forall_forall in Hf2.
           destruct (Hf1 e1 He1) as [Hl1 Hp1]. destruct (Hf2 e2 He2) as (Hl2 & Hp2 & _).
           right. split; [congruence|]. left. lia.
        -- apply Forall_app. split; [exact Hsound1|].
           eapply Forall_impl; [exact Hf2|]. intros e (? & ? & ?). repeat split; auto. lia.
Qed.

Lemma lines_loop_complete : forall rest done s pre,
  lines = done ++ rest ->
  keys_of pre s ->
  (forall l j c, chain shape lines l j c -> l ∈ Line.id <$> done -> tried pre l j c) ->
  exists s' evs,
    BugFinder.lines_loop shape rule1 rule2 rest s = Ok s'
    /\ runs shape s evs s'
    /\ StronglySorted ev_lt evs
    /\ Forall (fun e => ev_line e ∈ Line.id <$> rest /\ sound_event shape lines e) evs
    /\ (forall l j c, chain shape lines l j c -> tried (pre ++ evs) l j c).
Proof.
  unfold BugFinder.lines_loop.
  induction rest as [|line rest IH]; intros done s pre Hlines Hkeys Hprev.
  - exists s, []. rewrite app_nil_r in *. subst done.
    split; [reflexivity|]. split; [constructor|]. split; [constructor|].
    split; [constructor|]. intros l j c Hch. apply (Hprev _ _ _ Hch).
    destruct (chain_row _ _ _ Hch) as (line & p & Hline & <- & _).
    apply list_elem_of_fmap_2, Hline.
  - assert (Hline : line ∈ lines).
    { rewrite Hlines. apply elem_of_app. right. left. }
    pose proof lines_sorted as Hsorted. rewrite Hlines, fmap_app, fmap_cons in Hsorted.
    apply StronglySorted_app in Hsorted as (Hbefore & _ & Hsorted).
    apply StronglySorted_cons in Hsorted as [Hafter _].
    rewrite Forall_forall in Hafter.
    destruct (parts_loop_complete line Hline shape 0%nat s pre eq_refl Hkeys)
      as (s1 & evs1 & E1 & Hr1 & Hs1 & Hf1 & Hk1 & Hc1).
    { intros l j c Hch [Hlt|[_ Hj]]; [|lia]. apply (Hprev _ _ _ Hch).
      destruct (chain_row _ _ _ Hch) as (line' & p & Hline' & Hid & _).
      apply (list_elem_of_fmap_2 Line.id) in Hline'.
      rewrite Hlines, fmap_app, fmap_cons, Hid in Hline'.
      apply elem_of_app in Hline' as [H|[H|H]%elem_of_cons]; [exact H | lia |].
      specialize (Hafter _ H). lia. }
    destruct (IH (done ++ [line]) s1 (pre ++ evs1)) as (s' & evs2 & E & Hr2 & Hs2 & Hf2 & Hc2).
    { rewrite <- app_assoc. exact Hlines. }
    { exact Hk1. }
    { intros l j c Hch. rewrite fmap_app. intros [H|H]%elem_of_app.
      - apply tried_app_l, (Hprev _ _ _ Hch H).
      - apply list_elem_of_singleton in H as ->. apply Hc1, Hch. }
    exists s', (evs1 ++ evs2). cbn [for_each]. rewrite E1. cbn [mbind result_bind].
    split; [exact E|]. split; [apply (runs_app _ _ _ _ _ _ Hr1 Hr2)|].
    rewrite app_assoc. split; [|split; [|exact Hc2]].
    + apply StronglySorted_app_2; [|exact Hs1|exact Hs2].
      intros e1 e2 He1 He2. rewrite Forall_forall in Hf1. rewrite Forall_forall in Hf2.
      left. rewrite (proj1 (Hf1 e1 He1)). apply Hafter, (proj1 (Hf2 e2 He2)).
    + apply Forall_app. split.
      * eapply Forall_impl; [exact Hf1|]. intros e (-> & _ & ?). split; [|assumption].
        rewrite fmap_cons. left.
      * eapply Forall_impl; [exact Hf2|]. intros e [? ?]. split; [|assumption].
        rewrite fmap_cons. right. assumption.
Qed.

End Complete.

Lemma rev_removelast_lookup (shape : list Part.t) (k : nat) p :
  rev (removelast shape) !! k = Some p
  <-> shape !! (length shape - 2 - k)%nat = Some p /\ (k + 2 <= length shape)%nat.
Proof.
  rewrite rev_lookup_Some. pose proof (length_rev_removelast shape) as Hlen.
  rewrite length_rev in Hlen. rewrite Hlen, removelast_firstn_len. split.
  - intros [Hp Hk]. split; [|lia].
    rewrite lookup_take_lt in Hp by lia.
    replace (length shape - 2 - k)%nat with (length shape - 1 - S k)%nat by lia. exact Hp.
  - intros [Hp Hk]. split; [|lia].
    rewrite lookup_take_lt by lia.
    replace (length shape - 1 - S k)%nat with (length shape - 2 - k)%nat by lia. exact Hp.
Qed.

(** The pass counts the occurrences of the shape: the occurrences its
    trace counted are the places where all the rows match, one below the
    other at one column, each of them once. *)
Theorem count_is_occurrences shape lines rule1 rule2 :
  compiled_shape shape ->
  Part.id <$> shape = Z.of_nat <$> seq 0 (length shape) ->
  StronglySorted Z.lt (Line.id <$> lines) ->
  Forall (Z.le 0) (Line.id <$> lines) ->
  (forall part line self, same_positions self (rule1 part line self).2) ->
  (forall part line self, same_positions self (rule2 part line self).2) ->
  (forall part line self,
     (rule1 part line self).1 = true ->
     Line.id line - 1 >= 0 /\ Part.id part - 1 >= 0
     /\ BugFinder.positions (BugFinder.bug_part_matches self)
          (Line.id line - 1) (Part.id part - 1) = None) ->
  (forall part line self,
     (rule2 part line self).1 = true -> Line.id line - Part.id part <= 0) ->
  exists self evs,
    BugFinder.lines_loop shape rule1 rule2 lines BugFinder.init = Ok self
    /\ BugFinder.bug_count self = length (occurrences evs)
    /\ NoDup (occurrences evs)
    /\ forall L c, (L, c) ∈ occurrences evs <-> occurrence_at shape lines L c.
Proof.
  intros Hcomp Hids Hsorted Hnonneg H1 H2 R1 R2.
  destruct (lines_loop_complete shape lines Hcomp Hids Hsorted Hnonneg
              rule1 rule2 H1 H2 R1 R2 lines [] BugFinder.init [])
    as (self & evs & E & Hr & Hs & Hsound & Hcomplete).
  { reflexivity. }
  { intros e He. inversion He. }
  { intros l j c _ H. inversion H. }
  cbn [app] in Hcomplete.
  pose proof (shape_sorted shape Hids) as Hssorted.
  pose proof (sorted_NoDup _ Hssorted) as Hnd.
  pose proof (counted_iff_runs _ _ _ _ Hnd Hr [] (counted_iff_init shape) Hs) as Hci.
  cbn [app] in Hci. destruct Hci as [Hret _ Hflag].
  exists self, evs. split; [exact E|]. split; [apply (ret_count _ _ _ Hret)|].
  split; [apply (occurrences_NoDup shape _ Hs), (ret_bottom _ _ _ Hret)|].
  rewrite Forall_forall in Hsound.
  assert (Hbottom : forall bottom, last shape = Some bottom ->
            shape <> [] /\ Part.id bottom = Z.of_nat (length shape - 1)).
  { intros bottom Hb. split; [apply last_is_Some; eauto|].
    rewrite last_lookup in Hb.
    replace (pred (length shape)) with (length shape - 1)%nat in Hb by lia.
    apply (shape_id shape Hids _ _ Hb). }
  intros L c. rewrite elem_of_occurrences. split.
  - intros (e & He & Hcnt & <- & <-).
    destruct (proj1 (Hflag e He) Hcnt) as [(bottom & Hb & Hpart) Hall].
    destruct (Hbottom _ Hb) as [Hne Hbid]. split; [exact Hne|].
    intros i Hi. destruct (decide (i = length shape - 1)%nat) as [->|Hlt].
    + rewrite Nat.sub_diag, Z.sub_0_r.
      destruct (proj2 (Hsound e He)) as (j & Hj & Hm).
      replace j with (length shape - 1)%nat in Hm by lia. exact Hm.
    + assert (Hi' : (i < length shape)%nat) by lia.
      destruct (lookup_lt_is_Some_2 shape i Hi') as [p Hp].
      destruct (Hall (length shape - 2 - i)%nat p) as [b Hev].
      { apply rev_removelast_lookup. split; [|lia].
        replace (length shape - 2 - (length shape - 2 - i))%nat with i by lia. exact Hp. }
      destruct (proj2 (Hsound _ Hev)) as (j & Hj & Hm). cbn in Hj, Hm.
      rewrite (shape_id shape Hids _ _ Hp) in Hj.
      replace j with i in Hm by lia.
      replace (ev_line e - Z.of_nat (length shape - 1 - i))
        with (ev_line e - 1 - Z.of_nat (length shape - 2 - i)) by lia.
      exact Hm.
  - intros [Hne Hch]. destruct (Hcomplete _ _ _ Hch) as [b Hev].
    exists (Event L (Z.of_nat (length shape - 1)) c b).
    split; [exact Hev|]. split; [|split; reflexivity].
    apply (Hflag _ Hev). cbn [ev_part ev_line ev_col].
    apply last_is_Some in Hne as [bottom Hb]. split.
    + exists bottom. split; [exact Hb|]. symmetry. apply (Hbottom _ Hb).
    + intros k p [Hp Hk]%rev_removelast_lookup.
      rewrite (shape_id shape Hids _ _ Hp).
      pose proof (chain_above shape lines _ _ _ (S k) Hch ltac:(lia)) as Hch'.
      replace (L - Z.of_nat (S k)) with (L - 1 - Z.of_nat k) in Hch' by lia.
      replace (length shape - 1 - S k)%nat with (length shape - 2 - k)%nat in Hch' by lia.
      apply (Hcomplete _ _ _ Hch').
Qed.

Lemma never_skip_same part line self : same_positions self (BugFinder.never_skip part line self).2.
Proof. apply same_positions_refl. Qed.

(** X16.  When the parts of the shape are numbered from 0, as they are for
    a bug file without a blank line ([read_bug_ids_contiguous]), the
    pruning rules change nothing to the count: with them and without them,
    the pass counts the occurrences of the shape in the landscape. *)
Theorem pruning_preserves_count (bug_file landscape_file : str) :
  Part.id <$> _read_bug bug_file
  = Z.of_nat <$> seq 0 (length (_read_bug bug_file)) ->
  main bug_file landscape_file = main_unpruned bug_file landscape_file
  /\ exists occs,
       main bug_file landscape_file = Ok (length occs)
       /\ NoDup occs
       /\ forall L c, (L, c) ∈ occs
                      <-> occurrence_at (_read_bug bug_file) (reader landscape_file) L c.
Proof.
  intros Hids.
  destruct (count_is_occurrences (_read_bug bug_file) (reader landscape_file)
              BugFinder.should_skip_bug_part_in_line
              BugFinder.should_skip_all_bug_parts_in_line
              (read_bug_compiled bug_file) Hids
              (reader_ids_sorted landscape_file) (reader_ids_nonneg landscape_file)
              should_skip_bug_part_same should_skip_all_same
              should_skip_bug_part_true should_skip_all_true)
    as (self & evs & E & Hc & Hnd & Hocc).
  destruct (count_is_occurrences (_read_bug bug_file) (reader landscape_file)
              BugFinder.never_skip BugFinder.never_skip
              (read_bug_compiled bug_file) Hids
              (reader_ids_sorted landscape_file) (reader_ids_nonneg landscape_file)
              never_skip_same never_skip_same)
    as (self' & evs' & E' & Hc' & Hnd' & Hocc'); [discriminate | discriminate |].
  assert (Hmain : main bug_file landscape_file = Ok (length (occurrences evs))).
  { unfold main, BugFinder.find_bugs_in_landscape. rewrite E. cbn. rewrite Hc. reflexivity. }
  split; [|exists (occurrences evs); split; [exact Hmain|]; split; [exact Hnd | exact Hocc]].
  rewrite Hmain. unfold main_unpruned, BugFinder.find_bugs_in_landscape_unpruned.
  rewrite E'. cbn. rewrite Hc'. f_equal. apply Permutation_length.
  apply NoDup_Permutation; [exact Hnd | exact Hnd'|].
  intros [L c]. rewrite Hocc, Hocc'. reflexivity.
Qed.

(** The bug and the landscape of the kind [test_main.py] runs on: three
    rows, numbered from 0; the two passes agree. *)
Example pruning_preserves_count_example :
  let bug_file := py ("| |" ++ nl ++ "###O" ++ nl ++ "| |" ++ nl) in
  let landscape_file :=
    py ("  | |   | |" ++ nl ++ "  ###O  ###O" ++ nl ++ "  |x|   | x" ++ nl) in
  main bug_file landscape_file = main_unpruned bug_file landscape_file
  /\ main bug_file landscape_file = Ok 1%nat.
Proof.
  intros bug_file landscape_file.
  split; [|reflexivity].
  apply (pruning_preserves_count bug_file landscape_file). reflexivity.
Defined.

(** * The rest of the code *)

(** ** [escape] *)

Lemma escape_char_length alphanum c : (1 <= length (escape_char alphanum c))%nat.
Proof.
  unfold escape_char. destruct (Py.char_in c alphanum); [simpl; lia|].
  destruct (Ascii.eqb c Py.NUL); simpl; lia.
Qed.

Lemma escape_length string except_chars :
  (length string <= length (escape string except_chars))%nat.
Proof.
  induction string as [|c s IH]; [reflexivity|].
  rewrite escape_cons, length_app. cbn [length].
  pose proof (escape_char_length (ALPHANUM ++ except_chars) c). lia.
Qed.

(** X1.  [escape] returns its argument unchanged exactly when every
    character of it is alphanumeric or one of [except_chars]: any other
    character makes the result longer. *)
Theorem escape_unchanged_iff (string except_chars : str) :
  escape string except_chars = string
  <-> Forall (fun c => Py.char_in c (ALPHANUM ++ except_chars) = true) string.
Proof.
  induction string as [|c s IH].
  - split; [constructor | reflexivity].
  - rewrite escape_cons, Forall_cons. unfold escape_char.
    destruct (Py.char_in c (ALPHANUM ++ except_chars)) eqn:Hc.
    + cbn [app]. rewrite <- IH. split.
      * intros [= H]. split; [reflexivity | exact H].
      * intros [_ H]. rewrite H. reflexivity.
    + split; [|intros [[=] _]].
      intros H. apply (f_equal (@length ascii)) in H.
      pose proof (escape_length s except_chars).
      rewrite length_app in H. cbn [length] in H.
      destruct (Ascii.eqb c Py.NUL); simpl in H; lia.
Qed.

(** ** [escape] and the regular expressions *)

(** The first character [escape] writes for a character. *)
Lemma escape_char_head alphanum c :
  exists x T, escape_char alphanum c = x :: T
    /\ (x = c /\ T = [] /\ Py.char_in c alphanum = true
        \/ x = "\"%char /\ Py.char_in c alphanum = false).
Proof.
  unfold escape_char. destruct (Py.char_in c alphanum).
  - eexists _, _. split; [reflexivity|]. left. auto.
  - destruct (Ascii.eqb c Py.NUL); eexists _, _; (split; [reflexivity|]); right; auto.
Qed.

Lemma escape_head s :
  escape s [] = []
  \/ exists x T, escape s [] = x :: T
       /\ Ascii.eqb x "{"%char = false /\ Ascii.eqb x "("%char = false.
Proof.
  destruct s as [|c s]; [left; reflexivity|]. right.
  rewrite escape_cons.
  destruct (escape_char_head (ALPHANUM ++ []) c) as (x & T & -> & H).
  exists x, (T ++ escape s []). split; [reflexivity|].
  destruct H as [(-> & _ & H)|[-> _]]; [|split; reflexivity].
  rewrite app_nil_r in H. destruct (alnum_facts c H) as (_ & _ & _ & Hsp & _ & Hbr & _).
  split; [exact Hbr|]. revert H. ascii_cases c; vm_compute; congruence.
Qed.

Lemma parse_repeat_escape s :
  Re.parse_repeat (escape s []) = Some (1%nat, escape s []).
Proof.
  destruct (escape_head s) as [->|(x & T & -> & Hx & _)]; [reflexivity|].
  apply parse_repeat_none, Hx.
Qed.

Lemma parse_atom_escape c s :
  Re.parse_atom (escape (c :: s) []) = Some (Re.Literal c, escape s []).
Proof.
  rewrite escape_cons. unfold escape_char. rewrite app_nil_r.
  destruct (Py.char_in c ALPHANUM) eqn:Hal.
  - apply parse_atom_alnum, Hal.
  - destruct (Ascii.eqb_spec c Py.NUL) as [->|_].
    + apply parse_atom_nul.
    + apply parse_atom_escaped, Hal.
Qed.

Lemma parse_nodes_escape s : forall fuel,
  (length (escape s []) < fuel)%nat ->
  Re.parse_nodes fuel (escape s []) = Some (literal_regex s).
Proof.
  induction s as [|c s IH]; intros fuel Hfuel.
  - destruct fuel; [lia | reflexivity].
  - destruct fuel as [|fuel]; [lia|].
    pose proof (parse_atom_escape c s) as Hatom.
    destruct (escape_head (c :: s)) as [E|(x & T & E & _ & Hpar)].
    { pose proof (escape_length (c :: s) []) as Hl. rewrite E in Hl. simpl in Hl. lia. }
    rewrite E in Hatom, Hfuel |- *. cbn [Re.parse_nodes].
    replace (Re.starts_with (py "(?=") (x :: T)) with false.
    2:{ symmetry. apply bool_decide_eq_false. cbn. intros [= ->]. discriminate. }
    rewrite Hatom. cbn [mbind option_bind].
    rewrite parse_repeat_escape. cbn [mbind option_bind].
    rewrite IH; [reflexivity|].
    apply parse_atom_shorter in Hatom. lia.
Qed.

Lemma match_literal_regex s : forall target rest,
  Re.match_nodes (literal_regex s) target = Some rest <-> target = s ++ rest.
Proof.
  induction s as [|c s IH]; intros target rest.
  - cbn. split; congruence.
  - cbn [literal_regex map Re.match_nodes Re.match_node Re.match_rep].
    fold (literal_regex s).
    destruct target as [|x target]; cbn [mbind option_bind].
    + split; discriminate.
    + cbn [Re.match_atom]. destruct (Ascii.eqb_spec x c) as [->|Hne];
        cbn [mbind option_bind].
      * rewrite IH. cbn [app]. split; [intros ->; reflexivity | intros [= ->]; reflexivity].
      * split; [discriminate | intros [= ? _]; contradiction].
Qed.

(** X2.  For every string, [escape(string)] is a pattern [re] compiles to
    the regular expression that compares the characters of the string one
    by one: it matches at the head of a target exactly when the target
    starts with the string, whatever characters the string holds (the
    metacharacters of [re], the backslash and the NUL character
    included). *)
Theorem escape_matches_itself (string : str) :
  Re.compile (escape string []) = Some (literal_regex string)
  /\ forall target rest,
       Re.match_nodes (literal_regex string) target = Some rest
       <-> target = string ++ rest.
Proof.
  split; [apply parse_nodes_escape; lia | apply match_literal_regex].
Qed.

(** X3.  [escape] loses nothing: when the backslash is not among
    [except_chars] (it is not in either call of the program), two strings
    with the same escaped form are the same string. *)
Theorem escape_injective (except_chars s1 s2 : str) :
  Py.char_in "\"%char except_chars = false ->
  escape s1 except_chars = escape s2 except_chars -> s1 = s2.
Proof.
  intros Hbs. set (al := ALPHANUM ++ except_chars).
  assert (Hal : Py.char_in "\"%char al = false).
  { unfold al. rewrite char_in_app, Hbs. reflexivity. }
  assert (Hzero : Py.char_in "0"%char al = true).
  { unfold al. rewrite char_in_app. reflexivity. }
  revert s2. induction s1 as [|c1 s1 IH]; intros [|c2 s2] H.
  - reflexivity.
  - apply (f_equal (@length ascii)) in H. rewrite escape_cons, length_app in H.
    pose proof (escape_char_length al c2). fold al in H. simpl in H. lia.
  - apply (f_equal (@length ascii)) in H. rewrite escape_cons, length_app in H.
    pose proof (escape_char_length al c1). fold al in H. simpl in H. lia.
  - rewrite !escape_cons in H. fold al in H. unfold escape_char in H.
    destruct (Py.char_in c1 al) eqn:H1, (Py.char_in c2 al) eqn:H2.
    + injection H as -> H. f_equal. apply IH, H.
    + exfalso. destruct (Ascii.eqb c2 Py.NUL); injection H as -> _; congruence.
    + exfalso. destruct (Ascii.eqb c1 Py.NUL); injection H as <- _; congruence.
    + destruct (Ascii.eqb_spec c1 Py.NUL) as [->|N1], (Ascii.eqb_spec c2 Py.NUL) as [->|N2].
      * injection H as H. f_equal. apply IH, H.
      * exfalso. injection H as <- _. congruence.
      * exfalso. injection H as -> _. congruence.
      * injection H as -> H. f_equal. apply IH, H.
Qed.

Lemma escape_injective_witness :
  Py.char_in "\"%char [Py.SP] = false
  /\ escape (py "a b.") [Py.SP] = escape (py "a b.") [Py.SP]
  /\ py "a b." = py "a b.".
Proof.
  split; [reflexivity|]. split; [reflexivity|].
  apply (escape_injective [Py.SP] (py "a b.") (py "a b.")); reflexivity.
Defined.

(** ** What [File.reader] yields *)

Lemma rstrip_app_spaces s ws :
  Forall (fun x => Py.isspace x = true) ws -> Py.rstrip (s ++ ws) = Py.rstrip s.
Proof.
  intros H. revert s. induction H as [|w ws Hw _ IH]; intros s.
  - rewrite app_nil_r. reflexivity.
  - rewrite (cons_middle w s ws), app_assoc, IH. apply rstrip_app_space, Hw.
Qed.

(** [rstrip] cuts a run of whitespace off the end, and all of it. *)
Lemma rstrip_spec s :
  (exists ws, s = Py.rstrip s ++ ws /\ Forall (fun x => Py.isspace x = true) ws)
  /\ forall c, last (Py.rstrip s) = Some c -> Py.isspace c = false.
Proof.
  induction s as [|x s [(ws & Hs & Hws) Hlast]]; cbn [Py.rstrip].
  - split; [exists []; split; [reflexivity | constructor] | discriminate].
  - destruct (Py.rstrip s) as [|y r] eqn:E.
    + destruct (Py.isspace x) eqn:Hx.
      * split; [|discriminate]. exists (x :: ws). split.
        -- rewrite Hs at 1. reflexivity.
        -- constructor; assumption.
      * split.
        -- exists ws. split; [rewrite Hs at 1; reflexivity | exact Hws].
        -- intros c [= <-]. exact Hx.
    + split.
      * exists ws. split; [rewrite Hs at 1; reflexivity | exact Hws].
      * intros c Hc. apply Hlast. rewrite <- Hc. reflexivity.
Qed.

Lemma reader_elem_from ls : forall i line,
  (line ∈ omap reader_line (Py.enumerate_from i ls))
  <-> exists (k : nat) raw,
        ls !! k = Some raw /\ Py.rstrip raw <> []
        /\ line = Line.mk (i + Z.of_nat k) (Py.rstrip raw).
Proof.
  induction ls as [|l ls IH]; intros i line.
  - cbn. split; [intros H; inversion H | intros (k & raw & H & _); discriminate].
  - cbn [Py.enumerate_from omap list_omap].
    assert (Htail : (line ∈ omap reader_line (Py.enumerate_from (i + 1) ls))
              <-> exists (k : nat) raw, (l :: ls) !! S k = Some raw /\ Py.rstrip raw <> []
                    /\ line = Line.mk (i + Z.of_nat (S k)) (Py.rstrip raw)).
    { rewrite IH. split; intros (k & raw & Hk & Hne & ->); exists k, raw;
        (split; [exact Hk|]); (split; [exact Hne|]); f_equal; lia. }
    unfold reader_line at 1. destruct (Py.rstrip l) as [|x r] eqn:E.
    + rewrite Htail. split.
      * intros (k & raw & H); eauto.
      * intros ([|k] & raw & Hk & Hne & Hl); [|eauto].
        injection Hk as <-. congruence.
    + rewrite elem_of_cons, Htail. split.
      * intros [->|(k & raw & H)]; [|eauto].
        exists 0%nat, l. rewrite E. split; [reflexivity|].
        split; [discriminate|]. f_equal. lia.
      * intros ([|k] & raw & Hk & Hne & Hl); [|right; eauto].
        left. injection Hk as <-. rewrite Hl, E. f_equal. lia.
Qed.

Lemma reader_elem file_handler line :
  (line ∈ reader file_handler)
  <-> exists (i : nat) raw,
        Py.file_lines file_handler !! i = Some raw /\ Py.rstrip raw <> []
        /\ line = Line.mk (Z.of_nat i) (Py.rstrip raw).
Proof. unfold reader, Py.enumerate. rewrite reader_elem_from. reflexivity. Qed.

(** X4.  [File.reader] yields the lines of the file that are not blank, in
    the order of the file, each with its number in the file (counted from
    0, blank lines included) and without its trailing whitespace: the
    identifiers grow strictly, and a [Line] is yielded exactly when it is
    the stripped form, not empty, of the line with that number. *)
Theorem reader_yields_nonblank_lines (file_handler : str) :
  StronglySorted Z.lt (Line.id <$> reader file_handler)
  /\ forall line,
       (line ∈ reader file_handler)
       <-> exists (i : nat) raw,
             Py.file_lines file_handler !! i = Some raw /\ Py.rstrip raw <> []
             /\ line = Line.mk (Z.of_nat i) (Py.rstrip raw).
Proof. split; [apply reader_ids_sorted | apply reader_elem]. Qed.

(** X5.  Every [Line] of [File.reader] has a non-negative number, and its
    pattern is the line of that number without a run of whitespace at its
    end: the pattern is not empty, holds no line feed, and does not end in
    a whitespace character (leading whitespace stays). *)
Theorem reader_patterns_clean (file_handler : str) (line : Line.t) :
  line ∈ reader file_handler ->
  exists (i : nat) ws,
    Line.id line = Z.of_nat i
    /\ Py.file_lines file_handler !! i = Some (Line.pattern line ++ ws)
    /\ Forall (fun x => Py.isspace x = true) ws
    /\ Line.pattern line <> []
    /\ (Py.LF ∉ Line.pattern line)
    /\ forall c, last (Line.pattern line) = Some c -> Py.isspace c = false.
Proof.
  intros Hin. destruct (reader_pattern _ _ Hin) as [Hne HLF].
  apply reader_elem in Hin as (i & raw & Hraw & _ & ->). cbn in *.
  destruct (rstrip_spec raw) as [(ws & Hs & Hws) Hlast].
  exists i, ws. split; [reflexivity|]. split; [rewrite <- Hs; exact Hraw|].
  auto.
Qed.

Lemma reader_patterns_clean_witness :
  exists (i : nat) ws,
    Line.id (Line.mk 1 (py " ab")) = Z.of_nat i
    /\ Py.file_lines (py ("x" ++ nl ++ " ab  " ++ nl)) !! i
       = Some (Line.pattern (Line.mk 1 (py " ab")) ++ ws)
    /\ Forall (fun x => Py.isspace x = true) ws
    /\ Line.pattern (Line.mk 1 (py " ab")) <> []
    /\ (Py.LF ∉ Line.pattern (Line.mk 1 (py " ab")))
    /\ forall c, last (Line.pattern (Line.mk 1 (py " ab"))) = Some c
                 -> Py.isspace c = false.
Proof.
  apply (reader_patterns_clean (py ("x" ++ nl ++ " ab  " ++ nl)) (Line.mk 1 (py " ab"))).
  vm_compute. right. left.
Defined.

(** *** Whitespace at the end of the file and of the lines *)

Lemma enumerate_from_app {A} (xs ys : list A) : forall i,
  Py.enumerate_from i (xs ++ ys)
  = Py.enumerate_from i xs ++ Py.enumerate_from (i + Z.of_nat (length xs)) ys.
Proof.
  induction xs as [|x xs IH]; intros i; cbn [app Py.enumerate_from length].
  - rewrite Z.add_0_r. reflexivity.
  - rewrite IH. do 3 f_equal. lia.
Qed.

Lemma file_lines_snoc content w :
  (exists init l,
      Py.file_lines content = init ++ [l]
      /\ Py.file_lines (content ++ [w]) = init ++ [l ++ [w]])
  \/ Py.file_lines (content ++ [w]) = Py.file_lines content ++ [[w]].
Proof.
  induction content as [|c rest IH]; cbn [app Py.file_lines].
  - right. destruct (Ascii.eqb w Py.LF); reflexivity.
  - destruct (Ascii.eqb c Py.LF).
    + destruct IH as [(init & l & E1 & E2)|E].
      * left. exists ([c] :: init), l. rewrite E1, E2. split; reflexivity.
      * right. rewrite E. reflexivity.
    + destruct IH as [(init & l & E1 & E2)|E].
      * left. rewrite E1, E2. destruct init as [|l0 init].
        -- exists [], (c :: l). split; reflexivity.
        -- exists ((c :: l0) :: init), l. split; reflexivity.
      * rewrite E. destruct (Py.file_lines rest) as [|l0 ls].
        -- left. exists [], [c]. split; reflexivity.
        -- right. reflexivity.
Qed.

Lemma reader_snoc content w :
  Py.isspace w = true -> reader (content ++ [w]) = reader content.
Proof.
  intros Hw. unfold reader, Py.enumerate.
  destruct (file_lines_snoc content w) as [(init & l & -> & ->)| ->];
    rewrite !enumerate_from_app, !omap_app; f_equal;
    cbn [Py.enumerate_from omap list_omap reader_line].
  - rewrite rstrip_app_space by exact Hw. reflexivity.
  - cbn [Py.rstrip]. rewrite Hw. rewrite app_nil_r. reflexivity.
Qed.

(** X6.  Whitespace at the end of the file makes no difference to
    [File.reader]: a missing or repeated final newline, blank lines or
    spaces after the last line give the same lines with the same
    numbers. *)
Theorem reader_ignores_trailing_whitespace (content ws : str) :
  Forall (fun x => Py.isspace x = true) ws ->
  reader (content ++ ws) = reader content.
Proof.
  intros H. revert content. induction H as [|w ws Hw _ IH]; intros content.
  - rewrite app_nil_r. reflexivity.
  - rewrite (cons_middle w content ws), app_assoc, IH. apply reader_snoc, Hw.
Qed.

Lemma reader_ignores_trailing_whitespace_witness :
  Forall (fun x => Py.isspace x = true) [Py.CR; Py.LF; Py.SP; Py.LF]
  /\ reader (py "| |" ++ [Py.CR; Py.LF; Py.SP; Py.LF]) = reader (py "| |").
Proof.
  assert (H : Forall (fun x => Py.isspace x = true) [Py.CR; Py.LF; Py.SP; Py.LF])
    by (repeat constructor).
  split; [exact H|].
  apply (reader_ignores_trailing_whitespace (py "| |") _ H).
Defined.

Lemma file_lines_line body rest :
  Py.LF ∉ body ->
  Py.file_lines (body ++ Py.LF :: rest) = (body ++ [Py.LF]) :: Py.file_lines rest.
Proof.
  induction body as [|c body IH]; intros H; cbn [app Py.file_lines].
  - reflexivity.
  - apply not_elem_of_cons in H as [Hc Hb].
    destruct (Ascii.eqb_spec c Py.LF) as [->|_]; [congruence|].
    rewrite IH by exact Hb. reflexivity.
Qed.

Lemma file_lines_terminated {A} (body : A -> str) (xs : list A) :
  Forall (fun x => Py.LF ∉ body x) xs ->
  Py.file_lines (concat ((fun x => body x ++ [Py.LF]) <$> xs))
  = (fun x => body x ++ [Py.LF]) <$> xs.
Proof.
  induction 1 as [|x xs Hx _ IH]; [reflexivity|].
  cbn [fmap list_fmap concat]. rewrite <- app_assoc. cbn [app].
  rewrite file_lines_line by exact Hx. f_equal. exact IH.
Qed.

(** X7.  Whitespace at the end of the lines makes no difference to
    [File.reader]: a file whose lines are each followed by some
    whitespace before the line feed (the carriage return of a CRLF line
    end, trailing spaces or tabs) gives the same lines, with the same
    numbers, as the file without it. *)
Theorem reader_ignores_line_padding (lines : list (str * str)) :
  Forall (fun bp : str * str =>
            (Py.LF ∉ bp.1) /\ (Py.LF ∉ bp.2)
            /\ Forall (fun x => Py.isspace x = true) bp.2) lines ->
  reader (concat ((fun bp : str * str => bp.1 ++ bp.2 ++ [Py.LF]) <$> lines))
  = reader (concat ((fun bp : str * str => bp.1 ++ [Py.LF]) <$> lines)).
Proof.
  intros H. unfold reader, Py.enumerate.
  rewrite (list_fmap_ext (fun bp : str * str => bp.1 ++ bp.2 ++ [Py.LF])
             (fun bp : str * str => (bp.1 ++ bp.2) ++ [Py.LF]) lines)
    by (intros _ bp _; apply app_assoc).
  rewrite (file_lines_terminated (fun bp : str * str => bp.1 ++ bp.2)),
          (file_lines_terminated (fun bp : str * str => bp.1)).
  - generalize 0. induction H as [|[b p] lines (_ & _ & Hp) _ IH]; intros i;
      [reflexivity|].
    cbn [fmap list_fmap Py.enumerate_from omap list_omap reader_line fst snd].
    rewrite !rstrip_app_space by reflexivity.
    rewrite rstrip_app_spaces by exact Hp.
    fold (@fmap list _ _ _ (fun bp : str * str => (bp.1 ++ bp.2) ++ [Py.LF]) lines).
    fold (@fmap list _ _ _ (fun bp : str * str => bp.1 ++ [Py.LF]) lines).
    rewrite IH. reflexivity.
  - eapply Forall_impl; [exact H|]. intros bp (Hb & _). exact Hb.
  - eapply Forall_impl; [exact H|]. intros bp (Hb & Hp & _).
    rewrite elem_of_app. tauto.
Qed.

Lemma reader_ignores_line_padding_witness :
  reader (py "| |" ++ [Py.CR; Py.LF] ++ py "###O" ++ [Py.SP; Py.CR; Py.LF])
  = reader (py ("| |" ++ nl ++ "###O" ++ nl)).
Proof.
  apply (reader_ignores_line_padding [(py "| |", [Py.CR]); (py "###O", [Py.SP; Py.CR])]).
  repeat constructor; cbn; intros H; repeat (apply elem_of_cons in H as [H|H]; [discriminate|]);
    inversion H.
Defined.

(** ** The patterns of the rows *)

(** X8.  The replacement [_format_bug_replace_match_with_regex] writes for
    a matched run compiles to one item: any character, repeated as many
    times as the run is long.  The length survives the round trip through
    its decimal form. *)
Theorem replacement_is_counted_wildcard (group0 : str) :
  Re.compile (_format_bug_replace_match_with_regex group0)
  = Some [Re.Item Re.AnyChar (length group0)].
Proof.
  unfold Re.compile.
  rewrite <- (app_nil_r (_format_bug_replace_match_with_regex group0)), repl_app.
  cbn [length Re.parse_nodes].
  replace (Re.starts_with (py "(?=") _) with false
    by (symmetry; apply bool_decide_eq_false; cbn; congruence).
  rewrite parse_atom_dot. cbn [mbind option_bind].
  rewrite parse_repeat_count. cbn [mbind option_bind].
  destruct (length _); reflexivity.
Qed.

Lemma match_items_any n items s :
  Py.LF ∉ s ->
  is_Some (Re.match_items ((Re.AnyChar, n) :: items) s)
  <-> (n <= length s)%nat /\ is_Some (Re.match_items items (drop n s)).
Proof.
  intros Hs. cbn [Re.match_items]. rewrite match_rep_any by exact Hs.
  destruct (decide (n <= length s)%nat); cbn [mbind option_bind].
  - tauto.
  - split; [intros [? [=]] | intros [? _]; lia].
Qed.

Lemma match_items_literal x items s :
  is_Some (Re.match_items ((Re.Literal x, 1%nat) :: items) s)
  <-> exists s', s = x :: s' /\ is_Some (Re.match_items items s').
Proof.
  cbn [Re.match_items Re.match_rep]. destruct s as [|y s]; cbn [mbind option_bind].
  - split; [intros [? [=]] | intros (s' & [=] & _)].
  - cbn [Re.match_atom]. destruct (Ascii.eqb_spec y x) as [->|Hne]; cbn [mbind option_bind].
    + split; [eauto | intros (s' & [= <-] & H); exact H].
    + split; [intros [? [=]] | intros (s' & [= ? _] & _); contradiction].
Qed.

Lemma not_space_eqb x : x <> Py.SP -> Ascii.eqb x Py.SP = false.
Proof. intros H. destruct (Ascii.eqb_spec x Py.SP); congruence. Qed.

(** The body of the lookahead, read character by character: [n] is the
    length of the run of spaces that is being read. *)
Lemma match_body_pointwise rest :
  Forall (fun x => Py.isspace x = true -> x = Py.SP) rest ->
  forall s, Py.LF ∉ s ->
    (is_Some (Re.match_items (body_of None rest) s)
     <-> (length rest <= length s)%nat
         /\ forall (i : nat) x, rest !! i = Some x -> x <> Py.SP -> s !! i = Some x)
    /\ forall n,
         is_Some (Re.match_items (body_of (Some (Re.AnyChar, n)) rest) s)
         <-> (n + length rest <= length s)%nat
             /\ forall (i : nat) x, rest !! i = Some x -> x <> Py.SP ->
                  s !! (n + i)%nat = Some x.
Proof.
  induction 1 as [|x rest Hx Hrest IH]; intros s Hs.
  - split; [|intros n]; cbn [body_of flush length].
    + cbn. split; [intros _; split; [lia | intros i x H; discriminate] | eauto].
    + rewrite match_items_any by exact Hs. cbn. rewrite Nat.add_0_r.
      split; [intros [H _]; split; [exact H | intros i x H'; discriminate]
             | intros [H _]; split; [exact H | eauto]].
  - assert (Hsome : forall n,
              is_Some (Re.match_items (body_of (Some (Re.AnyChar, n)) (Py.SP :: rest)) s)
              <-> (n + length (Py.SP :: rest) <= length s)%nat
                  /\ forall (i : nat) y, (Py.SP :: rest) !! i = Some y -> y <> Py.SP ->
                       s !! (n + i)%nat = Some y).
    { intros n. cbn [body_of]. change (Ascii.eqb Py.SP Py.SP) with true. cbv iota.
      cbn [bump]. rewrite (proj2 (IH s Hs) (S n)). cbn [length]. split.
      - intros [Hlen Hall]. split; [lia|]. intros [|i] y Hy Hne.
        + injection Hy as <-. congruence.
        + replace (n + S i)%nat with (S n + i)%nat by lia. apply Hall; assumption.
      - intros [Hlen Hall]. split; [lia|]. intros i y Hy Hne.
        replace (S n + i)%nat with (n + S i)%nat by lia. apply Hall; assumption. }
    assert (Hnone : is_Some (Re.match_items (body_of None (x :: rest)) s)
              <-> (length (x :: rest) <= length s)%nat
                  /\ forall (i : nat) y, (x :: rest) !! i = Some y -> y <> Py.SP ->
                       s !! i = Some y).
    { destruct (Ascii.eqb_spec x Py.SP) as [->|Hne].
      - cbn [body_of]. change (Ascii.eqb Py.SP Py.SP) with true. cbv iota.
        cbn [bump]. rewrite (proj2 (IH s Hs) 1%nat). cbn [length]. split.
        + intros [Hlen Hall]. split; [lia|]. intros [|i] y Hy Hy'.
          * injection Hy as <-. congruence.
          * apply (Hall i y Hy Hy').
        + intros [Hlen Hall]. split; [lia|]. intros i y Hy Hy'.
          apply (Hall (S i) y Hy Hy').
      - assert (Hsp : Py.isspace x = false).
        { destruct (Py.isspace x); [specialize (Hx eq_refl); congruence | reflexivity]. }
        cbn [body_of]. rewrite (not_space_eqb x Hne), Hsp. cbn [flush app].
        rewrite match_items_literal. cbn [length]. split.
        + intros (s' & -> & H). apply not_elem_of_cons in Hs as [_ Hs'].
          apply (proj1 (IH s' Hs')) in H as [Hlen Hall]. split; [simpl; lia|].
          intros [|i] y Hy Hy'; [injection Hy as <-; reflexivity|].
          apply (Hall i y Hy Hy').
        + intros [Hlen Hall]. destruct s as [|y s']; [simpl in Hlen; lia|].
          pose proof (Hall 0%nat x eq_refl Hne) as H0. injection H0 as ->.
          exists s'. split; [reflexivity|].
          apply not_elem_of_cons in Hs as [_ Hs'].
          apply (proj1 (IH s' Hs')). split; [simpl in Hlen; lia|].
          intros i y Hy Hy'. apply (Hall (S i) y Hy Hy'). }
    split; [exact Hnone|]. intros n.
    destruct (Ascii.eqb_spec x Py.SP) as [->|Hne]; [apply Hsome|].
    assert (Hsp : Py.isspace x = false).
    { destruct (Py.isspace x); [specialize (Hx eq_refl); congruence | reflexivity]. }
    replace (body_of (Some (Re.AnyChar, n)) (x :: rest))
      with ((Re.AnyChar, n) :: body_of None (x :: rest)).
    2:{ cbn [body_of]. rewrite (not_space_eqb x Hne), Hsp. reflexivity. }
    rewrite match_items_any by exact Hs.
    assert (Hd : Py.LF ∉ drop n s) by (intros H; apply Hs, (elem_of_drop _ n), H).
    clear Hnone Hsome.
    split.
    + intros [Hn H].
      assert (Hgoal : (length (x :: rest) <= length (drop n s))%nat
                /\ forall (i : nat) y, (x :: rest) !! i = Some y -> y <> Py.SP ->
                     drop n s !! i = Some y).
      { revert H. cbn [body_of]. rewrite (not_space_eqb x Hne), Hsp. cbn [flush app].
        rewrite match_items_literal. intros (s' & E & H). rewrite E.
        assert (Hs' : Py.LF ∉ s').
        { intros Hin. apply Hd. rewrite E. right. exact Hin. }
        apply (proj1 (IH s' Hs')) in H as [Hlen Hall]. split; [simpl; lia|].
        intros [|i] y Hy Hy'; [injection Hy as <-; reflexivity|].
        apply (Hall i y Hy Hy'). }
      destruct Hgoal as [Hlen Hall]. rewrite length_drop in Hlen. split; [lia|].
      intros i y Hy Hy'. rewrite <- lookup_drop. apply (Hall i y Hy Hy').
    + intros [Hlen Hall]. split; [cbn [length] in Hlen; lia|].
      cbn [body_of]. rewrite (not_space_eqb x Hne), Hsp. cbn [flush app].
      rewrite match_items_literal.
      pose proof (Hall 0%nat x eq_refl Hne) as H0. rewrite Nat.add_0_r in H0.
      exists (drop (S n) s). split; [apply drop_S, H0|].
      assert (Hs' : Py.LF ∉ drop (S n) s) by (intros H; apply Hs, (elem_of_drop _ (S n)), H).
      apply (proj1 (IH _ Hs')). rewrite length_drop. cbn [length] in Hlen. split; [lia|].
      intros i y Hy Hy'. rewrite lookup_drop.
      replace (S n + i)%nat with (n + S i)%nat by lia. apply (Hall (S i) y Hy Hy').
Qed.

(** A formatted row matches at a column exactly when the row lies there. *)
Lemma matches_at_row_at first rest target col :
  Forall (fun x => Py.isspace x = true -> x = Py.SP) rest ->
  Py.LF ∉ target ->
  Re.matches_at (regex_of_row first rest) target col = true
  <-> row_at (first :: rest) target col.
Proof.
  intros Hrest HLF. rewrite matches_at_row. unfold row_at. cbn [length]. split.
  - intros (s & E & H).
    assert (Hs : Py.LF ∉ s).
    { intros Hin. apply HLF, (elem_of_drop _ col). rewrite E. right. exact Hin. }
    apply (proj1 (match_body_pointwise rest Hrest s Hs)) in H as [Hlen Hall].
    assert (Hl : (length target - col)%nat = S (length s))
      by (rewrite <- length_drop, E; reflexivity).
    split; [lia|]. intros [|i] x Hx Hor.
    + injection Hx as <-. rewrite <- lookup_drop, E. reflexivity.
    + destruct Hor as [|Hne]; [discriminate|].
      rewrite <- lookup_drop, E. apply (Hall i x Hx Hne).
  - intros [Hlen Hall].
    pose proof (Hall 0%nat first eq_refl (or_introl eq_refl)) as H0.
    rewrite Nat.add_0_r in H0.
    exists (drop (S col) target). split; [apply drop_S, H0|].
    assert (Hs : Py.LF ∉ drop (S col) target)
      by (intros H; apply HLF, (elem_of_drop _ (S col)), H).
    apply (proj1 (match_body_pointwise rest Hrest _ Hs)).
    rewrite length_drop. split; [lia|].
    intros i x Hx Hne. rewrite lookup_drop.
    replace (S col + i)%nat with (col + S i)%nat by lia.
    apply (Hall (S i) x Hx (or_intror Hne)).
Qed.

(** X9.  For a row whose whitespace after the first character is made of
    spaces only, and a target without line feed (as every line of the
    reader is): the formatted row matches at a column exactly when the
    target is long enough to hold the whole row from that column on and
    shows every character of the row at its place, a space standing for
    any character.  The first character is compared as it is even when it
    is a space, and the spaces at the end of a run count for the
    length. *)
Theorem row_matches_pointwise (row target : str) (col : nat) :
  row <> [] ->
  Forall (fun x => Py.isspace x = true -> x = Py.SP) (tail row) ->
  Py.LF ∉ target ->
  exists cols,
    Re.finditer (_format_pattern row) target = Ok cols
    /\ (col ∈ cols <-> row_at row target col).
Proof.
  intros Hrow Hsp HLF. destruct row as [|first rest]; [congruence|].
  destruct (finditer_row first rest target) as (cols & Hf & _ & Hm).
  exists cols. split; [exact Hf|].
  rewrite Hm. apply matches_at_row_at; assumption.
Qed.

Lemma row_matches_pointwise_witness :
  exists cols,
    Re.finditer (_format_pattern (py " # #")) (py "x # # #") = Ok cols
    /\ (3%nat ∈ cols <-> row_at (py " # #") (py "x # # #") 3).
Proof.
  apply (row_matches_pointwise (py " # #") (py "x # # #") 3).
  - discriminate.
  - repeat constructor; intros H; first [reflexivity | discriminate H].
  - cbn. intros H. repeat (apply elem_of_cons in H as [H|H]; [discriminate|]). inversion H.
Defined.

(** ** The operations of [BugFinder], one by one *)

(** X10.  After [register_bug_part_match(part, line, c)],
    [bug_part_match_exists(part, line)] answers true, the list of the key
    is the list it was (empty when the key was missing) with [c] at its
    end, every other key holds what it held, and the count is
    unchanged. *)
Theorem register_then_exists (part : Part.t) (line : Line.t) (c : nat)
    (self : BugFinder.t) :
  let self' := BugFinder.register_bug_part_match part line c self in
  (BugFinder.bug_part_match_exists part line self').1 = true
  /\ BugFinder.positions (BugFinder.bug_part_matches self')
       (Line.id line) (Part.id part)
     = Some (cells (BugFinder.bug_part_matches self) (Line.id line) (Part.id part)
             ++ [c])
  /\ (forall l r, ~ (l = Line.id line /\ r = Part.id part) ->
        BugFinder.positions (BugFinder.bug_part_matches self') l r
        = BugFinder.positions (BugFinder.bug_part_matches self) l r)
  /\ BugFinder.bug_count self' = BugFinder.bug_count self.
Proof.
  intros self'. unfold self'.
  assert (Hkey : BugFinder.positions
            (BugFinder.bug_part_matches
               (BugFinder.register_bug_part_match part line c self))
            (Line.id line) (Part.id part)
          = Some (cells (BugFinder.bug_part_matches self) (Line.id line) (Part.id part)
                  ++ [c])).
  { rewrite positions_register. destruct (decide _) as [|[]]; [reflexivity|].
    split; reflexivity. }
  split; [apply bug_part_match_exists_fst; rewrite Hkey; eauto|].
  split; [exact Hkey|]. split; [|apply bug_count_register].
  intros l r Hne. rewrite positions_register.
  destruct (decide _); [contradiction | reflexivity].
Qed.

Lemma list_remove_raises x l e : BugFinder.list_remove x l = Raise e -> e = ValueError.
Proof.
  induction l as [|y l IH]; cbn [BugFinder.list_remove]; [congruence|].
  destruct (decide (x = y)); [discriminate|].
  destruct (BugFinder.list_remove x l); cbn [mbind result_bind]; [discriminate|].
  intros [= <-]. apply IH. reflexivity.
Qed.

Lemma deregister_loop_raises parts : forall ln c m e,
  BugFinder.deregister_loop parts ln c m = Raise e -> e = ValueError.
Proof.
  induction parts as [|p parts IH]; intros ln c m e; [discriminate|].
  rewrite deregister_loop_cons.
  destruct (BugFinder.list_remove c (cells m ln (Part.id p))) as [l'|e'] eqn:E;
    cbn [mbind result_bind].
  - apply IH.
  - intros [= <-]. apply (list_remove_raises _ _ _ E).
Qed.

(** X11.  In any state of the table, [deregister_bug_match(line, c)]
    returns exactly when [c] is in the list of every row of the shape at
    its line (the row [k] rows above the last at line [line.id - k]);
    otherwise it raises, and what it raises is the [ValueError] of
    [list.remove]. *)
Theorem deregister_succeeds_iff (shape : list Part.t) (line : Line.t) (c : nat)
    (self : BugFinder.t) :
  ((exists self', BugFinder.deregister_bug_match shape line c self = Ok self')
   <-> forall (k : nat) p, rev shape !! k = Some p ->
         c ∈ cells (BugFinder.bug_part_matches self)
               (Line.id line - Z.of_nat k) (Part.id p))
  /\ forall e, BugFinder.deregister_bug_match shape line c self = Raise e ->
               e = ValueError.
Proof.
  unfold BugFinder.deregister_bug_match. split; [split|].
  - intros [self' H].
    destruct (BugFinder.deregister_loop _ _ _ _) as [m'|] eqn:E; [|discriminate].
    destruct (deregister_loop_spec _ _ _ _ _ E) as (H1 & _).
    intros k p Hk. apply (list_remove_elem _ _ _ (H1 k p Hk)).
  - intros H.
    destruct (deregister_loop_ok (rev shape) (Line.id line) c
                (BugFinder.bug_part_matches self) H) as [m' ->].
    cbn. eauto.
  - intros e.
    destruct (BugFinder.deregister_loop _ _ _ _) as [m'|e'] eqn:E;
      cbn [mbind result_bind]; [discriminate|].
    intros [= <-]. apply (deregister_loop_raises _ _ _ _ _ E).
Qed.

(** X12.  [bug_part_match_belongs_to_a_bug] raises [IndexError] on a
    shape without rows.  Otherwise it returns, and it answers true exactly
    when the part has the identifier of the last row and the column is
    registered for every other row, the row [k + 1] rows above the last at
    line [line.id - 1 - k]; its reads of the [defaultdict] change neither
    the count nor the columns registered under any key. *)
Theorem belongs_to_a_bug_spec (shape : list Part.t) (part : Part.t)
    (line : Line.t) (c : nat) (self : BugFinder.t) :
  match last shape with
  | None =>
      BugFinder.bug_part_match_belongs_to_a_bug shape part line c self
      = Raise IndexError
  | Some bottom =>
      exists b self',
        BugFinder.bug_part_match_belongs_to_a_bug shape part line c self
        = Ok (b, self')
        /\ (b = true
            <-> Part.id part = Part.id bottom
                /\ forall (k : nat) p, rev (removelast shape) !! k = Some p ->
                     c ∈ cells (BugFinder.bug_part_matches self)
                           (Line.id line - 1 - Z.of_nat k) (Part.id p))
        /\ BugFinder.bug_count self' = BugFinder.bug_count self
        /\ forall l r,
             cells (BugFinder.bug_part_matches self') l r
             = cells (BugFinder.bug_part_matches self) l r
  end.
Proof.
  unfold BugFinder.bug_part_match_belongs_to_a_bug.
  destruct (last shape) as [bottom|]; [|reflexivity].
  destruct (decide (Part.id part = Part.id bottom)) as [Hid|Hid].
  - destruct (BugFinder.belongs_loop (rev (removelast shape)) (Line.id line) c
                (BugFinder.bug_part_matches self)) as [b m'] eqn:E.
    destruct (belongs_loop_spec _ _ _ _ _ _ E) as (H1 & _ & H3).
    eexists b, _. split; [reflexivity|].
    cbn [BugFinder.bug_part_matches BugFinder.bug_count].
    split; [rewrite H3; tauto|]. split; [reflexivity | exact H1].
  - exists false, self. split; [reflexivity|].
    split; [split; [discriminate | intros [? _]; contradiction]|].
    split; reflexivity.
Qed.

Lemma positions_default (m : BugFinder.table) l r :
  BugFinder.positions m l r = default ∅ (m !! l) !! r.
Proof.
  unfold BugFinder.positions. destruct (m !! l); cbn; [reflexivity|].
  rewrite lookup_empty. reflexivity.
Qed.

(** X13.  The two pruning rules, read off the table.
    [should_skip_bug_part_in_line] answers true exactly when the line and
    the part are not the first ones and the key of the previous part in
    the previous line is missing; [should_skip_all_bug_parts_in_line]
    answers true exactly when the line number is at most the part's
    identifier and the key of the part in the line is missing.  Neither
    changes the count, a list of the table, or the set of its
    (line, part) keys. *)
Theorem pruning_rules_read_only (part : Part.t) (line : Line.t) (self : BugFinder.t) :
  let rule1 := BugFinder.should_skip_bug_part_in_line part line self in
  let rule2 := BugFinder.should_skip_all_bug_parts_in_line part line self in
  (rule1.1 = true
   <-> Line.id line >= 1 /\ Part.id part >= 1
       /\ BugFinder.positions (BugFinder.bug_part_matches self)
            (Line.id line - 1) (Part.id part - 1) = None)
  /\ (rule2.1 = true
      <-> Line.id line <= Part.id part
          /\ BugFinder.positions (BugFinder.bug_part_matches self)
               (Line.id line) (Part.id part) = None)
  /\ same_positions self rule1.2
  /\ same_positions self rule2.2.
Proof.
  intros rule1 rule2. unfold rule1, rule2.
  split; [|split; [|split; [apply should_skip_bug_part_same | apply should_skip_all_same]]].
  - split.
    + intros H. apply should_skip_bug_part_true in H as (H1 & H2 & H3).
      split; [lia|]. split; [lia | exact H3].
    + intros (H1 & H2 & H3). unfold BugFinder.should_skip_bug_part_in_line.
      destruct (decide _) as [_|Hn]; [|lia].
      pose proof (get_line_fst (BugFinder.bug_part_matches self) (Line.id line - 1)) as Hd.
      destruct (BugFinder.get_line _ _) as [d m]. cbn [fst] in *. subst d.
      rewrite positions_default in H3. rewrite H3.
      apply negb_true_iff, bool_decide_eq_false. intros [? [=]].
  - unfold BugFinder.should_skip_all_bug_parts_in_line.
    pose proof (bug_part_match_exists_fst part line self) as Hex.
    destruct (decide _) as [Hle|Hgt].
    + destruct (BugFinder.bug_part_match_exists part line self) as [b s'].
      cbn [fst] in *. rewrite negb_true_iff. split.
      * intros ->. split; [lia|].
        destruct (BugFinder.positions _ _ _) eqn:E; [|reflexivity].
        assert (false = true) by (apply Hex; eauto). discriminate.
      * intros [_ Hn]. destruct b; [|reflexivity].
        destruct (proj1 Hex eq_refl) as [? Hs]. congruence.
    + cbn [fst]. split; [discriminate | intros [? _]; lia].
Qed.

(** *** Registering the matches of a row that is not the last *)

Lemma on_bug_part_match_other shape bottom part line c self :
  last shape = Some bottom -> Part.id part <> Part.id bottom ->
  BugFinder.on_bug_part_match shape part line c self
  = Ok (BugFinder.register_bug_part_match part line c self).
Proof.
  intros Hb Hid.
  unfold BugFinder.on_bug_part_match, BugFinder.bug_part_match_belongs_to_a_bug.
  rewrite Hb. destruct (decide _); [contradiction | reflexivity].
Qed.

(** X14.  For a part that does not have the identifier of the last row,
    [find_bug_part_and_bugs_in_landscape_line] returns, leaves the count
    as it is, and appends to the list of the part in the line the columns
    [re.finditer] reports, in their order; no other list changes. *)
Theorem find_registers_columns (shape : list Part.t) (bottom part : Part.t)
    (line : Line.t) (cols : list nat) (self : BugFinder.t) :
  last shape = Some bottom ->
  Part.id part <> Part.id bottom ->
  Re.finditer (Part.pattern part) (Line.pattern line) = Ok cols ->
  exists self',
    BugFinder.find_bug_part_and_bugs_in_landscape_line shape part line self = Ok self'
    /\ BugFinder.bug_count self' = BugFinder.bug_count self
    /\ forall l r,
         cells (BugFinder.bug_part_matches self') l r
         = if decide (l = Line.id line /\ r = Part.id part)
           then cells (BugFinder.bug_part_matches self) l r ++ cols
           else cells (BugFinder.bug_part_matches self) l r.
Proof.
  intros Hb Hid Hf. unfold BugFinder.find_bug_part_and_bugs_in_landscape_line.
  rewrite Hf. cbn [mbind result_bind]. clear Hf. revert self.
  induction cols as [|c cols IH]; intros self.
  - exists self. split; [reflexivity|]. split; [reflexivity|].
    intros l r. destruct (decide _); [rewrite app_nil_r|]; reflexivity.
  - cbn [for_each]. rewrite (on_bug_part_match_other _ _ _ _ _ _ Hb Hid).
    cbn [mbind result_bind].
    destruct (IH (BugFinder.register_bug_part_match part line c self))
      as (self' & E & Hc & Hcells).
    exists self'. split; [exact E|].
    split; [rewrite Hc; apply bug_count_register|].
    intros l r. rewrite Hcells, !cells_register.
    destruct (decide _) as [[-> ->]|]; [|reflexivity].
    rewrite <- app_assoc. reflexivity.
Qed.

Lemma find_registers_columns_witness :
  let top := Part.of_line (Line.mk 0 (py "aa")) in
  let bottom := Part.of_line (Line.mk 1 (py "b")) in
  let line := Line.mk 0 (py "aaaa") in
  exists self',
    BugFinder.find_bug_part_and_bugs_in_landscape_line [top; bottom] top line
      BugFinder.init = Ok self'
    /\ BugFinder.bug_count self' = BugFinder.bug_count BugFinder.init
    /\ forall l r,
         cells (BugFinder.bug_part_matches self') l r
         = if decide (l = Line.id line /\ r = Part.id top)
           then cells (BugFinder.bug_part_matches BugFinder.init) l r ++ [0; 1; 2]%nat
           else cells (BugFinder.bug_part_matches BugFinder.init) l r.
Proof.
  intros top bottom line.
  apply (find_registers_columns [top; bottom] bottom top line [0; 1; 2]%nat
           BugFinder.init); [reflexivity | discriminate | reflexivity].
Defined.

(** ** What the count counts *)

Lemma enumerate_from_lookup {A} (xs : list A) : forall i (k : nat),
  Py.enumerate_from i xs !! k = (fun x => (i + Z.of_nat k, x)) <$> xs !! k.
Proof.
  induction xs as [|x xs IH]; intros i k; [reflexivity|].
  destruct k as [|k]; cbn [Py.enumerate_from lookup list_lookup].
  - cbn. rewrite Z.add_0_r. reflexivity.
  - change ((x :: xs) !! S k) with (xs !! k).
    change (((i, x) :: Py.enumerate_from (i + 1) xs) !! S k)
      with (Py.enumerate_from (i + 1) xs !! k).
    rewrite IH. destruct (xs !! k); cbn; [|reflexivity]. do 2 f_equal. lia.
Qed.

(** The reader of a file without a blank line yields every line. *)
Lemma reader_blank_free ls : forall i,
  Forall (fun l => Py.rstrip l <> []) ls ->
  omap reader_line (Py.enumerate_from i ls)
  = (fun x : Z * str => Line.mk x.1 (Py.rstrip x.2)) <$> Py.enumerate_from i ls.
Proof.
  induction ls as [|l ls IH]; intros i H; [reflexivity|].
  inversion H as [|? ? Hl Hls]; subst.
  cbn [Py.enumerate_from omap list_omap fmap list_fmap reader_line fst snd].
  destruct (Py.rstrip l) eqn:E; [congruence|].
  f_equal. apply IH, Hls.
Qed.

Lemma read_bug_lookup bug_file (k : nat) :
  Forall (fun l => Py.rstrip l <> []) (Py.file_lines bug_file) ->
  _read_bug bug_file !! k
  = (fun raw => Part.mk (Z.of_nat k) (_format_pattern (Py.rstrip raw)))
      <$> Py.file_lines bug_file !! k.
Proof.
  intros H. unfold _read_bug, reader, Py.enumerate.
  rewrite reader_blank_free by exact H.
  rewrite !list_lookup_fmap, enumerate_from_lookup.
  destruct (Py.file_lines bug_file !! k); reflexivity.
Qed.

Lemma read_bug_length bug_file :
  Forall (fun l => Py.rstrip l <> []) (Py.file_lines bug_file) ->
  length (_read_bug bug_file) = length (Py.file_lines bug_file).
Proof.
  intros H. rewrite <- (length_fmap Part.id), (read_bug_ids_contiguous _ H).
  rewrite length_fmap, length_seq.
  rewrite <- (length_fmap Part.id), read_bug_ids, (reader_ids_contiguous _ H).
  rewrite length_fmap, length_seq. reflexivity.
Qed.

(** The columns [finditer] gives for a row in a line without line feed. *)
Lemma match_cols_row_at id row line col :
  row <> [] ->
  Forall (fun x => Py.isspace x = true -> x = Py.SP) (tail row) ->
  Py.LF ∉ Line.pattern line ->
  col ∈ match_cols (Part.mk id (_format_pattern row)) line
  <-> row_at row (Line.pattern line) col.
Proof.
  intros Hrow Hsp HLF. destruct row as [|first rest]; [congruence|].
  unfold match_cols. cbn [Part.pattern].
  destruct (finditer_row first rest (Line.pattern line)) as (cols & -> & _ & Hm).
  rewrite Hm. apply matches_at_row_at; assumption.
Qed.

(** X15.  What the program counts.  For a bug file with at least one
    line and no blank line, whose rows hold no whitespace but spaces after
    their first character, and any landscape file, the count is the
    number of places (a line number and a column) where the bug lies in
    the landscape: each row of the bug, in order, lies at the column in
    the lines that follow one another from that line on, that is, the
    line is long enough to hold the row there, shows the first character
    of the row at the column, whatever it is (a space included), and
    shows at its place every later character of the row that is not a
    space.  Every such place is counted once, overlapping places
    included. *)
Theorem main_counts_occurrences (bug_file landscape_file : str) :
  let rows := Py.rstrip <$> Py.file_lines bug_file in
  rows <> [] ->
  Forall (fun row => row <> []
            /\ Forall (fun x => Py.isspace x = true -> x = Py.SP) (tail row)) rows ->
  exists occs : list (nat * nat),
    NoDup occs
    /\ (forall top col,
          (top, col) ∈ occs
          <-> bug_at rows (Py.file_lines landscape_file) top col)
    /\ main bug_file landscape_file = Ok (length occs).
Proof.
  intros rows Hne Hrows.
  set (shape := _read_bug bug_file). set (lines := reader landscape_file).
  assert (Hblank : Forall (fun l => Py.rstrip l <> []) (Py.file_lines bug_file)).
  { unfold rows in Hrows. rewrite Forall_fmap in Hrows.
    eapply Forall_impl; [exact Hrows|]. intros l [H _]. exact H. }
  assert (Hshape : forall k : nat,
            shape !! k = (fun row => Part.mk (Z.of_nat k) (_format_pattern row)) <$> rows !! k).
  { intros k. unfold shape, rows. rewrite (read_bug_lookup _ _ Hblank), list_lookup_fmap.
    destruct (Py.file_lines bug_file !! k); reflexivity. }
  assert (Hlen : length shape = length rows).
  { unfold shape, rows. rewrite (read_bug_length _ Hblank), length_fmap. reflexivity. }
  assert (Hpos : (1 <= length shape)%nat).
  { rewrite Hlen. destruct rows; [congruence | simpl; lia]. }
  assert (Hrow : forall (i : nat) row, rows !! i = Some row ->
            row <> [] /\ Forall (fun x => Py.isspace x = true -> x = Py.SP) (tail row)).
  { intros i row Hi. rewrite Forall_forall in Hrows. apply Hrows.
    apply (list_elem_of_lookup_2 _ _ _ Hi). }
  destruct (count_is_occurrences shape lines
              BugFinder.should_skip_bug_part_in_line
              BugFinder.should_skip_all_bug_parts_in_line
              (read_bug_compiled bug_file) (read_bug_ids_contiguous _ Hblank)
              (reader_ids_sorted landscape_file) (reader_ids_nonneg landscape_file)
              should_skip_bug_part_same should_skip_all_same
              should_skip_bug_part_true should_skip_all_true)
    as (self & evs & E & Hc & Hnd & Hocc).
  remember (length shape) as n eqn:Hn.
  assert (Hkey : forall L c,
            occurrence_at shape lines L c
            <-> exists top : nat,
                  L = Z.of_nat top + Z.of_nat (n - 1)
                  /\ bug_at rows (Py.file_lines landscape_file) top c).
  { intros L c. split.
    - intros [_ Hch].
      destruct (Hch 0%nat ltac:(lia)) as (line0 & p0 & Hin0 & Hid0 & _).
      apply reader_elem in Hin0 as (top & raw0 & _ & _ & ->). cbn in Hid0.
      exists top. split; [lia|].
      intros i row Hi.
      assert (Hi' : (i < n)%nat)
        by (pose proof (lookup_lt_Some _ _ _ Hi); lia).
      destruct (Hch i ltac:(lia)) as (line & p & Hin & Hid & Hp & Hm).
      pose proof (reader_pattern _ _ Hin) as [_ HLF].
      apply reader_elem in Hin as (j & raw & Hraw & _ & ->). cbn in Hid, HLF.
      replace j with (top + i)%nat in Hraw by lia.
      exists raw. split; [exact Hraw|].
      rewrite Hshape, Hi in Hp. injection Hp as <-.
      destruct (Hrow i row Hi) as [Hr1 Hr2].
      apply (match_cols_row_at _ row (Line.mk (Z.of_nat j) (Py.rstrip raw)) c Hr1 Hr2 HLF)
        in Hm. exact Hm.
    - intros (top & -> & Hat). split.
      { intros Hs. rewrite Hs in Hn. simpl in Hn. lia. }
      intros i Hi.
      destruct (lookup_lt_is_Some_2 rows i ltac:(lia))
        as [row Hrowi].
      destruct (Hat i row Hrowi) as (raw & Hraw & Hra).
      destruct (Hrow i row Hrowi) as [Hr1 Hr2].
      assert (Hnb : Py.rstrip raw <> []).
      { intros Hnil. destruct Hra as [Hl _]. rewrite Hnil in Hl.
        destruct row; [congruence | simpl in Hl; lia]. }
      assert (Hin : Line.mk (Z.of_nat (top + i)) (Py.rstrip raw) ∈ lines).
      { apply reader_elem. exists (top + i)%nat, raw. auto. }
      exists (Line.mk (Z.of_nat (top + i)) (Py.rstrip raw)),
             (Part.mk (Z.of_nat i) (_format_pattern row)).
      split; [exact Hin|]. split; [cbn; lia|].
      split; [rewrite Hshape, Hrowi; reflexivity|].
      apply (match_cols_row_at _ row _ c Hr1 Hr2); [|exact Hra].
      apply (reader_pattern _ _ Hin). }
  set (f := fun o : Z * nat => (Z.to_nat (o.1 - Z.of_nat (n - 1)), o.2)).
  exists (f <$> occurrences evs). split; [|split].
  - apply NoDup_fmap_2_strong; [|exact Hnd].
    intros [L1 c1] [L2 c2] H1 H2 Hf.
    apply Hocc, Hkey in H1 as (t1 & -> & _).
    apply Hocc, Hkey in H2 as (t2 & -> & _).
    unfold f in Hf. cbn in Hf. injection Hf as Ht ->. f_equal. lia.
  - intros top col. rewrite list_elem_of_fmap. split.
    + intros ([L c] & Hf & Hin). unfold f in Hf. cbn in Hf. injection Hf as -> ->.
      apply Hocc, Hkey in Hin as (t & -> & Hat).
      replace (Z.to_nat (Z.of_nat t + Z.of_nat (n - 1) - Z.of_nat (n - 1))) with t by lia.
      exact Hat.
    + intros Hat. exists (Z.of_nat top + Z.of_nat (n - 1), col). split.
      * unfold f. cbn. f_equal. lia.
      * apply Hocc, Hkey. eauto.
  - unfold main, BugFinder.find_bugs_in_landscape. fold shape lines.
    rewrite E. cbn. rewrite Hc, length_fmap. reflexivity.
Qed.

Lemma main_counts_occurrences_witness :
  let bug_file := py ("| |" ++ nl ++ "###O" ++ nl ++ "| |" ++ nl) in
  let landscape_file :=
    py ("  | |   | |" ++ nl ++ "  ###O  ###O" ++ nl ++ "  |x|   | x" ++ nl) in
  exists occs : list (nat * nat),
    NoDup occs
    /\ (forall top col,
          (top, col) ∈ occs
          <-> bug_at (Py.rstrip <$> Py.file_lines bug_file)
                (Py.file_lines landscape_file) top col)
    /\ main bug_file landscape_file = Ok (length occs).
Proof.
  intros bug_file landscape_file.
  apply (main_counts_occurrences bug_file landscape_file).
  - discriminate.
  - repeat constructor; try discriminate;
      intros H; first [reflexivity | discriminate H].
Defined.

(** ** The script *)

Lemma endswith_nonempty suffix : suffix <> [] -> endswith [] suffix = false.
Proof.
  intros H. apply bool_decide_eq_false. rewrite drop_nil. congruence.
Qed.

(** What [Bug(filename)] does, check after check. *)
Lemma Bug_init_eq fs filename :
  Bug.init fs filename
  = if endswith filename (py ".txt")
    then match fs (py "data/" ++ filename) with
         | Some (Regular content) =>
             Returns (Bug.mk (File.mk filename) (_read_bug content))
         | Some Unreadable => Fails IOError
         | None => Fails (Exn ValueError)
         end
    else Fails (Exn TypeError).
Proof.
  unfold Bug.init, File.init, File.file_path, open.
  destruct (endswith filename (py ".txt")); [|reflexivity].
  cbn [lift mbind outcome_bind File.filename].
  change (DATA_FOLDER_PATH ++ py "/" ++ filename) with (py "data/" ++ filename).
  cbv zeta. destruct (fs (py "data/" ++ filename)) as [[content|]|] eqn:E;
    cbn [lift mbind outcome_bind]; rewrite ?E; reflexivity.
Qed.

Lemma Finder_find_eq fs self :
  Finder.find_bugs_in_landscape fs self
  = match fs (py "data/" ++ File.filename (Finder.landscape self)) with
    | Some (Regular content) =>
        match BugFinder.find_bugs_in_landscape (Bug.shape (Finder.bug self)) content
                (Finder.state self) with
        | Ok state => Returns (Finder.mk (Finder.bug self) (Finder.landscape self) state)
        | Raise e => Fails (Exn e)
        end
    | Some Unreadable => Fails IOError
    | None => Fails (Exn ValueError)
    end.
Proof.
  unfold Finder.find_bugs_in_landscape, File.file_path, open.
  change (DATA_FOLDER_PATH ++ py "/" ++ File.filename (Finder.landscape self))
    with (py "data/" ++ File.filename (Finder.landscape self)).
  cbv zeta.
  destruct (fs (py "data/" ++ File.filename (Finder.landscape self)))
    as [[content|]|] eqn:E; cbn [lift mbind outcome_bind]; rewrite ?E;
    cbn [lift mbind outcome_bind]; try reflexivity.
  destruct (BugFinder.find_bugs_in_landscape _ _ _); reflexivity.
Qed.

(** The run of the script on two names that are not empty. *)
Lemma script_eq fs b bn l ln :
  script fs (Some (b :: bn)) (Some (l :: ln))
  = match (bug_default ← Bug.init fs (b :: bn);
           landscape_default ← lift (Landscape.init (l :: ln));
           Finder.find_bugs_in_landscape fs
             (Finder.init bug_default landscape_default)) with
    | Returns bug_finder =>
        ([Text (report (BugFinder.bug_count (Finder.state bug_finder)))], Returns tt)
    | Fails e => ([], Fails e)
    end.
Proof. reflexivity. Qed.

(** X17.  When the two arguments of the script name files of the data
    folder that can be read and whose names end in [.txt], the script
    runs to its end without an exception and writes one line, the count
    of the engine for the contents of the two files after the words
    [Bug count in the landscape: ]. *)
Theorem script_prints_count (fs : filesystem)
    (bug_name landscape_name bug_file landscape_file : str) :
  endswith bug_name (py ".txt") = true ->
  endswith landscape_name (py ".txt") = true ->
  fs (py "data/" ++ bug_name) = Some (Regular bug_file) ->
  fs (py "data/" ++ landscape_name) = Some (Regular landscape_file) ->
  exists count,
    main bug_file landscape_file = Ok count
    /\ script fs (Some bug_name) (Some landscape_name)
       = ([Text (report count)], Returns tt).
Proof.
  intros Hb Hl Fb Fl.
  destruct bug_name as [|b bn].
  { rewrite endswith_nonempty in Hb by discriminate. discriminate. }
  destruct landscape_name as [|l ln].
  { rewrite endswith_nonempty in Hl by discriminate. discriminate. }
  destruct (find_bugs_in_landscape_ok bug_file landscape_file) as [self E].
  exists (BugFinder.bug_count self). split; [unfold main; rewrite E; reflexivity|].
  rewrite script_eq, Bug_init_eq, Hb, Fb. cbn [mbind outcome_bind].
  unfold Landscape.init, File.init. rewrite Hl. cbn [lift mbind outcome_bind].
  rewrite Finder_find_eq. cbn [Finder.init Finder.landscape Finder.bug Finder.state
                                 File.filename Bug.shape].
  rewrite Fl, E. reflexivity.
Qed.

Lemma script_prints_count_witness :
  let fs := fun path : str =>
    if decide (path = py "data/bug.txt") then Some (Regular (py ("ab" ++ nl ++ "cd" ++ nl)))
    else if decide (path = py "data/landscape.txt")
         then Some (Regular (py ("xab" ++ nl ++ "xcd" ++ nl ++ "ab" ++ nl)))
         else None in
  exists count,
    main (py ("ab" ++ nl ++ "cd" ++ nl)) (py ("xab" ++ nl ++ "xcd" ++ nl ++ "ab" ++ nl))
    = Ok count
    /\ script fs (Some (py "bug.txt")) (Some (py "landscape.txt"))
       = ([Text (report count)], Returns tt).
Proof.
  intros fs.
  apply (script_prints_count fs (py "bug.txt") (py "landscape.txt")); reflexivity.
Defined.


(** ** Growing the landscape *)

Lemma file_lines_nonempty content : content <> [] -> Py.file_lines content <> [].
Proof.
  destruct content as [|c rest]; [congruence|]. intros _. cbn [Py.file_lines].
  destruct (Ascii.eqb c Py.LF); [discriminate|].
  destruct (Py.file_lines rest); discriminate.
Qed.

(** The lines of a file that ends in a line feed stay what they are when
    more is written after them. *)
Lemma file_lines_app content more :
  content = [] \/ last content = Some Py.LF ->
  Py.file_lines (content ++ more) = Py.file_lines content ++ Py.file_lines more.
Proof.
  induction content as [|c rest IH]; intros H; [reflexivity|].
  destruct H as [H|H]; [discriminate|].
  assert (Hrest : rest = [] \/ last rest = Some Py.LF).
  { destruct rest as [|c' rest']; [left; reflexivity | right; exact H]. }
  cbn [app Py.file_lines]. rewrite (IH Hrest).
  destruct (Ascii.eqb_spec c Py.LF) as [->|Hne]; [reflexivity|].
  destruct rest as [|c' rest']; [injection H as ->; congruence|].
  pose proof (file_lines_nonempty (c' :: rest') ltac:(discriminate)) as Hnil.
  destruct (Py.file_lines (c' :: rest')); [congruence | reflexivity].
Qed.

Lemma occurrence_at_mono shape lines lines' L c :
  (forall line, line ∈ lines -> line ∈ lines') ->
  occurrence_at shape lines L c -> occurrence_at shape lines' L c.
Proof.
  intros Hsub [Hne Hch]. split; [exact Hne|]. intros i Hi.
  destruct (Hch i Hi) as (line & p & Hin & H). exists line, p. split; [auto | exact H].
Qed.

(** X19.  For a bug file without a blank line and a landscape file that
    is empty or ends in a line feed, writing more after the landscape
    never lowers the count: both passes return, and every place counted
    in the landscape alone is counted again in the longer one. *)
Theorem more_landscape_more_bugs (bug_file landscape_file more : str) :
  Forall (fun l => Py.rstrip l <> []) (Py.file_lines bug_file) ->
  landscape_file = [] \/ last landscape_file = Some Py.LF ->
  exists n n',
    main bug_file landscape_file = Ok n
    /\ main bug_file (landscape_file ++ more) = Ok n'
    /\ (n <= n')%nat.
Proof.
  intros Hblank Hend.
  assert (Hrun : forall landscape, exists occs,
            main bug_file landscape = Ok (length occs) /\ NoDup occs
            /\ forall L c, (L, c) ∈ occs
                 <-> occurrence_at (_read_bug bug_file) (reader landscape) L c).
  { intros landscape.
    destruct (count_is_occurrences (_read_bug bug_file) (reader landscape)
                BugFinder.should_skip_bug_part_in_line
                BugFinder.should_skip_all_bug_parts_in_line
                (read_bug_compiled bug_file) (read_bug_ids_contiguous _ Hblank)
                (reader_ids_sorted landscape) (reader_ids_nonneg landscape)
                should_skip_bug_part_same should_skip_all_same
                should_skip_bug_part_true should_skip_all_true)
      as (self & evs & E & Hc & Hnd & Hocc).
    exists (occurrences evs). split; [|split; assumption].
    unfold main, BugFinder.find_bugs_in_landscape. rewrite E. cbn. rewrite Hc.
    reflexivity. }
  destruct (Hrun landscape_file) as (occs & E & Hnd & Hocc).
  destruct (Hrun (landscape_file ++ more)) as (occs' & E' & _ & Hocc').
  exists (length occs), (length occs'). split; [exact E|]. split; [exact E'|].
  apply submseteq_length, NoDup_submseteq; [exact Hnd|].
  intros [L c] Hin. apply Hocc'. apply Hocc in Hin.
  revert Hin. apply occurrence_at_mono. intros line.
  rewrite !reader_elem, (file_lines_app _ more Hend).
  intros (i & raw & Hi & H). exists i, raw. split; [|exact H].
  apply lookup_app_l_Some, Hi.
Qed.

Lemma more_landscape_more_bugs_witness :
  exists n n',
    main (py ("ab" ++ nl ++ "cd" ++ nl)) (py ("ab" ++ nl ++ "cd" ++ nl)) = Ok n
    /\ main (py ("ab" ++ nl ++ "cd" ++ nl))
         (py ("ab" ++ nl ++ "cd" ++ nl) ++ py ("xab" ++ nl ++ "xcd")) = Ok n'
    /\ (n <= n')%nat.
Proof.
  apply (more_landscape_more_bugs (py ("ab" ++ nl ++ "cd" ++ nl))
           (py ("ab" ++ nl ++ "cd" ++ nl)) (py ("xab" ++ nl ++ "xcd"))).
  - repeat constructor; discriminate.
  - right. reflexivity.
Defined.

(** ** What the table holds at the end of a pass *)

(** X20.  For a bug file without a blank line and any landscape file, the
    pass returns, and in the table it leaves every list is free of
    duplicates and every column in the list of a key (line, part) is a
    column where [re.finditer] found that part of the shape in that line
    of the landscape. *)
Theorem table_holds_matches (bug_file landscape_file : str) :
  Forall (fun l => Py.rstrip l <> []) (Py.file_lines bug_file) ->
  exists self,
    BugFinder.find_bugs_in_landscape (_read_bug bug_file) landscape_file
      BugFinder.init = Ok self
    /\ forall l r,
         NoDup (cells (BugFinder.bug_part_matches self) l r)
         /\ forall c, c ∈ cells (BugFinder.bug_part_matches self) l r ->
              exists part line,
                part ∈ _read_bug bug_file /\ line ∈ reader landscape_file
                /\ Part.id part = r /\ Line.id line = l
                /\ c ∈ match_cols part line.
Proof.
  intros Hblank.
  pose proof (read_bug_ids_contiguous _ Hblank) as Hids.
  destruct (lines_loop_complete (_read_bug bug_file) (reader landscape_file)
              (read_bug_compiled bug_file) Hids
              (reader_ids_sorted landscape_file) (reader_ids_nonneg landscape_file)
              BugFinder.should_skip_bug_part_in_line
              BugFinder.should_skip_all_bug_parts_in_line
              should_skip_bug_part_same should_skip_all_same
              should_skip_bug_part_true should_skip_all_true
              (reader landscape_file) [] BugFinder.init [])
    as (self & evs & E & Hr & Hs & Hsound & _).
  { reflexivity. }
  { intros e He. inversion He. }
  { intros l j c _ H. inversion H. }
  exists self. split; [exact E|].
  pose proof (retired_runs _ _ _ _ Hr [] (retired_init _) Hs) as Hret.
  cbn [app] in Hret. intros l r. split; [apply (ret_nodup _ _ _ Hret)|].
  intros c Hc. destruct (ret_registered _ _ _ Hret l r c Hc) as [b He].
  rewrite Forall_forall in Hsound.
  destruct (Hsound _ He) as (_ & j & Hj & line & p & Hline & Hid & Hp & Hm).
  cbn in Hj, Hid, Hm. exists p, line.
  split; [apply (list_elem_of_lookup_2 _ _ _ Hp)|]. split; [exact Hline|].
  split; [rewrite Hj; apply (shape_id _ Hids _ _ Hp)|]. split; [exact Hid | exact Hm].
Qed.

Lemma table_holds_matches_witness :
  exists self,
    BugFinder.find_bugs_in_landscape (_read_bug (py ("ab" ++ nl ++ "cd" ++ nl)))
      (py ("xab" ++ nl ++ "ab" ++ nl)) BugFinder.init = Ok self
    /\ forall l r,
         NoDup (cells (BugFinder.bug_part_matches self) l r)
         /\ forall c, c ∈ cells (BugFinder.bug_part_matches self) l r ->
              exists part line,
                part ∈ _read_bug (py ("ab" ++ nl ++ "cd" ++ nl))
                /\ line ∈ reader (py ("xab" ++ nl ++ "ab" ++ nl))
                /\ Part.id part = r /\ Line.id line = l
                /\ c ∈ match_cols part line.
Proof.
  apply (table_holds_matches (py ("ab" ++ nl ++ "cd" ++ nl)) (py ("xab" ++ nl ++ "ab" ++ nl))).
  repeat constructor; discriminate.
Defined.
